(** * Wake / heartbeat monitoring core of the cloud backup client SDK

    A shallow embedding of
      - [cloudbackup/client/rse.py]    : [Rse.Query], [Rse.MonitorForHeartBeat]
      - [cloudbackup/client/agents.py] : [_keep_agent_wake_thread_fn],
        [AgentLogLevel.PopLogLevel], [Agents.__del__], [Agents.WakeAgents],
        [Agents.WakeSpecificAgent], [Agents.KeepAgentAwake],
        [Agents.StopKeepAgentWake]
    together with the properties the specification states about them. *)

From Stdlib Require Import ZArith QArith.
From stdpp Require Import base option list strings gmap.

Set Warnings "-register-all".
Local Open Scope Z_scope.
Local Open Scope string_scope.

(** ** Python values and exceptions *)

Module Py.

(** The two interpreters the modules can be loaded by.  [agents.py] imports
    [print_function] from [__future__] but not [division]: under [Py2] the
    operator [/] on two ints is floor division, under [Py3] it is true
    division; ordering a number against a non-number is total under [Py2] and
    a [TypeError] under [Py3]. *)
Inductive python := Py2 | Py3.

Inductive exn :=
  | KeyError | IndexError | TypeError | ValueError | AttributeError.

(** [except LookupError] catches exactly [KeyError] and [IndexError]. *)
Definition is_LookupError (e : exn) : bool :=
  match e with
  | KeyError | IndexError => true
  | _ => false
  end.

Inductive result (A : Type) :=
  | Ok (a : A)
  | Raise (e : exn).
Arguments Ok {A} a.
Arguments Raise {A} e.

#[global] Instance result_ret : MRet result := fun A a => Ok a.
#[global] Instance result_bind : MBind result := fun A B k r =>
  match r with
  | Ok a => k a
  | Raise e => Raise e
  end.

(** A decoded JSON document as the Python object [json()] builds: a float is
    kept as the rational it denotes, a dict as its items (keys are unique). *)
Inductive value :=
  | PNone
  | PBool (b : bool)
  | PInt (n : Z)
  | PFloat (q : Q)
  | PStr (s : string)
  | PList (l : list value)
  | PDict (items : list (string * value)).

Fixpoint assoc (k : string) (items : list (string * value)) : option value :=
  match items with
  | [] => None
  | (k', x) :: rest => if String.eqb k k' then Some x else assoc k rest
  end.

(** [x[k]] for a string key [k]: only a dict can be indexed by a string. *)
Definition subscript (x : value) (k : string) : result value :=
  match x with
  | PDict items =>
      match assoc k items with
      | Some y => Ok y
      | None => Raise KeyError
      end
  | _ => Raise TypeError
  end.

Fixpoint chars (s : string) : list value :=
  match s with
  | EmptyString => []
  | String c rest => PStr (String c EmptyString) :: chars rest
  end.

(** [for e in x]: the elements of a list, the keys of a dict, the characters
    of a string. *)
Definition iterate (x : value) : result (list value) :=
  match x with
  | PList l => Ok l
  | PDict items => Ok (map (fun kv => PStr (fst kv)) items)
  | PStr s => Ok (chars s)
  | _ => Raise TypeError
  end.

(** [x == s] for a string literal [s]. *)
Definition eq_str (x : value) (s : string) : bool :=
  match x with
  | PStr t => String.eqb t s
  | _ => false
  end.

Fixpoint is_substring (k s : string) : bool :=
  String.prefix k s ||
  match s with
  | EmptyString => false
  | String _ rest => is_substring k rest
  end.

(** [k in x] for a string literal [k]. *)
Definition contains (k : string) (x : value) : result bool :=
  match x with
  | PDict items => Ok (bool_decide (is_Some (assoc k items)))
  | PList l => Ok (existsb (fun y => eq_str y k) l)
  | PStr s => Ok (is_substring k s)
  | _ => Raise TypeError
  end.

(** The number a value denotes in arithmetic; [bool] is a subclass of [int]. *)
Definition num_value (x : value) : option Q :=
  match x with
  | PBool b => Some (if b then 1%Q else 0%Q)
  | PInt n => Some (inject_Z n)
  | PFloat q => Some q
  | _ => None
  end.

Definition Qltb (a b : Q) : bool := negb (Qle_bool b a).

(** [x < n] for an int literal [n].  Numbers compare by value.  Under [Py2]
    [None] is smaller than everything and every other non-number is greater
    than any number. *)
Definition lt_int (v : python) (x : value) (n : Z) : result bool :=
  match num_value x with
  | Some q => Ok (Qltb q (inject_Z n))
  | None =>
      match v with
      | Py3 => Raise TypeError
      | Py2 => Ok (match x with PNone => true | _ => false end)
      end
  end.

(** Agent identifiers are supplied by the caller: an integer or a string. *)
Inductive AgentId :=
  | IdInt (n : Z)
  | IdStr (s : string).

#[global] Instance AgentId_eq_dec : EqDecision AgentId.
Proof. solve_decision. Defined.

#[global] Instance AgentId_countable : Countable AgentId.
Proof.
  refine (inj_countable'
            (fun i => match i with IdInt n => inl n | IdStr s => inr s end)
            (fun x => match x with inl n => IdInt n | inr s => IdStr s end) _).
  by intros [].
Defined.

(** [x == machine_agent_id]. *)
Definition eq_id (x : value) (id : AgentId) : bool :=
  match id with
  | IdInt n =>
      match num_value x with
      | Some q => Qeq_bool q (inject_Z n)
      | None => false
      end
  | IdStr s => eq_str x s
  end.

End Py.

(** ** The event channel: [cloudbackup/client/rse.py] *)

Module Rse.
Import Py.

(** What [requests.get] hands back: the status code and the decoded body
    ([None] when the body is not JSON, so that [res.json()] raises). *)
Record response := Response {
  status_code : Z;
  json_body : option value
}.

Inductive log_msg :=
  | DebugQueryCode (code : Z)
  | ErrorInvalidMessage
  | ErrorParsing.

(** [Rse.Query]: one record set from the channel, [{}] unless the status is
    200.  The optional audit file ([rselogfile]) is not kept. *)
Definition Query (res : response) : result value :=
  if (status_code res =? 200)%Z then
    match json_body res with
    | Some body => Ok body
    | None => Raise ValueError
    end
  else Ok (PDict []).

(** The body of either [for event in ...] loop of [MonitorForHeartBeat]:
    [Ok true] stands for [return True], [Ok false] for falling through to the
    next event.  [and] evaluates [event['age']] only when the ids are equal. *)
Definition examine (v : python) (machine_agent_id : AgentId) (event : value)
  : result bool :=
  data ← subscript event "data";
  ty ← subscript data "Event";
  if eq_str ty "Heartbeat" then
    data' ← subscript event "data";
    mid ← subscript data' "MachineAgentId";
    if eq_id mid machine_agent_id then
      age ← subscript event "age";
      lt_int v age 26
    else Ok false
  else Ok false.

Fixpoint scan (v : python) (machine_agent_id : AgentId) (events : list value)
  : result bool :=
  match events with
  | [] => Ok false
  | event :: rest =>
      found ← examine v machine_agent_id event;
      if (found : bool) then Ok true else scan v machine_agent_id rest
  end.

(** The sequence the function loops over, and whether it came in the
    [{"events": [...]}] envelope. *)
Definition polled_events (rsemsg : value) : result (bool * list value) :=
  enveloped ← contains "events" rsemsg;
  if (enveloped : bool) then
    inner ← subscript rsemsg "events";
    events ← iterate inner;
    Ok (true, events)
  else
    events ← iterate rsemsg;
    Ok (false, events).

(** [Rse.MonitorForHeartBeat], with the messages it logs.  [RseInit] only
    rebuilds the request URI and headers. *)
Definition MonitorForHeartBeat (v : python) (machine_agent_id : AgentId)
    (res : response) : result bool * list log_msg :=
  let attempt : result (bool * list log_msg) :=
    rsemsg ← Query res;
    '(enveloped, events) ← polled_events rsemsg;
    found ← scan v machine_agent_id events;
    if (found : bool) then Ok (true, [])
    else if (enveloped : bool) then Ok (false, [])
    else Ok (false, [ErrorInvalidMessage]) in
  match attempt with
  | Ok (b, logged) => (Ok b, DebugQueryCode (status_code res) :: logged)
  | Raise e =>
      if is_LookupError e
      then (Ok false, [DebugQueryCode (status_code res); ErrorParsing])
      else (Raise e, [DebugQueryCode (status_code res)])
  end.

(** A heartbeat event as the service sends it. *)
Definition heartbeat_event (ty : string) (mid : value) (age : value) : value :=
  PDict [("data", PDict [("Event", PStr ty); ("MachineAgentId", mid)]);
         ("age", age)].

(** The fields of an event the specification names: event type, agent id
    and age (as a number). *)
Definition event_type (event : value) : option value :=
  match subscript event "data" with
  | Ok data => match subscript data "Event" with Ok x => Some x | _ => None end
  | _ => None
  end.
Definition event_agent (event : value) : option value :=
  match subscript event "data" with
  | Ok data =>
      match subscript data "MachineAgentId" with Ok x => Some x | _ => None end
  | _ => None
  end.
Definition event_age (event : value) : option Q :=
  match subscript event "age" with
  | Ok age => num_value age
  | _ => None
  end.


(** Equality of a field with the agent id the caller passed. *)
Definition equals_id (x : value) (machine_agent_id : AgentId) : Prop :=
  match machine_agent_id with
  | IdInt n => exists q, num_value x = Some q /\ (q == inject_Z n)%Q
  | IdStr s => x = PStr s
  end.

(** A heartbeat match in the words of the specification. *)
Definition heartbeat_match (machine_agent_id : AgentId) (event : value) : Prop :=
  exists mid age,
    event_type event = Some (PStr "Heartbeat") /\
    event_agent event = Some mid /\ equals_id mid machine_agent_id /\
    event_age event = Some age /\ (age < 26)%Q.

(** What the loop body tests: a heartbeat match, or, under Python 2 only,
    a heartbeat of the agent whose age is [None] (there [None < 26] holds). *)
Definition counts_as_match (v : python) (machine_agent_id : AgentId)
    (event : value) : Prop :=
  heartbeat_match machine_agent_id event \/
  (v = Py2 /\ event_type event = Some (PStr "Heartbeat") /\
   (exists mid, event_agent event = Some mid /\
                equals_id mid machine_agent_id) /\
   subscript event "age" = Ok PNone).

(** An entry from which the loop body reads a key that is not there:
    ["data"], then ["Event"]; ["MachineAgentId"] of a heartbeat; ["age"] of a
    heartbeat of the agent looked for. *)
Definition lacks_read_key (machine_agent_id : AgentId) (event : value) : Prop :=
  exists items,
    event = PDict items /\
    (assoc "data" items = None \/
     exists data,
       assoc "data" items = Some (PDict data) /\
       (assoc "Event" data = None \/
        assoc "Event" data = Some (PStr "Heartbeat") /\
        (assoc "MachineAgentId" data = None \/
         exists mid,
           assoc "MachineAgentId" data = Some mid /\
           equals_id mid machine_agent_id /\ assoc "age" items = None))).

(** An entry that lacks one of the three fields. *)
Definition lacks_field (event : value) : Prop :=
  exists items,
    event = PDict items /\
    (event_type event = None \/ event_agent event = None \/
     assoc "age" items = None).

Definition envelope (events : list value) : response :=
  Response 200 (Some (PDict [("events", PList events)])).
Definition bare (events : list value) : response :=
  Response 200 (Some (PList events)).

End Rse.

(** ** The wake coordinator: [cloudbackup/client/agents.py] *)

Module Agents.
Import Py.

(** How a simulated call ends: it returns, raises, waits for ever on a
    [join], or is cut off by the step bound of a [while] loop. *)
Inductive outcome (A : Type) :=
  | Done (a : A)
  | Raised (e : exn)
  | Blocked
  | OutOfFuel.
Arguments Done {A} a.
Arguments Raised {A} e.
Arguments Blocked {A}.
Arguments OutOfFuel {A}.

(** The surroundings of the client.  [heartbeat_config] stands for the result
    of [GetRseHeartbeatConfig], which [WakeSpecificAgent] calls and the class
    does not define in this revision. *)
Record world := World {
  clock : nat -> Z;                 (* k-th int(round(time.time() * 1000)) *)
  wake_status : nat -> Z;           (* status of the k-th POST wakeupagents *)
  rse_reply : nat -> Rse.response;  (* reply to the k-th RSE query *)
  heartbeat_config : AgentId -> value;
  signalled : nat -> bool           (* has some other thread set the notifier
                                       by the k-th is_set() of the task *)
}.

Inductive log_msg :=
  | DebugWakeAgent (code : Z)
  | DebugRseConfig
  | ErrorUnableToLocate (id : AgentId)
  | ErrorUnableToWake (code : Z)
  | DebugStarting (id : AgentId)
  | DebugTellingOnStop (id : AgentId)
  | DebugTellingOnDel (id : AgentId)
  | DebugWaiting (id : AgentId)
  | DebugDetectedTermination
  | DebugFailedToWake (id : AgentId)
  | DebugTerminating.

Inductive action :=
  | Post (code : Z)
  | Poll (id : AgentId) (r : result bool)
  | RseLog (m : Rse.log_msg)
  | EventSet (e : nat)
  | EventClear (e : nat)
  | ThreadStart (t : nat)
  | ThreadJoin (t : nat)
  | Sleep (seconds : Z)
  | Log (m : log_msg).

(** A [threading.Thread] running [_keep_agent_wake_thread_fn]. *)
Record thread := Thread {
  my_notifier : nat;
  agent_id : AgentId;
  rse_period : Q;
  alive : bool
}.

(** One dict of [self.wake_agent_threads]; a key that has not been assigned
    yet is [None]. *)
Record entry := Entry {
  id : AgentId;
  terminator : option nat;
  thread_of : option nat
}.

#[global] Instance entry_eq_dec : EqDecision entry.
Proof. solve_decision. Defined.

Record state := State {
  reads : nat;                      (* clock readings taken so far *)
  posts : nat;                      (* wake requests sent so far *)
  polls : nat;                      (* RSE queries sent so far *)
  checks : nat;                     (* is_set() calls of the task so far *)
  events_made : nat;                (* threading.Event objects created *)
  events_set : gset nat;            (* those whose flag is set *)
  threads : list thread;            (* Thread objects created *)
  wake_agent_threads : list entry;
  trace : list action
}.

Definition init : state := State 0 0 0 0 0 ∅ [] [] [].

Definition M (A : Type) : Type := state -> outcome A * state.

#[global] Instance M_ret : MRet M := fun A a s => (Done a, s).
#[global] Instance M_bind : MBind M := fun A B k m s =>
  match m s with
  | (Done a, s') => k a s'
  | (Raised e, s') => (Raised e, s')
  | (Blocked, s') => (Blocked, s')
  | (OutOfFuel, s') => (OutOfFuel, s')
  end.

Definition raise {A} (e : exn) : M A := fun s => (Raised e, s).
Definition block {A} : M A := fun s => (Blocked, s).
Definition out_of_fuel {A} : M A := fun s => (OutOfFuel, s).

Definition emit (a : action) : M unit := fun s =>
  (Done tt, State (reads s) (posts s) (polls s) (checks s) (events_made s)
              (events_set s) (threads s) (wake_agent_threads s)
              (trace s ++ [a])).
Definition log (m : log_msg) : M unit := emit (Log m).

Definition get_registry : M (list entry) := fun s =>
  (Done (wake_agent_threads s), s).
Definition put_registry (reg : list entry) : M unit := fun s =>
  (Done tt, State (reads s) (posts s) (polls s) (checks s) (events_made s)
              (events_set s) (threads s) reg (trace s)).

(** [threading.Event()]: a new object, flag clear. *)
Definition new_event : M nat := fun s =>
  (Done (events_made s),
   State (reads s) (posts s) (polls s) (checks s) (S (events_made s))
         (events_set s ∖ {[events_made s]}) (threads s)
         (wake_agent_threads s) (trace s)).

Definition put_flag (e : nat) (b : bool) : M unit := fun s =>
  (Done tt, State (reads s) (posts s) (polls s) (checks s) (events_made s)
              (if b then events_set s ∪ {[e]} else events_set s ∖ {[e]})
              (threads s) (wake_agent_threads s) (trace s)).
Definition get_flag (e : nat) : M bool := fun s =>
  (Done (bool_decide (e ∈ events_set s)), s).

Definition event_set (e : nat) : M unit :=
  put_flag e true;; emit (EventSet e).
Definition event_clear (e : nat) : M unit :=
  put_flag e false;; emit (EventClear e).

Definition new_thread (th : thread) : M nat := fun s =>
  (Done (length (threads s)),
   State (reads s) (posts s) (polls s) (checks s) (events_made s)
         (events_set s) (threads s ++ [th]) (wake_agent_threads s) (trace s)).

Definition get_thread (t : nat) : M (option thread) := fun s =>
  (Done (threads s !! t), s).

Definition retire (t : nat) : M unit := fun s =>
  (Done tt,
   State (reads s) (posts s) (polls s) (checks s) (events_made s)
         (events_set s)
         (alter (fun th => Thread (my_notifier th) (agent_id th)
                             (rse_period th) false) t (threads s))
         (wake_agent_threads s) (trace s)).

(** The task of thread [t] ends by an exception, as
    [_keep_agent_wake_thread_fn] does when a call it makes raises: the
    thread is no longer alive, and no flag is touched.  Nothing but [join]
    observes a thread, so it makes no difference to the caller whether the
    task dies before a call or while the call already waits in [join]:
    the step is taken between calls, and a thread that is [alive] at a
    [join] is one whose task ends by looking at its notifier. *)
Definition task_raises (t : nat) (s : state) : state := snd (retire t s).

(** [thread.join()] seen from the caller.  A thread whose task ends by an
    exception (see [task_raises]) is joined without its notifier being
    touched: a flag that was set stays set.  Any other task leaves its loop
    by finding its own notifier set, which it then clears (see
    [__check_notifier]); as long as the notifier is not set it keeps the
    caller waiting. *)
Definition join (t : nat) : M unit :=
  emit (ThreadJoin t);;
  th ← get_thread t;
  match th with
  | None => raise AttributeError
  | Some th =>
      if alive th then
        flagged ← get_flag (my_notifier th);
        if (flagged : bool) then
          event_clear (my_notifier th);; retire t
        else block
      else mret tt
  end.

(** [list.remove(x)]: drops the first element equal to [x]. *)
Fixpoint remove_first (x : entry) (l : list entry) : option (list entry) :=
  match l with
  | [] => None
  | y :: rest =>
      if decide (y = x) then Some rest
      else cons y <$> remove_first x rest
  end.

(** [a_thread['id'] == machine_agent_id]. *)
Definition has_id (machine_agent_id : AgentId) (a_thread : entry) : Prop :=
  id a_thread = machine_agent_id.

#[global] Instance has_id_dec i a : Decision (has_id i a).
Proof. unfold has_id. apply _. Defined.

Definition update_entry (i : nat) (f : entry -> entry) : M unit :=
  reg ← get_registry;
  put_registry (alter f i reg).

Section Calls.
Context (v : python) (w : world).

Definition now : M Z := fun s =>
  (Done (clock w (reads s)),
   State (S (reads s)) (posts s) (polls s) (checks s) (events_made s)
         (events_set s) (threads s) (wake_agent_threads s) (trace s)).

(** [Agents.WakeAgents]: the status code of the POST. *)
Definition WakeAgents : M Z := fun s =>
  let code := wake_status w (posts s) in
  (Done code,
   State (reads s) (S (posts s)) (polls s) (checks s) (events_made s)
         (events_set s) (threads s) (wake_agent_threads s)
         (trace s ++ [Post code; Log (DebugWakeAgent code)])).

(** A call of [rse.MonitorForHeartBeat] on the next reply of the channel. *)
Definition MonitorForHeartBeat (machine_agent_id : AgentId) : M bool := fun s =>
  let '(r, logged) :=
    Rse.MonitorForHeartBeat v machine_agent_id (rse_reply w (polls s)) in
  let s' :=
    State (reads s) (posts s) (S (polls s)) (checks s) (events_made s)
          (events_set s) (threads s) (wake_agent_threads s)
          (trace s ++ Poll machine_agent_id r :: map RseLog logged) in
  match r with
  | Ok b => (Done b, s')
  | Raise e => (Raised e, s')
  end.

(** [Agents.KeepAgentAwake].  The new dict is appended, so it is the last
    element of the list; the loop picks the first dict with the id. *)
Definition KeepAgentAwake (machine_agent_id : AgentId) (period : Q) : M unit :=
  reg ← get_registry;
  put_registry (reg ++ [Entry machine_agent_id None None]);;
  reg ← get_registry;
  match list_find (has_id machine_agent_id) reg with
  | None => mret tt
  | Some (i, _) =>
      log (DebugStarting machine_agent_id);;
      e ← new_event;
      update_entry i (fun a => Entry (id a) (Some e) (thread_of a));;
      reg ← get_registry;
      match last reg ≫= terminator with
      | None => raise KeyError
      | Some n =>
          t ← new_thread (Thread n machine_agent_id period true);
          update_entry i (fun a => Entry (id a) (terminator a) (Some t));;
          emit (ThreadStart t)
      end
  end.

(** [Agents.StopKeepAgentWake]. *)
Definition StopKeepAgentWake (machine_agent_id : AgentId) : M unit :=
  reg ← get_registry;
  match list_find (has_id machine_agent_id) reg with
  | None => mret tt
  | Some (_, a_thread) =>
      log (DebugTellingOnStop (id a_thread));;
      match terminator a_thread with
      | None => raise KeyError
      | Some e => event_set e
      end;;
      log (DebugWaiting (id a_thread));;
      match thread_of a_thread with
      | None => raise KeyError
      | Some t => join t
      end;;
      reg ← get_registry;
      match remove_first a_thread reg with
      | None => raise ValueError
      | Some reg' => put_registry reg'
      end
  end.

(** The two loops of [Agents.__del__], lines 737-739 and 742-744. *)
Fixpoint tell_all (l : list entry) : M unit :=
  match l with
  | [] => mret tt
  | a_thread :: rest =>
      log (DebugTellingOnDel (id a_thread));;
      match terminator a_thread with
      | None => raise KeyError
      | Some e => event_set e
      end;;
      tell_all rest
  end.

Fixpoint join_all (l : list entry) : M unit :=
  match l with
  | [] => mret tt
  | a_thread :: rest =>
      log (DebugWaiting (id a_thread));;
      match thread_of a_thread with
      | None => raise KeyError
      | Some t => join t
      end;;
      join_all rest
  end.

(** Lines 734-744 of [Agents.__del__]: what follows [del self.loglevel].
    The whole of [__del__] is [AgentsObject.__del__]. *)
Definition tell_then_join : M unit :=
  reg ← get_registry;
  tell_all reg;;
  reg ← get_registry;
  join_all reg.

(** [rse_heartbeat_config['Timeout']['RealTime'] / 1000] as the number it
    denotes.  A float quotient is kept exact. *)
Definition divide_by_1000 (x : value) : result Q :=
  match x with
  | PInt n =>
      Ok (match v with
          | Py2 => inject_Z (n / 1000)
          | Py3 => inject_Z n / 1000
          end)%Q
  | PBool b =>
      Ok (match v with
          | Py2 => 0
          | Py3 => (if b then 1 else 0) / 1000
          end)%Q
  | PFloat q => Ok (q / 1000)%Q
  | _ => Raise TypeError
  end.

(** Lines 795-806 of [WakeSpecificAgent]: the period when none is given. *)
Definition default_wake_period (machine_agent_id : AgentId) : M Q :=
  let rse_heartbeat_config := heartbeat_config w machine_agent_id in
  log DebugRseConfig;;
  match (timeouts ← subscript rse_heartbeat_config "Timeout";
         realtime ← subscript timeouts "RealTime";
         divide_by_1000 realtime) with
  | Raise e => raise e
  | Ok wake_period =>
      if Qltb 6 wake_period then mret (wake_period - 5)%Q
      else if Qltb 2 wake_period then mret (wake_period - 1)%Q
      else mret 70%Q
  end.

(** First loop of [WakeSpecificAgent]: yields [wokeall] and
    [wakeup_status_code]. *)
Fixpoint broadcast (fuel : nat) (finish_time : Z) (wakeup_status_code : Z)
  : M (bool * Z) :=
  match fuel with
  | O => out_of_fuel
  | S fuel' =>
      t ← now;
      if (t <? finish_time)%Z then
        code ← WakeAgents;
        if (code =? 200)%Z then mret (true, code)
        else broadcast fuel' finish_time code
      else mret (false, wakeup_status_code)
  end.

(** Second loop of [WakeSpecificAgent]: yields [woke_agent]. *)
Fixpoint verify (fuel : nat) (machine_agent_id : AgentId) (finish_time : Z)
  : M bool :=
  match fuel with
  | O => out_of_fuel
  | S fuel' =>
      t ← now;
      if (t <? finish_time)%Z then
        found ← MonitorForHeartBeat machine_agent_id;
        if (found : bool) then mret true
        else verify fuel' machine_agent_id finish_time
      else mret false
  end.

(** [Agents.WakeSpecificAgent]; [fuel] bounds the iterations of each loop. *)
Definition WakeSpecificAgent (fuel : nat) (machine_agent_id : AgentId)
    (timeoutMilliseconds : Z) (keep_agent_awake : bool)
    (wake_period : option Q) : M bool :=
  start_time ← now;
  '(wokeall, wakeup_status_code) ←
     broadcast fuel (start_time + timeoutMilliseconds) 0;
  if (wokeall : bool) then
    start_time ← now;
    woke_agent ← verify fuel machine_agent_id (start_time + timeoutMilliseconds);
    (if (woke_agent : bool) then mret tt
     else log (ErrorUnableToLocate machine_agent_id));;
    (if woke_agent && keep_agent_awake then
       period ← match wake_period with
                | None => default_wake_period machine_agent_id
                | Some p => mret p
                end;
       KeepAgentAwake machine_agent_id period
     else mret tt);;
    mret woke_agent
  else
    log (ErrorUnableToWake wakeup_status_code);;
    mret false.

(** [__check_notifier] of [_keep_agent_wake_thread_fn].  Between two looks at
    the notifier another thread may have set it. *)
Definition __check_notifier (notifier : nat) : M bool :=
  (fun s =>
     (Done tt,
      State (reads s) (posts s) (polls s) (S (checks s)) (events_made s)
            (if signalled w (checks s) then events_set s ∪ {[notifier]}
             else events_set s)
            (threads s) (wake_agent_threads s) (trace s)));;
  is_set ← get_flag notifier;
  if (is_set : bool) then
    event_clear notifier;;
    log DebugDetectedTermination;;
    mret false
  else mret true.

(** The wait of one period, looking at the notifier every second. *)
Fixpoint wait_period (fuel : nat) (notifier : nat) (finish_time : Q)
    (continue_loop : bool) : M bool :=
  match fuel with
  | O => out_of_fuel
  | S fuel' =>
      t ← now;
      if Qltb (inject_Z t) finish_time && continue_loop then
        continue_loop' ← __check_notifier notifier;
        emit (Sleep 1);;
        wait_period fuel' notifier finish_time continue_loop'
      else mret continue_loop
  end.

(** The outer [while continue_loop] of [_keep_agent_wake_thread_fn]. *)
Fixpoint keep_awake_loop (fuel : nat) (notifier : nat) (agent : AgentId)
    (period : Q) : M unit :=
  match fuel with
  | O => out_of_fuel
  | S fuel' =>
      continue_loop ← __check_notifier notifier;
      if (continue_loop : bool) then
        woke ← WakeSpecificAgent fuel' agent 10000 false None;
        continue_loop' ←
          (if (woke : bool) then
             start_time ← now;
             wait_period fuel' notifier (inject_Z start_time + period)%Q true
           else
             log (DebugFailedToWake agent);; mret true);
        if (continue_loop' : bool)
        then keep_awake_loop fuel' notifier agent period
        else mret tt
      else mret tt
  end.

(** [_keep_agent_wake_thread_fn]: the task builds its own [Agents] and [Rse]
    objects, so only the notifier is shared with its creator. *)
Definition _keep_agent_wake_thread_fn (fuel : nat) (notifier : nat)
    (agent : AgentId) (period : Q) : M unit :=
  keep_awake_loop fuel notifier agent period;;
  log DebugTerminating.

(** The calls a client makes on an [Agents] object, and the states such an
    object is in after calls that returned; between two calls the task of
    a thread that is alive may end by an exception. *)
Inductive call :=
  | CallWakeSpecificAgent (fuel : nat) (machine_agent_id : AgentId)
      (timeoutMilliseconds : Z) (keep_agent_awake : bool)
      (wake_period : option Q)
  | CallKeepAgentAwake (machine_agent_id : AgentId) (period : Q)
  | CallStopKeepAgentWake (machine_agent_id : AgentId).

Definition returns (c : call) (s s' : state) : Prop :=
  match c with
  | CallWakeSpecificAgent fuel i timeout keep period =>
      exists b, WakeSpecificAgent fuel i timeout keep period s = (Done b, s')
  | CallKeepAgentAwake i period => KeepAgentAwake i period s = (Done tt, s')
  | CallStopKeepAgentWake i => StopKeepAgentWake i s = (Done tt, s')
  end.

Inductive reachable : state -> Prop :=
  | reachable_init : reachable init
  | reachable_call s c s' : reachable s -> returns c s s' -> reachable s'
  | reachable_task_raises s t th :
      reachable s -> threads s !! t = Some th -> alive th = true ->
      reachable (task_raises t s).

End Calls.

(** *** Relations between states used in the statements *)

Definition is_poll (a : action) : bool :=
  match a with
  | Poll _ _ => true
  | _ => false
  end.

(** [s'] follows [s] without any call of the heartbeat monitor and without a
    change of the task registry. *)
Definition no_monitor_call (s s' : state) : Prop :=
  polls s' = polls s /\
  wake_agent_threads s' = wake_agent_threads s /\
  exists added,
    trace s' = (trace s ++ added)%list /\ Forall (fun a => is_poll a = false) added.

(** [s'] has the tasks of [s]: same threads, same registry, same events. *)
Definition same_tasks (s s' : state) : Prop :=
  threads s' = threads s /\ wake_agent_threads s' = wake_agent_threads s /\
  events_made s' = events_made s /\ events_set s' = events_set s.

Definition is_set_action (a : action) : bool :=
  match a with
  | EventSet _ => true
  | _ => false
  end.

Definition is_join_action (a : action) : bool :=
  match a with
  | ThreadJoin _ => true
  | _ => false
  end.

(** An entry made by a start that returned: it holds a notifier and a thread,
    and the thread watches that notifier. *)
Definition task_of (s : state) (a : entry) : Prop :=
  exists e t th,
    terminator a = Some e /\ thread_of a = Some t /\
    threads s !! t = Some th /\ my_notifier th = e /\
    (e < events_made s)%nat.

Definition registry_ok (s : state) : Prop :=
  Forall (task_of s) (wake_agent_threads s) /\
  NoDup (terminator <$> wake_agent_threads s).

(** [s'] has the events and the registry of [s], and its threads are those of
    [s], some of which may have ended. *)
Definition threads_kept (s s' : state) : Prop :=
  events_made s' = events_made s /\
  forall t th, threads s !! t = Some th ->
    exists th', threads s' !! t = Some th' /\
                my_notifier th' = my_notifier th /\
                (alive th = false -> alive th' = false).

(** [s'] has the trace of [s] and possibly more. *)
Definition grows (s s' : state) : Prop :=
  exists added, trace s' = (trace s ++ added)%list.

(** [s'] has the trace of [s] followed by actions that satisfy [P]. *)
Definition extends (P : action -> Prop) (s s' : state) : Prop :=
  exists added, trace s' = (trace s ++ added)%list /\ Forall P added.

End Agents.

(** ** Saved log levels: [AgentLogLevel] of [cloudbackup/client/agents.py] *)

Module AgentLogLevel.
Import Py.

Record world := World {
  get_reply : nat -> Z * string;   (* status and text of the k-th GET *)
  put_status : nat -> Z            (* status of the k-th PUT *)
}.

Inductive log_msg :=
  | ErrorUnableToRetrieve (id : AgentId) (code : Z)
  | ErrorUnableToSet (code : Z)
  | InfoRestored (id : AgentId) (level : string)
  | ErrorResetting (id : AgentId) (level : string)
  | ErrorRootLevel (id : AgentId)
  | ErrorNoStack (id : AgentId).

Record state := State {
  loglevel : gmap AgentId (list string);
  gets : nat;
  puts : nat;
  trace : list log_msg
}.

Definition M (A : Type) : Type := state -> result A * state.

Fixpoint remove_quotes (s : string) : string :=
  match s with
  | EmptyString => EmptyString
  | String c rest =>
      if Ascii.eqb c (Ascii.ascii_of_nat 34) then remove_quotes rest
      else String c (remove_quotes rest)
  end.

(** [level in ('Fatal', ..., 'All', 1, ..., 7)]. *)
Definition valid_level (level : value) : bool :=
  existsb (eq_str level)
    ["Fatal"; "Error"; "Warn"; "Info"; "Debug"; "Trace"; "All"]
  || match num_value level with
     | Some q => existsb (fun n => Qeq_bool q (inject_Z n)) [1; 2; 3; 4; 5; 6; 7]
     | None => false
     end.

Section Calls.
Context (w : world).

Definition GetLogLevel (machine_agent_id : AgentId) : M string := fun s =>
  let '(code, text) := get_reply w (gets s) in
  if (code =? 200)%Z then
    (Ok (remove_quotes text),
     State (loglevel s) (S (gets s)) (puts s) (trace s))
  else
    (Ok EmptyString,
     State (loglevel s) (S (gets s)) (puts s)
           (trace s ++ [ErrorUnableToRetrieve machine_agent_id code])).

Definition SetLogLevel (machine_agent_id : AgentId) (level : value) : M bool :=
  fun s =>
  if negb (valid_level level) then (Raise ValueError, s)
  else
    let code := put_status w (puts s) in
    if (code =? 204)%Z then
      (Ok true, State (loglevel s) (gets s) (S (puts s)) (trace s))
    else
      (Ok false,
       State (loglevel s) (gets s) (S (puts s))
             (trace s ++ [ErrorUnableToSet code])).

Definition PushLogLevel (machine_agent_id : AgentId) (level : value) : M unit :=
  fun s =>
  let stacks :=
    match loglevel s !! machine_agent_id with
    | None => <[machine_agent_id := []]> (loglevel s)
    | Some _ => loglevel s
    end in
  match GetLogLevel machine_agent_id
          (State stacks (gets s) (puts s) (trace s)) with
  | (Raise e, s1) => (Raise e, s1)
  | (Ok current, s1) =>
      let s2 :=
        State (alter (fun stack => app stack [current]) machine_agent_id
                 (loglevel s1))
              (gets s1) (puts s1) (trace s1) in
      match SetLogLevel machine_agent_id level s2 with
      | (Raise e, s3) => (Raise e, s3)
      | (Ok _, s3) => (Ok tt, s3)
      end
  end.

Definition HasLogLevels (machine_agent_id : AgentId) (s : state) : bool :=
  match loglevel s !! machine_agent_id with
  | Some stack => negb (length stack =? 0)%nat
  | None => false
  end.

Definition log (m : log_msg) (s : state) : state :=
  State (loglevel s) (gets s) (puts s) (trace s ++ [m]).

(** [AgentLogLevel.PopLogLevel]. *)
Definition PopLogLevel (machine_agent_id : AgentId) : M unit := fun s =>
  match loglevel s !! machine_agent_id with
  | Some stack =>
      if negb (length stack =? 0)%nat then
        let index := (length stack - 1)%nat in
        match stack !! index with
        | None => (Raise IndexError, s)
        | Some level =>
            match SetLogLevel machine_agent_id (PStr level) s with
            | (Raise e, s1) => (Raise e, s1)
            | (Ok true, s1) =>
                (Ok tt,
                 log (InfoRestored machine_agent_id level)
                   (State (<[machine_agent_id := delete index stack]>
                             (loglevel s1))
                          (gets s1) (puts s1) (trace s1)))
            | (Ok false, s1) =>
                (Ok tt, log (ErrorResetting machine_agent_id level) s1)
            end
        end
      else (Ok tt, log (ErrorRootLevel machine_agent_id) s)
  | None => (Ok tt, log (ErrorNoStack machine_agent_id) s)
  end.

End Calls.

End AgentLogLevel.

(** ** Two surroundings to run the calls in *)

Module Scenario.
Import Py.

(** Every reading of the clock is one second after the previous one. *)
Definition ticking (k : nat) : Z := 1000 * Z.of_nat k.

Definition heartbeat_of_42 : Rse.response :=
  Rse.envelope [Rse.heartbeat_event "Heartbeat" (PInt 42) (PInt 3)].

Definition config (realtime : Z) : value :=
  PDict [("Timeout", PDict [("RealTime", PInt realtime)])].

(** The service never acknowledges a wake request. *)
Definition unanswered : Agents.world :=
  Agents.World ticking (fun _ => 503) (fun _ => Rse.envelope [])
    (fun _ => config 75000) (fun _ => false).

(** The service acknowledges, agent 42 sends heartbeats, and the notifier of
    the task is set after its first look at it. *)
Definition awake : Agents.world :=
  Agents.World ticking (fun _ => 200) (fun _ => heartbeat_of_42)
    (fun _ => config 75000) (fun k => bool_decide (1 <= k)%nat).

(** The service accepts every change of the log level. *)
Definition obliging : AgentLogLevel.world :=
  AgentLogLevel.World (fun _ => (200, "Warn")) (fun _ => 204).

End Scenario.

(** ** Further notions used in the statements about the wake coordinator *)

Module AgentsNotions.
Import Py Agents.

(** [s'] has the threads, the registry and the events of [s]; flags of
    events may differ. *)
Definition same_registry (s s' : state) : Prop :=
  threads s' = threads s /\ wake_agent_threads s' = wake_agent_threads s /\
  events_made s' = events_made s.

(** Every reading of the clock is later than the one before. *)
Definition advancing (w : world) : Prop :=
  forall k, clock w k < clock w (S k).

(** A registry as calls that returned leave it: every entry holds a
    notifier and the thread that watches it, and no two entries have the
    same notifier or the same agent id. *)
Definition healthy (s : state) : Prop :=
  registry_ok s /\ NoDup (id <$> wake_agent_threads s).

(** The call came to an end by itself: it returned or raised. *)
Definition ended {A} (o : outcome A) : Prop :=
  match o with
  | Done _ | Raised _ => True
  | Blocked | OutOfFuel => False
  end.

End AgentsNotions.

(** ** More of [AgentLogLevel] *)

Module AgentLogLevelMore.
Import Py AgentLogLevel.

(** The dict [levels] of [SetLogLevel]. *)
Definition levels : list (string * Z) :=
  [("Fatal", 1); ("Error", 2); ("Warn", 3); ("Info", 4); ("Debug", 5);
   ("Trace", 6); ("All", 7)].

Fixpoint level_number (name : string) (table : list (string * Z)) : option Z :=
  match table with
  | [] => None
  | (k, n) :: rest => if String.eqb name k then Some n else level_number name rest
  end.

(** Lines 203-206 of [SetLogLevel]: the value sent as ["LoggingLevelid"].
    [level in levels] hashes [level]; a number is never equal to one of the
    keys, which are strings. *)
Definition LoggingLevelid (level : value) : result value :=
  match level with
  | PStr name =>
      match level_number name levels with
      | Some n => Ok (PInt n)
      | None => Ok level
      end
  | PList _ | PDict _ => Raise TypeError
  | _ => Ok level
  end.

(** How [AgentLogLevel.__del__] ends: every stack was walked through, an
    exception ended the walk (and was swallowed), or the step bound of a
    [while] loop was reached. *)
Inductive unwinding :=
  | Restored (s : state)
  | Aborted (s : state)
  | Unfinished.

Section Calls.
Context (w : world).

(** [while self.HasLogLevels(machine_agent): self.PopLogLevel(machine_agent)] *)
Fixpoint pop_while (fuel : nat) (machine_agent : AgentId) (s : state)
  : unwinding :=
  match fuel with
  | O => Unfinished
  | S fuel' =>
      if HasLogLevels machine_agent s then
        match PopLogLevel w machine_agent s with
        | (Ok _, s') => pop_while fuel' machine_agent s'
        | (Raise _, s') => Aborted s'
        end
      else Restored s
  end.

Fixpoint pop_each (fuel : nat) (agents : list AgentId) (s : state)
  : unwinding :=
  match agents with
  | [] => Restored s
  | machine_agent :: rest =>
      match pop_while fuel machine_agent s with
      | Restored s' => pop_each fuel rest s'
      | other => other
      end
  end.

(** [AgentLogLevel.__del__]; the keys come in the order of the dict. *)
Definition __del__ (fuel : nat) (s : state) : unwinding :=
  if negb (size (loglevel s) =? 0)%nat
  then pop_each fuel (fst <$> map_to_list (loglevel s)) s
  else Restored s.

End Calls.

(** The stack of saved levels of an agent, empty when it has none. *)
Definition saved (i : AgentId) (s : state) : list string :=
  default [] (loglevel s !! i).

(** Every saved level of every agent is one [SetLogLevel] accepts. *)
Definition all_levels_valid (s : state) : Prop :=
  forall i stack level,
    loglevel s !! i = Some stack -> level ∈ stack ->
    valid_level (PStr level) = true.

End AgentLogLevelMore.

(** ** The whole [Agents] object and its teardown *)

Module AgentsObject.
Import Py.

(** An [Agents] object: the state of its tasks and the [AgentLogLevel]
    object it created as [self.loglevel].  [loglevel_shared] tells whether
    something else still refers to that object. *)
Record object := Object {
  tasks : Agents.state;
  loglevel : AgentLogLevel.state;
  loglevel_shared : bool
}.

(** [Agents.__del__].  [del self.loglevel] drops the reference to the
    [AgentLogLevel] object; when it was the last one, that object is
    destroyed on the spot and its own [__del__] runs first, whose
    exceptions are swallowed and whose loops may not come to an end. *)
Definition __del__ (lw : AgentLogLevel.world) (fuel : nat) (o : object)
  : Agents.outcome unit * object :=
  if loglevel_shared o then
    let '(r, t) := Agents.tell_then_join (tasks o) in
    (r, Object t (loglevel o) true)
  else
    match AgentLogLevelMore.__del__ lw fuel (loglevel o) with
    | AgentLogLevelMore.Unfinished => (Agents.OutOfFuel, o)
    | AgentLogLevelMore.Restored l | AgentLogLevelMore.Aborted l =>
        let '(r, t) := Agents.tell_then_join (tasks o) in
        (r, Object t l false)
    end.

End AgentsObject.

(** ** Backups: [rcbu/client/backup.py] *)

Module Backup.
Import Py.

(** What a call can raise: an exception of Python, or the [HTTPError] of
    [resp.raise_for_status()]. *)
Inductive failure :=
  | Error (e : exn)
  | HTTPError (status : Z).

Inductive outcome (A : Type) :=
  | Returns (a : A)
  | Raises (f : failure)
  | OutOfFuel.
Arguments Returns {A} a.
Arguments Raises {A} f.
Arguments OutOfFuel {A}.

(** [resp.raise_for_status()] raises for the status codes 400 to 599. *)
Definition is_error_status (code : Z) : bool :=
  (400 <=? code)%Z && (code <? 600)%Z.

(** [x.id] for a decoded JSON value [x]: none of [None], [bool], [int],
    [float], [str], [list] and [dict] has an attribute [id]. *)
Definition attribute_id (x : value) : result value := Raise AttributeError.

(** [_args_from_dict]: the dict display is evaluated from left to right. *)
Definition _args_from_dict (body : value) : result value :=
  config_id ← subscript body "BackupConfigurationId";
  state ← subscript body "CurrentState";
  agent_id ← subscript body "MachineAgentId";
  machine_name ← subscript body "MachineName";
  key ← subscript body "EncryptionKey";
  modulus ← subscript key "ModulusHex";
  key' ← subscript body "EncryptionKey";
  exponent ← subscript key' "ExponentHex";
  Ok (PDict [("_config_id", config_id); ("_state", state);
             ("_agent_id", agent_id); ("_machine_name", machine_name);
             ("_key", PDict [("modulus_hex", modulus);
                             ("exponent_hex", exponent)])]).

(** [Backup.__init__] as [from_dict] calls it: [config] is
    [body['BackupId']], [connection] is the dict of arguments, and there are
    no keyword arguments.  Its first statement reads [config.id]. *)
Definition __init__ (config connection : value) : result value :=
  config_id ← attribute_id config;
  Ok (PDict [("_config_id", config_id); ("_connection", connection)]).

(** [from_dict]: the arguments are evaluated before the call. *)
Definition from_dict (body : value) : result value :=
  backup_id ← subscript body "BackupId";
  args ← _args_from_dict body;
  __init__ backup_id args.

(** [Backup.running]. *)
Definition running (_state : value) : bool :=
  existsb (eq_str _state) ["Queued"; "Preparing"; "InProgress"].

(** The test of [Backup._is_done] on the state of the report. *)
Definition is_final (report_state : value) : bool :=
  existsb (eq_str report_state)
    ["Completed"; "CompletedWithErrors"; "Failed"; "Stopped"; "Skipped";
     "Missed"].

(** The service as a backup sees it.  [backup_report.from_dict] is not part
    of the sources: [report_reply] gives the status of the k-th report
    request and what [backup_report.from_dict(resp.json())] makes of it,
    the [_state] of the report or an exception. *)
Record world := World {
  post_reply : nat -> Z * result Z;  (* status; what int(resp.content) gives *)
  report_reply : nat -> Z * result value
}.

(** A [Backup] object whose connection is set and whose [_config_id] is a
    value that [json.dumps] accepts. *)
Record backup := Make {
  _config_id : value;
  _state : option value;
  _backup_id : option Z
}.

Record state := State {
  this : backup;
  posts : nat;                  (* POSTs sent so far *)
  reports : nat;                (* report requests sent so far *)
  slept : Z                     (* seconds spent in time.sleep *)
}.

Definition M (A : Type) : Type := state -> outcome A * state.

Section Calls.
Context (w : world).

(** [Backup._action(starting=True)]: the id sent is [self._config_id]. *)
Definition start_action : M (result Z) := fun s =>
  let '(code, content) := post_reply w (posts s) in
  let s1 := State (this s) (S (posts s)) (reports s) (slept s) in
  if is_error_status code then (Raises (HTTPError code), s1)
  else
    (Returns content,
     State (Make (_config_id (this s)) (Some (PStr "Preparing"))
              (_backup_id (this s)))
           (S (posts s)) (reports s) (slept s)).

(** [Backup.start]: returns the id the [Status] object is built with. *)
Definition start : M Z := fun s =>
  match start_action s with
  | (Returns content, s1) =>
      match content with
      | Raise e => (Raises (Error e), s1)
      | Ok n =>
          (Returns n,
           State (Make (_config_id (this s1)) (_state (this s1)) (Some n))
                 (posts s1) (reports s1) (slept s1 + 15))
      end
  | (Raises f, s1) => (Raises f, s1)
  | (OutOfFuel, s1) => (OutOfFuel, s1)
  end.

(** [Backup.id]: [getattr(self, '_backup_id', 0)]. *)
Definition id (b : backup) : Z := default 0 (_backup_id b).

(** [Backup._is_done]: one report request. *)
Definition _is_done : M bool := fun s =>
  let '(code, report) := report_reply w (reports s) in
  let s1 := State (this s) (posts s) (S (reports s)) (slept s) in
  if is_error_status code then (Raises (HTTPError code), s1)
  else
    match report with
    | Ok report_state => (Returns (is_final report_state), s1)
    | Raise e => (Raises (Error e), s1)
    end.

(** [Backup.wait_for_completion]. *)
Fixpoint wait_for_completion (fuel : nat) (poll_interval_seconds : Z)
  : M unit := fun s =>
  match fuel with
  | O => (OutOfFuel, s)
  | S fuel' =>
      match _is_done s with
      | (Returns true, s1) => (Returns tt, s1)
      | (Returns false, s1) =>
          wait_for_completion fuel' poll_interval_seconds
            (State (this s1) (posts s1) (reports s1)
               (slept s1 + poll_interval_seconds))
      | (Raises f, s1) => (Raises f, s1)
      | (OutOfFuel, s1) => (OutOfFuel, s1)
      end
  end.

(** The next [n] reports are delivered, and none of them is final. *)
Definition reports_pending (s : state) (n : nat) : Prop :=
  forall k, (k < n)%nat ->
    exists code report_state,
      report_reply w (reports s + k) = (code, Ok report_state) /\
      is_error_status code = false /\ is_final report_state = false.

End Calls.

End Backup.

(** ** More of Python's values *)

Module PyMore.
Import Py.

(** [x == y] on decoded JSON: numbers compare by value ([bool] is a number),
    strings and lists by content, dicts as mappings; values of different
    kinds are unequal. *)
Fixpoint py_eq (x y : value) : bool :=
  match x, y with
  | PNone, PNone => true
  | PStr a, PStr b => String.eqb a b
  | PList a, PList b =>
      (fix all2 (a b : list value) : bool :=
         match a, b with
         | [], [] => true
         | x' :: a', y' :: b' => py_eq x' y' && all2 a' b'
         | _, _ => false
         end) a b
  | PDict a, PDict b =>
      (length a =? length b)%nat &&
      (fix all (a : list (string * value)) : bool :=
         match a with
         | [] => true
         | (k, x') :: a' =>
             match assoc k b with
             | Some y' => py_eq x' y'
             | None => false
             end && all a'
         end) a
  | _, _ =>
      match num_value x, num_value y with
      | Some p, Some q => Qeq_bool p q
      | _, _ => false
      end
  end.

(** [x[0]]: the keys of a decoded object are strings, so [0] is never one. *)
Definition item0 (x : value) : result value :=
  match x with
  | PList [] => Raise IndexError
  | PList (a :: _) => Ok a
  | PStr EmptyString => Raise IndexError
  | PStr (String c _) => Ok (PStr (String c EmptyString))
  | PDict _ => Raise KeyError
  | _ => Raise TypeError
  end.

(** ['...' + x] for a string literal on the left. *)
Definition str_add (literal : string) (x : value) : result string :=
  match x with
  | PStr t => Ok (String.append literal t)
  | _ => Raise TypeError
  end.

(** [t[n:]]. *)
Fixpoint string_from (n : nat) (t : string) : string :=
  match n, t with
  | O, _ => t
  | S n', String _ rest => string_from n' rest
  | S _, EmptyString => EmptyString
  end.

End PyMore.

(** ** Agent details: [AgentDetails] of [cloudbackup/client/agents.py] *)

Module AgentDetails.
Import Py.

Definition required : list string :=
  ["MachineAgentId"; "AgentVersion"; "Architecture"; "Flavor";
   "BackupVaultSize"; "CleanupAllowed"; "Datacenter"; "IPAddress";
   "IsDisabled"; "IsEncrypted"; "MachineName"; "OperatingSystem";
   "OperatingSystemVersion"; "PublicKey"; "Status";
   "TimeOfLastSuccessfulBackup"; "UseServiceNet"; "HostServerId"].

(** [for prop in (...): details[prop]]. *)
Fixpoint check (details : value) (props : list string) : result unit :=
  match props with
  | [] => Ok tt
  | prop :: rest => _ ← subscript details prop; check details rest
  end.

(** [AgentDetails.__init__]: the object is its [_details]. *)
Definition __init__ (details : value) : result value :=
  _ ← check details required; Ok details.

(** The accessors [agent_id], [AgentVersion], ..., [HostServerId]: each
    returns [self._details[key]] for its key. *)
Definition accessor (key : string) (_details : value) : result value :=
  subscript _details key.

End AgentDetails.

(** ** Agent configuration: [AgentConfiguration] of
    [cloudbackup/client/agents.py] *)

Module AgentConfiguration.
Import Py PyMore.

Inductive log_msg :=
  | DebugVaultDbContainer (container : string)
  | DebugVaultDbPath (path : string)
  | ErrorVolumeUri.

(** [AgentConfiguration.__init__]: the loop over the expected keys is
    [pass]; the object is its [_configuration]. *)
Definition __init__ (configuration : value) : value := configuration.

Definition Volumes (cfg : value) : result value := subscript cfg "Volumes".

Definition BackupConfigurations (cfg : value) : result value :=
  subscript cfg "BackupConfigurations".

(** The loop of [GetBackupConfigurationById] and
    [GetBackupConfigurationByName]: [backupconf] starts as [{}] and the
    first match breaks out. *)
Fixpoint first_match (key : string) (wanted : value) (l : list value)
  : result value :=
  match l with
  | [] => Ok (PDict [])
  | backupconfig :: rest =>
      x ← subscript backupconfig key;
      if py_eq x wanted then Ok backupconfig else first_match key wanted rest
  end.

Definition GetBackupConfigurationById (cfg backup_id : value)
  : result value :=
  confs ← BackupConfigurations cfg;
  l ← iterate confs;
  first_match "Id" backup_id l.

Definition GetBackupConfigurationByName (cfg backup_name : value)
  : result value :=
  confs ← BackupConfigurations cfg;
  l ← iterate confs;
  first_match "Name" backup_name l.

(** The loop over the volumes in [GetVaultDbPath]: no [break], every match
    overwrites [vaultvolume]. *)
Fixpoint last_match (volumeuri : value) (l : list value)
    (vaultvolume : value) : result value :=
  match l with
  | [] => Ok vaultvolume
  | volume :: rest =>
      x ← subscript volume "Uri";
      last_match volumeuri rest
        (if py_eq x volumeuri then volume else vaultvolume)
  end.

(** The body of the [try] of [GetVaultDbPath]. *)
Definition vault_db_path (cfg backup_name : value) : result string :=
  vaultvolume ←
    match backup_name with
    | PNone => vols ← Volumes cfg; item0 vols
    | _ =>
        backupconfig ← GetBackupConfigurationByName cfg backup_name;
        volumeuri ← subscript backupconfig "VolumeUri";
        vols ← Volumes cfg;
        l ← iterate vols;
        last_match volumeuri l (PDict [])
    end;
  vault_id ← subscript vaultvolume "BackupVaultId";
  str_add "BACKUPS/v2.0/" vault_id.

(** [GetVaultDbPath]: what is returned or raised, and what is logged. *)
Definition GetVaultDbPath (cfg backup_name : value)
  : result string * list log_msg :=
  match vault_db_path cfg backup_name with
  | Ok path => (Ok path, [DebugVaultDbPath path])
  | Raise e =>
      if is_LookupError e then (Ok EmptyString, [ErrorVolumeUri])
      else (Raise e, [])
  end.

(** [GetVaultDbContainer]: no [try] here. *)
Definition GetVaultDbContainer (cfg backup_name : value)
  : result string * list log_msg :=
  let container :=
    match backup_name with
    | PNone =>
        vols ← Volumes cfg; volume ← item0 vols; subscript volume "Uri"
    | _ =>
        backupconfig ← GetBackupConfigurationByName cfg backup_name;
        subscript backupconfig "VolumeUri"
    end in
  match container with
  | Ok (PStr t) => (Ok (string_from 6 t), [DebugVaultDbContainer t])
  | Ok _ => (Raise TypeError, [])
  | Raise e => (Raise e, [])
  end.

End AgentConfiguration.

(** ** Details, configurations and removal: more of [Agents] *)

Module AgentsApi.
Import Py.

Inductive failure :=
  | Error (e : exn)
  | AgentDetailsNotAvailable
  | AgentConfigurationNotAvailable.

Inductive outcome (A : Type) :=
  | Returns (a : A)
  | Raises (f : failure).
Arguments Returns {A} a.
Arguments Raises {A} f.

Inductive request :=
  | GetDetails (machine_agent_id : AgentId)
  | GetConfiguration (machine_agent_id : AgentId)
  | PostDelete (machine_agent_id : value).

(** The service: the reply to the k-th request of the object. *)
Record world := World {
  reply : nat -> Rse.response
}.

Record state := State {
  agents : gmap AgentId value;          (* self.agents *)
  configurations : gmap AgentId value;  (* self.configurations *)
  sent : list request                   (* requests so far, oldest first *)
}.

Definition init : state := State ∅ ∅ [].

Definition M (A : Type) : Type := state -> outcome A * state.

Section Calls.
Context (w : world).

(** [Agents.GetAgentDetails]: [self.agents = {}] comes first. *)
Definition GetAgentDetails (machine_agent_id : AgentId) : M bool := fun s =>
  let res := reply w (length (sent s)) in
  let s1 := State ∅ (configurations s)
              (app (sent s) [GetDetails machine_agent_id]) in
  if (Rse.status_code res =? 200)%Z then
    match Rse.json_body res with
    | None => (Raises (Error ValueError), s1)
    | Some body =>
        match AgentDetails.__init__ body with
        | Ok details =>
            (Returns true,
             State (<[machine_agent_id := details]> (agents s1))
                   (configurations s1) (sent s1))
        | Raise e => (Raises (Error e), s1)
        end
    end
  else (Returns false, s1).

(** [Agents.GetAgentIds]. *)
Definition GetAgentIds (s : state) : list AgentId :=
  fst <$> map_to_list (agents s).

(** [Agents.AgentDetails]. *)
Definition AgentDetails (machine_agent_id : AgentId) : M value := fun s =>
  match agents s !! machine_agent_id with
  | Some details => (Returns details, s)
  | None => (Raises AgentDetailsNotAvailable, s)
  end.

(** [Agents.GetAgentConfiguration]. *)
Definition GetAgentConfiguration (machine_agent_id : AgentId) : M bool :=
  fun s =>
  let res := reply w (length (sent s)) in
  let s1 := State (agents s) (configurations s)
              (app (sent s) [GetConfiguration machine_agent_id]) in
  if (Rse.status_code res =? 200)%Z then
    match Rse.json_body res with
    | None => (Raises (Error ValueError), s1)
    | Some body =>
        (Returns true,
         State (agents s1)
               (<[machine_agent_id := AgentConfiguration.__init__ body]>
                  (configurations s1))
               (sent s1))
    end
  else (Returns false, s1).

(** [Agents.AgentConfiguration]. *)
Definition AgentConfiguration (machine_agent_id : AgentId) : M value :=
  fun s =>
  match configurations s !! machine_agent_id with
  | Some configuration => (Returns configuration, s)
  | None => (Raises AgentConfigurationNotAvailable, s)
  end.

(** [Agents.RemoveAgent]. *)
Definition RemoveAgent (machine_agent_id : value) : M bool := fun s =>
  let res := reply w (length (sent s)) in
  (Returns (Rse.status_code res =? 204)%Z,
   State (agents s) (configurations s)
         (app (sent s) [PostDelete machine_agent_id])).

(** The loop of [Agents.RemoveAllAgentsForHost]. *)
Fixpoint remove_each (agent_list : list value) (agents_removed : list value)
  : M (list value) := fun s =>
  match agent_list with
  | [] => (Returns agents_removed, s)
  | agent :: rest =>
      match subscript agent "MachineAgentId" with
      | Raise e => (Raises (Error e), s)
      | Ok machine_agent_id =>
          match RemoveAgent machine_agent_id s with
          | (Returns true, s1) =>
              remove_each rest (app agents_removed [machine_agent_id]) s1
          | (Returns false, s1) => remove_each rest agents_removed s1
          | (Raises f, s1) => (Raises f, s1)
          end
      end
  end.

Definition RemoveAllAgentsForHost (agent_list : list value)
  : M (list value) :=
  remove_each agent_list [].

End Calls.

End AgentsApi.

(** ** Further surroundings to run the calls in *)

Module Surroundings.
Import Py.

(** The first wake request is not acknowledged, the second is; the third
    query of the event channel is the first with a heartbeat of agent 42. *)
Definition late : Agents.world :=
  Agents.World Scenario.ticking
    (fun k => if (k <? 1)%nat then 503 else 200)
    (fun k => if (k <? 2)%nat then Rse.envelope []
              else Scenario.heartbeat_of_42)
    (fun _ => Scenario.config 75000) (fun _ => false).

(** The service refuses every change of the log level. *)
Definition refusing : AgentLogLevel.world :=
  AgentLogLevel.World (fun _ => (200, "Warn")) (fun _ => 500).

(** The service does not tell the log level, and accepts every change. *)
Definition silent : AgentLogLevel.world :=
  AgentLogLevel.World (fun _ => (404, "Not Found")) (fun _ => 204).

(** A backup that is accepted and is reported as finished by the third
    report; the reply to the start request is not a number. *)
Definition finishing : Backup.world :=
  Backup.World (fun _ => (200, Raise ValueError))
    (fun k => if (k <? 2)%nat then (200, Ok (PStr "InProgress"))
              else (200, Ok (PStr "Completed"))).

(** The second report request fails. *)
Definition failing : Backup.world :=
  Backup.World (fun _ => (503, Raise ValueError))
    (fun k => if (k <? 1)%nat then (200, Ok (PStr "InProgress"))
              else (500, Raise ValueError)).

(** A backup that stays in progress. *)
Definition stuck : Backup.world :=
  Backup.World (fun _ => (200, Ok 7))
    (fun _ => (200, Ok (PStr "InProgress"))).

Definition fresh_backup : Backup.state :=
  Backup.State (Backup.Make (PInt 12) None None) 0 0 0.

(** Details with every property, for the agent [n]. *)
Definition details_of (n : Z) : value :=
  PDict (("MachineAgentId", PInt n)
         :: map (fun key => (key, PNone)) (tail AgentDetails.required)).

(** The service answers the first request with the details of agent 1, the
    second with an error, every later one with 204. *)
Definition service : AgentsApi.world :=
  AgentsApi.World (fun k =>
    match k with
    | O => Rse.Response 200 (Some (details_of 1))
    | S O => Rse.Response 500 None
    | _ => Rse.Response 204 None
    end).


(** The event channel answers with an object that is no list of events. *)
Definition foreign : Agents.world :=
  Agents.World Scenario.ticking (fun _ => 200)
    (fun _ => Rse.Response 200 (Some (PDict [("error", PStr "busy")])))
    (fun _ => Scenario.config 75000) (fun _ => false).

(** An [Agents] object with two tasks and one saved log level. *)
Definition two_tasks : AgentsObject.object :=
  AgentsObject.Object
    (snd (Agents.KeepAgentAwake (IdInt 2) 70
            (snd (Agents.KeepAgentAwake (IdInt 1) 70 Agents.init))))
    (AgentLogLevel.State {[IdInt 1 := ["Info"]]} 0 0 []) false.

(** The object after a second start for the same agent has raised. *)
Definition after_failed_start : AgentsObject.object :=
  AgentsObject.Object
    (snd (Agents.KeepAgentAwake (IdInt 1) 70
            (snd (Agents.KeepAgentAwake (IdInt 1) 70 Agents.init))))
    (AgentLogLevel.State ∅ 0 0 []) false.

Definition volume (uri vault_id : string) : value :=
  PDict [("Uri", PStr uri); ("BackupVaultId", PStr vault_id)].

Definition backup_configuration (name uri : string) (n : Z) : value :=
  PDict [("Id", PInt n); ("Name", PStr name); ("VolumeUri", PStr uri)].

(** Two configurations of the same name, and two volumes of the same
    URI. *)
Definition configuration : value :=
  PDict [("Volumes",
          PList [volume "rax://a" "v1"; volume "rax://b" "v2";
                 volume "rax://b" "v3"; volume "rax://c" "v4"]);
         ("BackupConfigurations",
          PList [backup_configuration "home" "rax://a" 1;
                 backup_configuration "mail" "rax://b" 2;
                 backup_configuration "mail" "rax://c" 3])].

End Surroundings.

(** * Properties *)

Local Open Scope list_scope.
Local Open Scope Z_scope.

(** ** Python values *)

Section PyFacts.
Import Py.

Lemma Qltb_lt a b : Qltb a b = true <-> (a < b)%Q.
Proof.
  unfold Qltb. rewrite negb_true_iff.
  split.
  - intros H. apply Qnot_le_lt. intros Hle.
    apply Qle_bool_iff in Hle. congruence.
  - intros H. destruct (Qle_bool b a) eqn:E; [|done].
    apply Qle_bool_iff in E. exfalso. by apply (Qlt_not_le a b).
Qed.

Lemma eq_str_true x s : eq_str x s = true <-> x = PStr s.
Proof.
  destruct x; simpl; try (split; [done|discriminate]).
  rewrite String.eqb_eq. split; [by intros ->|by intros [= ->]].
Qed.

Lemma eq_id_true x i : eq_id x i = true <-> Rse.equals_id x i.
Proof.
  destruct i as [n|s]; simpl.
  - destruct (num_value x) as [q|].
    + rewrite Qeq_bool_iff. split; [eauto|]. by intros (q' & [= <-] & H).
    + split; [done|]. by intros (q' & [=] & _).
  - apply eq_str_true.
Qed.

Lemma subscript_Ok x k y :
  subscript x k = Ok y <-> exists items, x = PDict items /\ assoc k items = Some y.
Proof.
  destruct x; simpl; try (split; [done|by intros (? & [=] & _)]).
  destruct (assoc k items) eqn:E.
  - split; [intros [= <-]; eauto|]. intros (? & [= <-] & H). congruence.
  - split; [done|]. intros (? & [= <-] & H). congruence.
Qed.

End PyFacts.

(** ** The event channel *)

Section RseFacts.
Import Py Rse.





Lemma contains_events_bare events :
  Forall (fun e => eq_str e "events" = false) events ->
  contains "events" (PList events) = Ok false.
Proof.
  intros H. simpl. f_equal.
  induction H as [|e events He _ IH]; simpl; [done|]. by rewrite He, IH.
Qed.

Lemma polled_events_envelope events :
  polled_events (PDict [("events", PList events)]) = Ok (true, events).
Proof. reflexivity. Qed.

Lemma polled_events_bare events :
  Forall (fun e => eq_str e "events" = false) events ->
  polled_events (PList events) = Ok (false, events).
Proof.
  intros H. unfold polled_events. by rewrite (contains_events_bare _ H).
Qed.

(** The outcome of a poll with status 200 in terms of the scan. *)
Lemma monitor_envelope v i events :
  fst (MonitorForHeartBeat v i (envelope events)) =
  match scan v i events with
  | Ok b => Ok b
  | Raise e => if is_LookupError e then Ok false else Raise e
  end.
Proof.
  unfold MonitorForHeartBeat, envelope, Query; simpl.
  by destruct (scan v i events) as [[]|[]].
Qed.

Lemma monitor_bare v i events :
  Forall (fun e => eq_str e "events" = false) events ->
  fst (MonitorForHeartBeat v i (bare events)) =
  match scan v i events with
  | Ok b => Ok b
  | Raise e => if is_LookupError e then Ok false else Raise e
  end.
Proof.
  intros H. unfold MonitorForHeartBeat, bare, Query; simpl status_code.
  cbn [Z.eqb Pos.eqb json_body]. cbn [mbind result_bind].
  rewrite (polled_events_bare _ H). cbn [mbind result_bind].
  by destruct (scan v i events) as [[]|[]].
Qed.

Lemma examine_lacks_read_key v i e :
  lacks_read_key i e -> examine v i e = Raise KeyError.
Proof.
  intros (items & -> & H). unfold examine; simpl.
  destruct H as [->|(data & -> & H)]; [done|]. simpl.
  destruct H as [->|(-> & H)]; [done|]. simpl.
  destruct H as [->|(mid & -> & Hid & Hage)]; [done|]. simpl.
  apply eq_id_true in Hid. by rewrite Hid, Hage.
Qed.

Lemma scan_aborts v i before e after :
  Forall (fun x => examine v i x = Ok false) before ->
  examine v i e = Raise KeyError ->
  scan v i (before ++ e :: after) = Raise KeyError.
Proof.
  intros Hb He. induction Hb as [|x before Hx _ IH]; simpl.
  - by rewrite He.
  - by rewrite Hx.
Qed.

Lemma examine_Ok_not_str v i e b s :
  examine v i e = Ok b -> eq_str e s = false.
Proof. by destruct e. Qed.

Lemma examine_KeyError_not_str v i e s :
  examine v i e = Raise KeyError -> eq_str e s = false.
Proof. by destruct e. Qed.

(** The test of the loop body on any entry whatever. *)
Lemma examine_counts v i e :
  examine v i e = Ok true <-> counts_as_match v i e.
Proof.
  unfold counts_as_match, heartbeat_match, examine, event_type, event_agent,
    event_age.
  destruct (subscript e "data") as [data|] eqn:Edata; simpl.
  2:{ split; [done|]. intros [(? & ? & [=] & _)|(_ & [=] & _)]. }
  destruct (subscript data "Event") as [ty|] eqn:Ety; simpl.
  2:{ split; [done|]. intros [(? & ? & [=] & _)|(_ & [=] & _)]. }
  destruct (eq_str ty "Heartbeat") eqn:Eh.
  2:{ split; [done|].
      assert (ty <> PStr "Heartbeat") as Hne.
      { intros ->. by rewrite (proj2 (eq_str_true _ _) eq_refl) in Eh. }
      intros [(? & ? & [= ->] & _)|(_ & [= ->] & _)]; by destruct Hne. }
  apply eq_str_true in Eh as ->.
  destruct (subscript data "MachineAgentId") as [mid|] eqn:Emid; simpl.
  2:{ split; [done|].
      intros [(? & ? & _ & [=] & _)|(_ & _ & (? & [=] & _) & _)]. }
  destruct (eq_id mid i) eqn:Eid.
  2:{ split; [done|].
      assert (~ equals_id mid i) as Hne.
      { intros H. apply eq_id_true in H. congruence. }
      intros [(? & ? & _ & [= <-] & H & _)|(_ & _ & (? & [= <-] & H) & _)];
        by destruct (Hne H). }
  apply eq_id_true in Eid.
  destruct (subscript e "age") as [age|] eqn:Eage; simpl.
  2:{ split; [done|]. intros [(? & ? & _ & _ & _ & [=] & _)|(_ & _ & _ & [=])]. }
  unfold lt_int. destruct (num_value age) as [q|] eqn:Enum.
  - split.
    + intros [= Hlt]. apply Qltb_lt in Hlt. left. exists mid, q. eauto 10.
    + intros [(mid' & q' & _ & _ & _ & [= <-] & Hlt)|(_ & _ & _ & [= ->])].
      * f_equal. by apply Qltb_lt.
      * done.
  - split.
    + destruct v; [|done]. destruct age; try done.
      intros _. right. eauto 10.
    + intros [(? & ? & _ & _ & _ & [=] & _)|(-> & _ & _ & [= ->])]. done.
Qed.

Lemma scan_first_match v i events :
  scan v i events = Ok true <->
  exists before e after,
    events = before ++ e :: after /\
    Forall (fun x => examine v i x = Ok false) before /\
    examine v i e = Ok true.
Proof.
  induction events as [|x events IH]; simpl.
  - split; [done|]. intros (before & e & after & H & _). by destruct before.
  - destruct (examine v i x) as [[]|err] eqn:Ex; simpl.
    + split; [|done]. intros _. by exists [], x, events.
    + rewrite IH. split.
      * intros (before & e & after & -> & Hb & He).
        exists (x :: before), e, after. split; [done|].
        split; [by constructor|done].
      * intros (before & e & after & Heq & Hb & He).
        destruct before as [|y before]; simpl in Heq.
        -- injection Heq as -> ->. congruence.
        -- injection Heq as -> ->. apply Forall_cons in Hb as [_ Hb].
           by exists before, e, after.
    + split; [done|]. intros (before & e & after & Heq & Hb & He).
      destruct before as [|y before]; simpl in Heq.
      * injection Heq as -> ->. congruence.
      * injection Heq as -> ->. apply Forall_cons in Hb as [Hy _]. congruence.
Qed.

(** C1, as the code has it: an entry makes the loop return true if and only
    if its event type is "Heartbeat", its agent id equals
    [machine_agent_id] and its age is below 26 (under Python 2 an age of
    [None] is below 26 as well); an entry of age 26 or more never does; and
    [MonitorForHeartBeat] returns true if and only if some entry matches and
    every entry before it was read without an error and did not match, for
    the envelope and for the bare list (in which no entry is the plain
    string "events"). *)
Theorem monitor_heartbeat_match v i :
  (forall e, examine v i e = Ok true <-> counts_as_match v i e) /\
  (forall e age, event_age e = Some age -> (26 <= age)%Q ->
                 ~ counts_as_match v i e) /\
  (forall events,
     fst (MonitorForHeartBeat v i (envelope events)) = Ok true <->
     exists before e after,
       events = before ++ e :: after /\
       Forall (fun x => examine v i x = Ok false) before /\
       counts_as_match v i e) /\
  (forall events,
     Forall (fun e => eq_str e "events" = false) events ->
     fst (MonitorForHeartBeat v i (bare events)) = Ok true <->
     exists before e after,
       events = before ++ e :: after /\
       Forall (fun x => examine v i x = Ok false) before /\
       counts_as_match v i e).
Proof.
  assert (Hscan : forall events,
            match scan v i events with
            | Ok b => Ok b
            | Raise e => if is_LookupError e then Ok false else Raise e
            end = Ok true <->
            exists before e after,
              events = before ++ e :: after /\
              Forall (fun x => examine v i x = Ok false) before /\
              counts_as_match v i e).
  { intros events. split.
    - intros H. assert (Hs : scan v i events = Ok true).
      { destruct (scan v i events) as [[]|err]; [done|done|].
        by destruct (is_LookupError err). }
      apply scan_first_match in Hs as (b & e & a & H1 & H2 & H3).
      exists b, e, a. by rewrite <- examine_counts.
    - intros (b & e & a & H1 & H2 & H3).
      assert (scan v i events = Ok true) as ->; [|done].
      apply scan_first_match. exists b, e, a. by rewrite examine_counts. }
  split; [apply examine_counts|]. split; [|split].
  - intros e age Hage Hle [(mid & age' & _ & _ & _ & Hage' & Hlt)|
                           (_ & _ & _ & Hnone)].
    + rewrite Hage in Hage'. injection Hage' as <-.
      by apply (Qlt_not_le age 26).
    + unfold event_age in Hage. by rewrite Hnone in Hage.
  - intros events. rewrite monitor_envelope. apply Hscan.
  - intros events Hno. rewrite (monitor_bare _ _ _ Hno). apply Hscan.
Qed.

Lemma monitor_heartbeat_match_witness :
  let events := [heartbeat_event "Backup" (PInt 7) (PInt 1);
                 heartbeat_event "Heartbeat" (PInt 42) (PInt 26);
                 heartbeat_event "Heartbeat" (PInt 42) (PFloat (25999 # 1000));
                 PDict []] in
  fst (MonitorForHeartBeat Py3 (IdInt 42) (bare events)) = Ok true.
Proof.
  intros events.
  apply (proj2 (proj2 (proj2 (monitor_heartbeat_match Py3 (IdInt 42))))
           events).
  - repeat constructor.
  - exists [heartbeat_event "Backup" (PInt 7) (PInt 1);
            heartbeat_event "Heartbeat" (PInt 42) (PInt 26)],
      (heartbeat_event "Heartbeat" (PInt 42) (PFloat (25999 # 1000))),
      [PDict []].
    split; [reflexivity|]. split; [repeat constructor|].
    left. exists (PInt 42), (25999 # 1000)%Q.
    repeat split; try reflexivity. exists 42%Q. split; reflexivity.
Defined.

(** C1, as the specification words it, fails: a matching entry that comes
    after an entry without the keys is never reached, and the poll answers
    false although an entry of the response matches. *)
Lemma match_after_malformed_counterexample :
  ~ (forall v i events,
       fst (MonitorForHeartBeat v i (envelope events)) = Ok true <->
       Exists (heartbeat_match i) events).
Proof.
  intros H.
  destruct (H Py3 (IdInt 42)
              [PDict []; heartbeat_event "Heartbeat" (PInt 42) (PInt 3)])
    as [_ Hback].
  assert (Hex : Exists (heartbeat_match (IdInt 42))
                  [PDict []; heartbeat_event "Heartbeat" (PInt 42) (PInt 3)]).
  { apply Exists_cons_tl, Exists_cons_hd.
    exists (PInt 42), 3%Q. repeat split; try reflexivity.
    exists 42%Q. split; reflexivity. }
  specialize (Hback Hex). vm_compute in Hback. discriminate Hback.
Qed.

(** C4, as the code has it: an entry from which the scan reads a missing key,
    reached before any matching entry, makes the whole attempt fail: the
    result is false and the parse error is logged, whatever comes after that
    entry. *)
Theorem malformed_entry_fails_poll v i before e after :
  Forall (fun x => examine v i x = Ok false) before ->
  lacks_read_key i e ->
  MonitorForHeartBeat v i (envelope (before ++ e :: after))
    = (Ok false, [DebugQueryCode 200; ErrorParsing]) /\
  (Forall (fun x => eq_str x "events" = false) after ->
   MonitorForHeartBeat v i (bare (before ++ e :: after))
     = (Ok false, [DebugQueryCode 200; ErrorParsing])).
Proof.
  intros Hb He. apply (examine_lacks_read_key v) in He.
  pose proof (scan_aborts v i before e after Hb He) as Hscan.
  split.
  - unfold MonitorForHeartBeat, envelope, Query; simpl. by rewrite Hscan.
  - intros Ha.
    assert (Hno : Forall (fun x => eq_str x "events" = false)
                    (before ++ e :: after)).
    { apply Forall_app. split.
      - eapply Forall_impl; [exact Hb|]. intros x Hx.
        by apply (examine_Ok_not_str v i x false).
      - constructor; [|done]. by apply (examine_KeyError_not_str v i). }
    unfold MonitorForHeartBeat, bare, Query; simpl status_code.
    cbn [Z.eqb Pos.eqb json_body]. cbn [mbind result_bind].
    rewrite (polled_events_bare _ Hno). cbn [mbind result_bind].
    by rewrite Hscan.
Qed.

Lemma malformed_entry_fails_poll_witness :
  MonitorForHeartBeat Py2 (IdInt 42)
    (envelope ([heartbeat_event "Backup" (PInt 42) (PInt 3)] ++
               PDict [("age", PInt 3)] ::
               [heartbeat_event "Heartbeat" (PInt 42) (PInt 3)]))
    = (Ok false, [DebugQueryCode 200; ErrorParsing]).
Proof.
  refine (proj1 (malformed_entry_fails_poll Py2 (IdInt 42)
                   [heartbeat_event "Backup" (PInt 42) (PInt 3)]
                   (PDict [("age", PInt 3)])
                   [heartbeat_event "Heartbeat" (PInt 42) (PInt 3)] _ _)).
  - repeat constructor.
  - exists [("age", PInt 3)]. split; [reflexivity|]. left. reflexivity.
Defined.

(** C4, as the specification words it, fails: an entry without any of the
    expected keys that follows a matching entry is never looked at, and the
    attempt returns true. *)
Lemma malformed_entry_counterexample :
  ~ (forall v i events,
       Exists lacks_field events ->
       fst (MonitorForHeartBeat v i (envelope events)) = Ok false).
Proof.
  intros H.
  specialize (H Py2 (IdInt 42)
                [heartbeat_event "Heartbeat" (PInt 42) (PInt 3); PDict []]).
  assert (Hex : Exists lacks_field
                  [heartbeat_event "Heartbeat" (PInt 42) (PInt 3); PDict []]).
  { apply Exists_cons_tl, Exists_cons_hd. exists []. split; [done|]. by left. }
  specialize (H Hex). vm_compute in H. discriminate H.
Qed.

(** C6: the envelope around a list of events and the bare list are read as
    the same sequence of events and give the same result.  No entry may be
    the plain string "events" (none is when the entries are objects). *)
Theorem envelope_bare_same v i events :
  Forall (fun e => eq_str e "events" = false) events ->
  polled_events (PDict [("events", PList events)]) = Ok (true, events) /\
  polled_events (PList events) = Ok (false, events) /\
  fst (MonitorForHeartBeat v i (envelope events))
    = fst (MonitorForHeartBeat v i (bare events)).
Proof.
  intros H. split; [done|]. split.
  - by rewrite (polled_events_bare _ H).
  - by rewrite monitor_envelope, monitor_bare.
Qed.

Lemma envelope_bare_same_witness :
  let events := [heartbeat_event "Backup" (PInt 7) (PInt 1);
                 heartbeat_event "Heartbeat" (PInt 42) (PInt 3)] in
  fst (MonitorForHeartBeat Py3 (IdInt 42) (envelope events))
    = fst (MonitorForHeartBeat Py3 (IdInt 42) (bare events)).
Proof.
  intros events.
  apply (envelope_bare_same Py3 (IdInt 42) events).
  repeat constructor.
Defined.

End RseFacts.

(** ** The wake coordinator *)

Section AgentsFacts.
Import Py Agents.
Context (v : python) (w : Agents.world).

Lemma no_monitor_call_refl s : no_monitor_call s s.
Proof.
  repeat split. exists []. by rewrite app_nil_r.
Qed.

Lemma no_monitor_call_trans s1 s2 s3 :
  no_monitor_call s1 s2 -> no_monitor_call s2 s3 -> no_monitor_call s1 s3.
Proof.
  intros (Hp & Hr & a1 & Ht & Ha1) (Hp' & Hr' & a2 & Ht' & Ha2).
  repeat split; [congruence..|].
  exists (a1 ++ a2). rewrite Ht', Ht, app_assoc. split; [done|].
  by apply Forall_app.
Qed.

Lemma now_no_monitor_call s :
  no_monitor_call s (snd (now w s)) /\ reads (snd (now w s)) = S (reads s) /\
  posts (snd (now w s)) = posts s.
Proof.
  repeat split; simpl. exists []. by rewrite app_nil_r.
Qed.

Lemma WakeAgents_no_monitor_call s :
  no_monitor_call s (snd (WakeAgents w s)) /\
  reads (snd (WakeAgents w s)) = reads s /\
  posts (snd (WakeAgents w s)) = S (posts s).
Proof.
  repeat split; simpl. eexists. split; [done|]. by repeat constructor.
Qed.

Lemma log_no_monitor_call m s : no_monitor_call s (snd (log m s)).
Proof.
  repeat split; simpl. eexists. split; [done|]. by repeat constructor.
Qed.

(** The first loop gives up once the clock has passed the deadline, if no
    wake request before that was answered with 200. *)
Lemma broadcast_unacknowledged n :
  forall fuel finish_time code s,
    (n < fuel)%nat ->
    finish_time <= clock w (reads s + n) ->
    (forall k, (k < n)%nat -> wake_status w (posts s + k) <> 200) ->
    exists code' s',
      broadcast w fuel finish_time code s = (Done (false, code'), s') /\
      no_monitor_call s s'.
Proof.
  induction n as [|n IH]; intros fuel finish_time code s Hfuel Hclock Hstatus;
    (destruct fuel as [|fuel]; [lia|]); simpl;
    unfold mbind, M_bind; simpl.
  - rewrite Nat.add_0_r in Hclock.
    destruct (Z.ltb_spec (clock w (reads s)) finish_time) as [Hlt|Hge]; [lia|].
    eexists _, _. split; [done|]. apply now_no_monitor_call.
  - destruct (Z.ltb_spec (clock w (reads s)) finish_time) as [Hlt|Hge].
    + simpl.
      destruct (Z.eqb_spec (wake_status w (posts s)) 200) as [Heq|Hne].
      { exfalso. apply (Hstatus 0%nat); [lia|]. by rewrite Nat.add_0_r. }
      match goal with
      | |- context [broadcast w fuel finish_time ?c ?s1] =>
          destruct (IH fuel finish_time c s1) as (code' & s' & Hrun & Hquiet)
      end.
      * lia.
      * simpl. rewrite <- Nat.add_succ_r. exact Hclock.
      * intros k Hk. simpl. rewrite <- Nat.add_succ_r.
        apply Hstatus. lia.
      * exists code', s'. split; [exact Hrun|].
        eapply no_monitor_call_trans; [|exact Hquiet].
        eapply no_monitor_call_trans; [apply now_no_monitor_call|].
        apply (WakeAgents_no_monitor_call (snd (now w s))).
    + eexists _, _. split; [done|]. apply now_no_monitor_call.
Qed.

(** C2: if the clock passes the deadline of the broadcast phase and no wake
    request issued before that was answered with status 200, then
    [WakeSpecificAgent] returns false, has not called
    [rse.MonitorForHeartBeat] at all, and has started no task. *)
Theorem wake_unacknowledged_skips_monitor
    fuel machine_agent_id timeoutMilliseconds keep_agent_awake wake_period s n :
  (n < fuel)%nat ->
  clock w (reads s) + timeoutMilliseconds <= clock w (reads s + 1 + n) ->
  (forall k, (k < n)%nat -> wake_status w (posts s + k) <> 200) ->
  exists s',
    WakeSpecificAgent v w fuel machine_agent_id timeoutMilliseconds
      keep_agent_awake wake_period s = (Done false, s') /\
    polls s' = polls s /\
    wake_agent_threads s' = wake_agent_threads s /\
    exists added,
      Agents.trace s' = Agents.trace s ++ added /\
      Forall (fun a => is_poll a = false) added.
Proof.
  intros Hfuel Hclock Hstatus.
  unfold WakeSpecificAgent, mbind, M_bind. simpl.
  match goal with
  | |- context [broadcast w fuel ?f ?c ?s1] =>
      destruct (broadcast_unacknowledged n fuel f c s1)
        as (code' & s1' & Hrun & Hquiet)
  end; [done| |done|].
  { simpl. by replace (S (reads s + n))%nat with (reads s + 1 + n)%nat by lia. }
  rewrite Hrun. simpl.
  eexists. split; [done|].
  change (no_monitor_call s (snd (log (ErrorUnableToWake code') s1'))).
  eapply no_monitor_call_trans; [apply now_no_monitor_call|].
  eapply no_monitor_call_trans; [exact Hquiet|].
  apply log_no_monitor_call.
Qed.

Lemma bind_Done {A B} (m : M A) (k : A -> M B) s b s' :
  (m ≫= k) s = (Done b, s') ->
  exists a s1, m s = (Done a, s1) /\ k a s1 = (Done b, s').
Proof.
  unfold mbind, M_bind. destruct (m s) as [[a| | |] s1]; try done. eauto.
Qed.

Lemma same_tasks_trans s1 s2 s3 :
  same_tasks s1 s2 -> same_tasks s2 s3 -> same_tasks s1 s3.
Proof. unfold same_tasks. intuition congruence. Qed.

Lemma now_same_tasks s : same_tasks s (snd (now w s)).
Proof. done. Qed.

Lemma WakeAgents_same_tasks s : same_tasks s (snd (WakeAgents w s)).
Proof. done. Qed.

Lemma MonitorForHeartBeat_same_tasks i s :
  same_tasks s (snd (Agents.MonitorForHeartBeat v w i s)).
Proof.
  unfold Agents.MonitorForHeartBeat.
  by destruct (Rse.MonitorForHeartBeat v i (rse_reply w (polls s))) as [[] ?].
Qed.

Lemma broadcast_same_tasks fuel :
  forall finish_time code s, same_tasks s (snd (broadcast w fuel finish_time code s)).
Proof.
  induction fuel as [|fuel IH]; intros finish_time code s; simpl; [done|].
  unfold mbind, M_bind; simpl.
  destruct (clock w (reads s) <? finish_time); [|done]. simpl.
  destruct (wake_status w (posts s) =? 200); [done|].
  eapply same_tasks_trans; [|apply IH]. done.
Qed.

Lemma verify_same_tasks fuel :
  forall i finish_time s, same_tasks s (snd (verify v w fuel i finish_time s)).
Proof.
  induction fuel as [|fuel IH]; intros i finish_time s; simpl; [done|].
  unfold mbind, M_bind; simpl.
  destruct (clock w (reads s) <? finish_time); [|done].
  match goal with
  | |- context [Agents.MonitorForHeartBeat v w i ?s1] =>
      pose proof (MonitorForHeartBeat_same_tasks i s1) as Hm;
      destruct (Agents.MonitorForHeartBeat v w i s1) as [[[]| | |] s2]
  end; simpl in *; try done.
  eapply same_tasks_trans; [|apply IH]. done.
Qed.

(** Starting a task for an id that has no entry: the new dict is the one the
    loop finds; it gets a fresh notifier and a thread watching it. *)
Lemma KeepAgentAwake_fresh i period s :
  list_find (has_id i) (wake_agent_threads s) = None ->
  KeepAgentAwake i period s =
  (Done tt,
   State (reads s) (posts s) (polls s) (checks s) (S (events_made s))
     (events_set s ∖ {[events_made s]})
     (threads s ++ [Thread (events_made s) i period true])
     (wake_agent_threads s ++
        [Entry i (Some (events_made s)) (Some (length (threads s)))])
     (Agents.trace s ++
        [Log (DebugStarting i); ThreadStart (length (threads s))])).
Proof.
  intros Hnone.
  assert (Hfind : list_find (has_id i)
                    (wake_agent_threads s ++ [Entry i None None])
                  = Some (length (wake_agent_threads s), Entry i None None)).
  { apply list_find_app_Some. right. split; [lia|]. split; [done|].
    rewrite Nat.sub_diag. simpl. rewrite decide_True; done. }
  unfold KeepAgentAwake, mbind, M_bind; simpl.
  rewrite Hfind. simpl.
  unfold update_entry, mbind, M_bind; simpl.
  rewrite !alter_app_r_alt, Nat.sub_diag by lia. simpl.
  rewrite last_snoc. simpl. rewrite !alter_app_r_alt, Nat.sub_diag by lia.
  unfold emit; simpl. by rewrite <- app_assoc.
Qed.

(** Starting a task for an id that already has an entry: the loop finds the
    old dict, gives it a new notifier, and then reads the key [terminator]
    of the new dict, which was never assigned. *)
Lemma KeepAgentAwake_duplicate i period s k a :
  list_find (has_id i) (wake_agent_threads s) = Some (k, a) ->
  KeepAgentAwake i period s =
  (Raised KeyError,
   State (reads s) (posts s) (polls s) (checks s) (S (events_made s))
     (events_set s ∖ {[events_made s]})
     (threads s)
     (alter (fun a => Entry (id a) (Some (events_made s)) (thread_of a)) k
        (wake_agent_threads s) ++ [Entry i None None])
     (Agents.trace s ++ [Log (DebugStarting i)])).
Proof.
  intros Hsome.
  assert (Hk : (k < length (wake_agent_threads s))%nat).
  { apply list_find_Some in Hsome as (Hk & _). by apply lookup_lt_Some in Hk. }
  assert (Hfind : list_find (has_id i)
                    (wake_agent_threads s ++ [Entry i None None])
                  = Some (k, a)).
  { apply list_find_app_Some. by left. }
  unfold KeepAgentAwake, mbind, M_bind; simpl.
  rewrite Hfind. simpl.
  unfold update_entry, mbind, M_bind; simpl.
  rewrite alter_app_l by lia.
  by rewrite last_snoc.
Qed.

Lemma KeepAgentAwake_Done i period s s' :
  KeepAgentAwake i period s = (Done tt, s') ->
  list_find (has_id i) (wake_agent_threads s) = None /\
  threads s' = threads s ++ [Thread (events_made s) i period true].
Proof.
  destruct (list_find (has_id i) (wake_agent_threads s)) as [[k a]|] eqn:Hfind.
  - by rewrite (KeepAgentAwake_duplicate i period s k a Hfind).
  - rewrite (KeepAgentAwake_fresh i period s Hfind). by intros [= <-].
Qed.



Lemma list_find_unregistered i (reg : list entry) :
  Forall (fun a => id a <> i) reg -> list_find (has_id i) reg = None.
Proof. intros H. by apply list_find_None. Qed.

(** C8, as the code has it: stopping an id that has no entry in the registry
    returns without an error and leaves the whole state as it was, the
    registry and the log included: nothing is written to the log.  A second
    stop does the same. *)
Theorem stop_unregistered_noop i s :
  Forall (fun a => id a <> i) (wake_agent_threads s) ->
  StopKeepAgentWake i s = (Done tt, s) /\
  StopKeepAgentWake i (snd (StopKeepAgentWake i s)) = (Done tt, s).
Proof.
  intros H.
  assert (Hstop : StopKeepAgentWake i s = (Done tt, s)).
  { unfold StopKeepAgentWake, mbind, M_bind; simpl.
    by rewrite (list_find_unregistered i _ H). }
  by rewrite !Hstop.
Qed.

(** *** Teardown *)

Lemma threads_kept_refl s : threads_kept s s.
Proof. split; [done|]. eauto. Qed.

Lemma threads_kept_trans s1 s2 s3 :
  threads_kept s1 s2 -> threads_kept s2 s3 -> threads_kept s1 s3.
Proof.
  intros [He1 H1] [He2 H2]. split; [congruence|].
  intros t th Ht. destruct (H1 t th Ht) as (th' & Ht' & Hn' & Ha').
  destruct (H2 t th' Ht') as (th'' & Ht'' & Hn'' & Ha'').
  exists th''. split; [done|]. split; [congruence|]. auto.
Qed.

Lemma task_of_kept s s' a : threads_kept s s' -> task_of s a -> task_of s' a.
Proof.
  intros [He Hk] (e & t & th & Hterm & Hthr & Hlook & Hnot & Hlt).
  destruct (Hk t th Hlook) as (th' & Hlook' & Hnot' & _).
  exists e, t, th'. rewrite He. repeat split; [done..|congruence|done].
Qed.

Lemma join_alive t th s :
  threads s !! t = Some th -> alive th = true ->
  my_notifier th ∈ events_set s ->
  join t s =
  (Done tt,
   State (reads s) (posts s) (polls s) (checks s) (events_made s)
     (events_set s ∖ {[my_notifier th]})
     (alter (fun th => Thread (my_notifier th) (agent_id th) (rse_period th)
                         false) t (threads s))
     (wake_agent_threads s)
     (Agents.trace s ++ [ThreadJoin t; EventClear (my_notifier th)])).
Proof.
  intros Ht Ha He. unfold join, mbind, M_bind, emit, get_thread; simpl.
  rewrite Ht, Ha. unfold get_flag; simpl. rewrite bool_decide_eq_true_2 by done.
  unfold event_clear, put_flag, emit, retire, mbind, M_bind; simpl.
  by rewrite <- app_assoc.
Qed.

Lemma join_dead t th s :
  threads s !! t = Some th -> alive th = false ->
  join t s =
  (Done tt,
   State (reads s) (posts s) (polls s) (checks s) (events_made s)
     (events_set s) (threads s) (wake_agent_threads s)
     (Agents.trace s ++ [ThreadJoin t])).
Proof.
  intros Ht Ha. unfold join, mbind, M_bind, emit, get_thread; simpl.
  by rewrite Ht, Ha.
Qed.

(** First loop of the teardown: every notifier of the list is set, and
    nothing is joined. *)
Lemma tell_all_ok l :
  forall s,
    Forall (fun a => is_Some (terminator a)) l ->
    exists s' told,
      tell_all l s = (Done tt, s') /\
      threads s' = threads s /\
      wake_agent_threads s' = wake_agent_threads s /\
      events_made s' = events_made s /\
      events_set s ⊆ events_set s' /\
      (forall a e, a ∈ l -> terminator a = Some e -> e ∈ events_set s') /\
      Agents.trace s' = Agents.trace s ++ told /\
      Forall (fun x => is_join_action x = false) told /\
      (forall a e, a ∈ l -> terminator a = Some e -> EventSet e ∈ told).
Proof.
  induction l as [|a l IH]; intros s Hl.
  - exists s, []. rewrite app_nil_r. repeat split; try done.
    + intros a e Ha. by apply elem_of_nil in Ha.
    + intros a e Ha. by apply elem_of_nil in Ha.
  - apply Forall_cons in Hl as [[e He] Hl]. simpl.
    unfold mbind, M_bind, log, emit; simpl. rewrite He.
    unfold event_set, put_flag, mbind, M_bind, emit; simpl.
    match goal with
    | |- context [tell_all l ?s1] =>
        destruct (IH s1 Hl)
          as (s' & told & -> & Hthr & Hreg & Hmade & Hsub & Hset & Htr & Hnj & Hin)
    end.
    simpl in *.
    exists s', ([Log (DebugTellingOnDel (id a)); EventSet e] ++ told).
    split; [done|]. split; [done|]. split; [done|]. split; [done|].
    split; [set_solver|]. split.
    { intros a' e' [->|Ha']%elem_of_cons He'; [|by eauto].
      rewrite He in He'. injection He' as <-. set_solver. }
    split.
    { rewrite Htr, <- !app_assoc. done. }
    split.
    { apply Forall_app. split; [by repeat constructor|done]. }
    intros a' e' [->|Ha']%elem_of_cons He'.
    + rewrite He in He'. injection He' as <-. set_solver.
    + apply elem_of_app. right. eauto.
Qed.

(** Second loop of the teardown. *)
Lemma join_all_ok l :
  forall s,
    Forall (task_of s) l ->
    NoDup (terminator <$> l) ->
    (forall a e, a ∈ l -> terminator a = Some e -> e ∈ events_set s) ->
    exists s' joined,
      join_all l s = (Done tt, s') /\
      wake_agent_threads s' = wake_agent_threads s /\
      threads_kept s s' /\
      Agents.trace s' = Agents.trace s ++ joined /\
      Forall (fun x => is_set_action x = false) joined /\
      (forall a t, a ∈ l -> thread_of a = Some t ->
         ThreadJoin t ∈ joined /\
         exists th, threads s' !! t = Some th /\ alive th = false).
Proof.
  induction l as [|a l IH]; intros s Hl Hnodup Hset.
  - exists s, []. rewrite app_nil_r. repeat split; try done.
    + eauto.
    + by apply elem_of_nil in H.
    + by apply elem_of_nil in H.
  - apply Forall_cons in Hl as [Ha Hl].
    rewrite fmap_cons in Hnodup. apply NoDup_cons in Hnodup as [Hnotin Hnodup].
    destruct Ha as (e & t & th & He & Ht & Hth & Hnot & Hlt).
    simpl. unfold mbind at 1, M_bind at 1, log, emit. simpl.
    rewrite Ht. unfold mbind at 1, M_bind at 1.
    set (s0 := State (reads s) (posts s) (polls s) (checks s) (events_made s)
                 (events_set s) (threads s) (wake_agent_threads s)
                 (Agents.trace s ++ [Log (DebugWaiting (id a))])).
    assert (Hjoin : exists s1 acts,
               join t s0 = (Done tt, s1) /\
               wake_agent_threads s1 = wake_agent_threads s /\
               threads_kept s s1 /\
               Agents.trace s1 = Agents.trace s0 ++ acts /\
               Forall (fun x => is_set_action x = false) acts /\
               ThreadJoin t ∈ acts /\
               (exists th', threads s1 !! t = Some th' /\ alive th' = false) /\
               (forall e', e' <> e -> e' ∈ events_set s -> e' ∈ events_set s1)).
    { destruct (alive th) eqn:Halive.
      - rewrite (join_alive t th s0 Hth Halive).
        2:{ simpl. rewrite Hnot. apply (Hset a e); [apply list_elem_of_here|done]. }
        eexists _, _. split; [done|]. simpl. split; [done|]. split.
        { split; [done|]. intros t' th' Ht'. simpl.
          destruct (decide (t' = t)) as [->|Hne].
          - rewrite list_lookup_alter_eq, Ht'. simpl. eauto.
          - rewrite list_lookup_alter_ne by done. eauto. }
        split; [done|]. split; [by repeat constructor|].
        split; [set_solver|]. split.
        { rewrite list_lookup_alter_eq, Hth. simpl. eauto. }
        intros e' Hne Hin. rewrite Hnot. set_solver.
      - rewrite (join_dead t th s0 Hth Halive).
        eexists _, _. split; [done|]. simpl. split; [done|]. split.
        { split; [done|]. eauto. }
        split; [done|]. split; [by repeat constructor|].
        split; [set_solver|]. split; [eauto|]. done. }
    destruct Hjoin as (s1 & acts & -> & Hreg1 & Hkept1 & Htr1 & Hns1 & Hin1
                       & Hdead1 & Hflags1).
    destruct (IH s1) as (s' & joined & -> & Hreg' & Hkept' & Htr' & Hns' & Hdone').
    { eapply Forall_impl; [exact Hl|]. intros a'. by apply task_of_kept. }
    { done. }
    { intros a' e' Ha' He'. apply Hflags1; [|by eauto using list_elem_of_further].
      intros ->. apply Hnotin. rewrite He, <- He'. by apply list_elem_of_fmap_2. }
    exists s', ([Log (DebugWaiting (id a))] ++ acts ++ joined).
    split; [done|]. split; [congruence|]. split.
    { by eapply threads_kept_trans. }
    split.
    { rewrite Htr', Htr1. unfold s0. simpl. by rewrite <- !app_assoc. }
    split.
    { apply Forall_app. split; [by repeat constructor|]. by apply Forall_app. }
    intros a' t' [->|Ha']%elem_of_cons Ht'.
    + rewrite Ht in Ht'. injection Ht' as <-.
      split; [rewrite !elem_of_app; auto|].
      destruct Hdead1 as (th1 & Hth1 & Hal1).
      destruct Hkept' as [_ Hk]. destruct (Hk t th1 Hth1) as (th2 & ? & _ & Hal2).
      eauto.
    + destruct (Hdone' a' t' Ha' Ht') as [Hj Hd].
      split; [rewrite !elem_of_app; auto|done].
Qed.

(** *** States after calls that returned *)

Lemma remove_first_sublist a l :
  a ∈ l -> exists l', remove_first a l = Some l' /\ l' `sublist_of` l.
Proof.
  induction l as [|y l IH]; intros Ha; [by apply elem_of_nil in Ha|].
  simpl. destruct (decide (y = a)) as [->|Hne].
  - eexists. split; [done|]. by apply sublist_cons.
  - apply elem_of_cons in Ha as [->|Ha]; [done|].
    destruct (IH Ha) as (l' & -> & Hsub). eexists. split; [done|].
    by apply sublist_skip.
Qed.

Lemma registry_ok_sublist s s' :
  threads_kept s s' ->
  wake_agent_threads s' `sublist_of` wake_agent_threads s ->
  registry_ok s -> registry_ok s'.
Proof.
  intros Hkept Hsub [Htasks Hnodup]. split.
  - apply Forall_forall. intros a Ha. apply (task_of_kept s); [done|].
    rewrite Forall_forall in Htasks. apply Htasks.
    by apply (elem_of_sublist _ _ _ Ha).
  - eapply sublist_NoDup; [exact Hnodup|]. by apply fmap_sublist.
Qed.

Lemma registry_ok_same_tasks s s' :
  same_tasks s s' -> registry_ok s -> registry_ok s'.
Proof.
  intros (Hthr & Hreg & Hmade & _). apply registry_ok_sublist.
  - split; [done|]. rewrite Hthr. eauto.
  - by rewrite Hreg.
Qed.

Lemma registry_ok_KeepAgentAwake i period s s' :
  KeepAgentAwake i period s = (Done tt, s') -> registry_ok s -> registry_ok s'.
Proof.
  intros Hrun [Htasks Hnodup].
  pose proof (KeepAgentAwake_Done _ _ _ _ Hrun) as [Hfind _].
  rewrite (KeepAgentAwake_fresh i period s Hfind) in Hrun.
  injection Hrun as <-. split; simpl.
  - apply Forall_app. split.
    + eapply Forall_impl; [exact Htasks|].
      intros a (e & t & th & He & Ht & Hth & Hnot & Hlt).
      exists e, t, th. simpl. repeat split; [done|done| |done|lia].
      by apply lookup_app_l_Some.
    + constructor; [|done].
      eexists _, _, _. simpl. split; [done|]. split; [done|].
      split; [by apply list_lookup_middle|]. split; [done|lia].
  - rewrite fmap_app. apply NoDup_app. split; [done|]. split.
    + intros x Hx [->|Hin]%elem_of_cons; [|by apply elem_of_nil in Hin].
      apply list_elem_of_fmap in Hx as (a & Ha & Hin).
      rewrite Forall_forall in Htasks.
      destruct (Htasks a Hin) as (e & _ & _ & He & _ & _ & _ & Hlt).
      simpl in Ha. rewrite He in Ha. injection Ha as Ha. lia.
    + apply NoDup_singleton.
Qed.

Lemma registry_ok_StopKeepAgentWake i s s' :
  StopKeepAgentWake i s = (Done tt, s') -> registry_ok s -> registry_ok s'.
Proof.
  intros Hrun Hok. unfold StopKeepAgentWake in Hrun.
  apply bind_Done in Hrun as (reg & s0 & Hreg & Hrun).
  injection Hreg as <- <-.
  destruct (list_find (has_id i) (wake_agent_threads s)) as [[k a]|] eqn:Hfind.
  2:{ by injection Hrun as <-. }
  apply list_find_Some in Hfind as (Hk & _ & _).
  apply list_elem_of_lookup_2 in Hk.
  pose proof Hok as [Htasks _]. rewrite Forall_forall in Htasks.
  destruct (Htasks a Hk) as (e & t & th & He & Ht & Hth & Hnot & Hlt).
  rewrite He, Ht in Hrun.
  apply bind_Done in Hrun as ([] & s1 & Hlog & Hrun). injection Hlog as <-.
  apply bind_Done in Hrun as ([] & s2 & Hset & Hrun). injection Hset as <-.
  apply bind_Done in Hrun as ([] & s3 & Hlog & Hrun). injection Hlog as <-.
  apply bind_Done in Hrun as ([] & s4 & Hjoin & Hrun).
  apply bind_Done in Hrun as (reg & s5 & Hreg & Hrun).
  injection Hreg as <- <-.
  assert (Hs4 : threads_kept s s4 /\
                wake_agent_threads s4 = wake_agent_threads s).
  { destruct (alive th) eqn:Halive.
    - rewrite (join_alive t th) in Hjoin; [|done..|simpl; set_solver].
      injection Hjoin as <-. simpl. split; [|done]. split; [done|].
      intros t' th' Ht'. simpl.
      destruct (decide (t' = t)) as [->|Hne].
      + rewrite list_lookup_alter_eq, Ht'. simpl. eauto.
      + rewrite list_lookup_alter_ne by done. eauto.
    - rewrite (join_dead t th) in Hjoin by done.
      injection Hjoin as <-. simpl. split; [|done]. split; [done|]. eauto. }
  destruct Hs4 as [Hkept Hreg4]. rewrite Hreg4 in Hrun.
  destruct (remove_first_sublist a _ Hk) as (reg' & Hrem & Hsub).
  rewrite Hrem in Hrun. injection Hrun as <-.
  apply (registry_ok_sublist s); [|done..].
  destruct Hkept as [Hmade Hthr]. split; [done|]. exact Hthr.
Qed.

Lemma default_wake_period_same_tasks i s :
  same_tasks s (snd (default_wake_period v w i s)).
Proof.
  unfold default_wake_period, mbind at 1, M_bind. simpl.
  destruct (_ ≫= _) as [p|e]; [|done].
  by destruct (Qltb 6 p), (Qltb 2 p).
Qed.

Lemma registry_ok_WakeSpecificAgent fuel i timeout keep period b s s' :
  WakeSpecificAgent v w fuel i timeout keep period s = (Done b, s') ->
  registry_ok s -> registry_ok s'.
Proof.
  intros Hrun Hok. unfold WakeSpecificAgent in Hrun.
  apply bind_Done in Hrun as (start_time & s1 & Hnow & Hrun).
  apply bind_Done in Hrun as ([wokeall code] & s2 & Hb & Hrun).
  pose proof (now_same_tasks s) as H1. rewrite Hnow in H1.
  pose proof (broadcast_same_tasks fuel (start_time + timeout) 0 s1) as H2.
  rewrite Hb in H2. simpl in H1, H2.
  apply (registry_ok_same_tasks _ _ H1) in Hok.
  apply (registry_ok_same_tasks _ _ H2) in Hok.
  destruct wokeall.
  2:{ apply bind_Done in Hrun as ([] & s3 & Hlog & Hrun).
      injection Hlog as <-. injection Hrun as _ <-.
      revert Hok. by apply registry_ok_same_tasks. }
  apply bind_Done in Hrun as (start_time' & s3 & Hnow' & Hrun).
  apply bind_Done in Hrun as (woke_agent & s4 & Hv & Hrun).
  apply bind_Done in Hrun as ([] & s5 & Hlog & Hrun).
  apply bind_Done in Hrun as ([] & s6 & Hkeep & Hrun).
  injection Hrun as _ <-.
  pose proof (now_same_tasks s2) as H3. rewrite Hnow' in H3.
  pose proof (verify_same_tasks fuel i (start_time' + timeout) s3) as H4.
  rewrite Hv in H4. simpl in H3, H4.
  apply (registry_ok_same_tasks _ _ H3) in Hok.
  apply (registry_ok_same_tasks _ _ H4) in Hok.
  assert (Hok5 : registry_ok s5).
  { destruct woke_agent; injection Hlog as <-; [done|].
    revert Hok. by apply registry_ok_same_tasks. }
  destruct (woke_agent && keep); [|by injection Hkeep as <-].
  apply bind_Done in Hkeep as (p & s7 & Hperiod & Hkeep).
  apply (registry_ok_KeepAgentAwake _ _ _ _ Hkeep).
  destruct period as [p'|].
  - by injection Hperiod as _ <-.
  - pose proof (default_wake_period_same_tasks i s5) as H5.
    rewrite Hperiod in H5. revert Hok5. by apply registry_ok_same_tasks.
Qed.

Lemma threads_kept_task_raises t s : threads_kept s (task_raises t s).
Proof.
  split; [done|]. intros t' th' Ht'. simpl.
  destruct (decide (t' = t)) as [->|Hne].
  - rewrite list_lookup_alter_eq, Ht'. simpl. eauto.
  - rewrite list_lookup_alter_ne by done. eauto.
Qed.

Lemma registry_ok_task_raises t s : registry_ok s -> registry_ok (task_raises t s).
Proof.
  intros [Htasks Hnodup]. split; [|done]. simpl.
  eapply Forall_impl; [exact Htasks|].
  intros a. apply task_of_kept, threads_kept_task_raises.
Qed.

Lemma reachable_registry_ok s : reachable v w s -> registry_ok s.
Proof.
  induction 1 as [|s c s' _ IH Hret|s t th _ IH _ _].
  - split; constructor.
  - destruct c as [fuel i timeout keep period|i period|i]; simpl in Hret.
    + destruct Hret as [b Hret].
      by apply (registry_ok_WakeSpecificAgent _ _ _ _ _ _ _ _ Hret).
    + by apply (registry_ok_KeepAgentAwake _ _ _ _ Hret).
    + by apply (registry_ok_StopKeepAgentWake _ _ _ Hret).
  - by apply registry_ok_task_raises.
Qed.

(** In every state, whatever the teardown does is a run of actions without
    a join followed by a run of actions without a set. *)
Lemma extends_refl P s : extends P s s.
Proof. exists []. by rewrite app_nil_r. Qed.

Lemma extends_emit (P : action -> Prop) a s : P a -> extends P s (snd (emit a s)).
Proof. intros Ha. exists [a]. split; [done|]. by constructor. Qed.

Lemma extends_put_flag P e b s : extends P s (snd (put_flag e b s)).
Proof. exists []. simpl. by rewrite app_nil_r. Qed.

Lemma extends_retire P t s : extends P s (snd (retire t s)).
Proof. exists []. simpl. by rewrite app_nil_r. Qed.

Lemma bind_extends {A B} P (m : M A) (k : A -> M B) s :
  extends P s (snd (m s)) ->
  (forall a s1, extends P s1 (snd (k a s1))) ->
  extends P s (snd ((m ≫= k) s)).
Proof.
  intros Hm Hk. unfold mbind, M_bind.
  destruct (m s) as [[a| | |] s1] eqn:E; simpl in *; try done.
  destruct Hm as (a1 & H1 & HP1). destruct (Hk a s1) as (a2 & H2 & HP2).
  exists (a1 ++ a2). rewrite H2, H1, app_assoc. split; [done|].
  by apply Forall_app.
Qed.

Lemma tell_all_extends l :
  forall s, extends (fun x => is_join_action x = false) s (snd (tell_all l s)).
Proof.
  induction l as [|a l IH]; intros s; simpl; [apply extends_refl|].
  apply bind_extends; [by apply extends_emit|]. intros [] s1.
  apply bind_extends; [|intros [] s2; apply IH].
  destruct (terminator a) as [e|]; [|apply extends_refl].
  apply bind_extends; [apply extends_put_flag|]. intros [] s2.
  by apply extends_emit.
Qed.

Lemma join_extends t s :
  extends (fun x => is_set_action x = false) s (snd (join t s)).
Proof.
  apply bind_extends; [by apply extends_emit|]. intros [] s1.
  apply bind_extends; [apply extends_refl|]. intros [th|] s2;
    [|apply extends_refl].
  destruct (alive th); [|apply extends_refl].
  apply bind_extends; [apply extends_refl|]. intros [] s3;
    [|apply extends_refl].
  apply bind_extends.
  - apply bind_extends; [apply extends_put_flag|]. intros [] s4.
    by apply extends_emit.
  - intros [] s4. apply extends_retire.
Qed.

Lemma join_all_extends l :
  forall s, extends (fun x => is_set_action x = false) s (snd (join_all l s)).
Proof.
  induction l as [|a l IH]; intros s; simpl; [apply extends_refl|].
  apply bind_extends; [by apply extends_emit|]. intros [] s1.
  apply bind_extends; [|intros [] s2; apply IH].
  destruct (thread_of a) as [t|]; [apply join_extends|apply extends_refl].
Qed.

Lemma teardown_order s :
  exists told joined,
    Agents.trace (snd (tell_then_join s)) = Agents.trace s ++ told ++ joined /\
    Forall (fun x => is_join_action x = false) told /\
    Forall (fun x => is_set_action x = false) joined.
Proof.
  unfold tell_then_join, mbind, M_bind, get_registry.
  destruct (tell_all_extends (wake_agent_threads s) s) as (told & Ht & Htold).
  destruct (tell_all (wake_agent_threads s) s) as [[[]| | |] s1]; simpl in *;
    try (exists told, []; by rewrite app_nil_r).
  destruct (join_all_extends (wake_agent_threads s1) s1) as (joined & Hj & Hjoined).
  exists told, joined. by rewrite Hj, Ht, app_assoc.
Qed.

(** The two loops on a registry whose entries all hold their notifier and
    their thread. *)
Lemma tell_then_join_ok s :
  registry_ok s ->
  exists s' told joined,
    tell_then_join s = (Done tt, s') /\
    Agents.trace s' = Agents.trace s ++ told ++ joined /\
    Forall (fun x => is_join_action x = false) told /\
    Forall (fun x => is_set_action x = false) joined /\
    (forall a, a ∈ wake_agent_threads s ->
       exists e t th,
         terminator a = Some e /\ thread_of a = Some t /\
         EventSet e ∈ told /\ ThreadJoin t ∈ joined /\
         threads s' !! t = Some th /\ alive th = false).
Proof.
  intros [Htasks Hnodup].
  destruct (tell_all_ok (wake_agent_threads s) s)
    as (s1 & told & Htell & Hthr & Hreg & Hmade & _ & Hflags & Htr & Hnj & Htold).
  { eapply Forall_impl; [exact Htasks|].
    intros a (e & _ & _ & He & _). by rewrite He. }
  destruct (join_all_ok (wake_agent_threads s) s1)
    as (s' & joined & Hjoin & _ & _ & Htr' & Hns & Hjoined).
  { eapply Forall_impl; [exact Htasks|]. intros a. apply task_of_kept.
    split; [done|]. rewrite Hthr. eauto. }
  { done. }
  { done. }
  exists s', told, joined. split.
  { unfold tell_then_join, mbind, M_bind, get_registry.
    rewrite Htell, Hreg. exact Hjoin. }
  split; [by rewrite Htr', Htr, app_assoc|]. split; [done|]. split; [done|].
  intros a Ha. rewrite Forall_forall in Htasks.
  destruct (Htasks a Ha) as (e & t & _ & He & Ht & _).
  destruct (Hjoined a t Ha Ht) as [Hj (th & Hth & Hdead)].
  exists e, t, th. eauto 10.
Qed.

(** C7, as the code has it: on an [Agents] object whose registry entries
    each hold their notifier and their thread (as they do after calls that
    returned, see [reachable_registry_ok]), and once the teardown of the
    saved log levels, which comes first, has come to an end, the teardown
    returns, and what it did to the tasks splits into a first part that
    sets the notifier of every registered task and joins nothing, and a
    second part that joins the thread of every registered task and sets
    nothing; when it returns every one of these threads has ended. *)
Theorem teardown_signals_then_joins lw fuel o :
  registry_ok (AgentsObject.tasks o) ->
  (AgentsObject.loglevel_shared o = false ->
   AgentLogLevelMore.__del__ lw fuel (AgentsObject.loglevel o)
     <> AgentLogLevelMore.Unfinished) ->
  exists o' told joined,
    AgentsObject.__del__ lw fuel o = (Done tt, o') /\
    Agents.trace (AgentsObject.tasks o') =
      Agents.trace (AgentsObject.tasks o) ++ told ++ joined /\
    Forall (fun x => is_join_action x = false) told /\
    Forall (fun x => is_set_action x = false) joined /\
    (forall a, a ∈ wake_agent_threads (AgentsObject.tasks o) ->
       exists e t th,
         terminator a = Some e /\ thread_of a = Some t /\
         EventSet e ∈ told /\ ThreadJoin t ∈ joined /\
         threads (AgentsObject.tasks o') !! t = Some th /\ alive th = false).
Proof.
  intros Hok Hlevels.
  destruct (tell_then_join_ok (AgentsObject.tasks o) Hok)
    as (s' & told & joined & Hrun & Htr & Hnj & Hns & Hall).
  unfold AgentsObject.__del__.
  destruct (AgentsObject.loglevel_shared o) eqn:Hshared.
  - rewrite Hrun. exists (AgentsObject.Object s' (AgentsObject.loglevel o) true).
    by exists told, joined.
  - specialize (Hlevels eq_refl).
    destruct (AgentLogLevelMore.__del__ lw fuel (AgentsObject.loglevel o))
      as [l|l|]; [| |done].
    + rewrite Hrun. exists (AgentsObject.Object s' l false).
      by exists told, joined.
    + rewrite Hrun. exists (AgentsObject.Object s' l false).
      by exists told, joined.
Qed.

(** *** The keep-awake task *)

Lemma grows_refl s : grows s s.
Proof. exists []. by rewrite app_nil_r. Qed.

Lemma grows_trans s1 s2 s3 : grows s1 s2 -> grows s2 s3 -> grows s1 s3.
Proof.
  intros [a1 H1] [a2 H2]. exists (a1 ++ a2). by rewrite H2, H1, app_assoc.
Qed.

Lemma bind_grows {A B} (m : M A) (k : A -> M B) s :
  grows s (snd (m s)) ->
  (forall a s1, grows s1 (snd (k a s1))) ->
  grows s (snd ((m ≫= k) s)).
Proof.
  intros Hm Hk. unfold mbind, M_bind.
  destruct (m s) as [[a| | |] s1] eqn:E; simpl in *; try done.
  eapply grows_trans; [exact Hm|apply Hk].
Qed.

Lemma now_grows s : grows s (snd (now w s)).
Proof. exists []. simpl. by rewrite app_nil_r. Qed.

Lemma ret_grows {A} (a : A) s : grows s (snd (mret (M := M) a s)).
Proof. apply grows_refl. Qed.

Lemma emit_grows a s : grows s (snd (emit a s)).
Proof. by eexists. Qed.

Lemma WakeAgents_grows s : grows s (snd (WakeAgents w s)).
Proof. by eexists. Qed.

Lemma MonitorForHeartBeat_grows i s :
  grows s (snd (Agents.MonitorForHeartBeat v w i s)).
Proof.
  unfold Agents.MonitorForHeartBeat.
  destruct (Rse.MonitorForHeartBeat v i (rse_reply w (polls s))) as [[] ?];
    by eexists.
Qed.

Lemma broadcast_grows fuel :
  forall finish_time code s, grows s (snd (broadcast w fuel finish_time code s)).
Proof.
  induction fuel as [|fuel IH]; intros finish_time code s; simpl;
    [apply grows_refl|].
  apply bind_grows; [apply now_grows|]. intros t s1.
  destruct (t <? finish_time); [|apply grows_refl].
  apply bind_grows; [apply WakeAgents_grows|]. intros c s2.
  destruct (c =? 200); [apply grows_refl|apply IH].
Qed.

Lemma verify_grows fuel :
  forall i finish_time s, grows s (snd (verify v w fuel i finish_time s)).
Proof.
  induction fuel as [|fuel IH]; intros i finish_time s; simpl;
    [apply grows_refl|].
  apply bind_grows; [apply now_grows|]. intros t s1.
  destruct (t <? finish_time); [|apply grows_refl].
  apply bind_grows; [apply MonitorForHeartBeat_grows|]. intros [] s2;
    [apply grows_refl|apply IH].
Qed.

Lemma KeepAgentAwake_grows i period s :
  grows s (snd (KeepAgentAwake i period s)).
Proof.
  destruct (list_find (has_id i) (wake_agent_threads s)) as [[k a]|] eqn:Hfind.
  - rewrite (KeepAgentAwake_duplicate i period s k a Hfind). by eexists.
  - rewrite (KeepAgentAwake_fresh i period s Hfind). by eexists.
Qed.

Lemma default_wake_period_grows i s :
  grows s (snd (default_wake_period v w i s)).
Proof.
  unfold default_wake_period, mbind at 1, M_bind. simpl.
  destruct (_ ≫= _) as [p|e]; [|by eexists].
  destruct (Qltb 6 p), (Qltb 2 p); by eexists.
Qed.

Lemma WakeSpecificAgent_grows fuel i timeout keep period s :
  grows s (snd (WakeSpecificAgent v w fuel i timeout keep period s)).
Proof.
  unfold WakeSpecificAgent.
  apply bind_grows; [apply now_grows|]. intros t s1.
  apply bind_grows; [apply broadcast_grows|]. intros [[] code] s2.
  - apply bind_grows; [apply now_grows|]. intros t' s3.
    apply bind_grows; [apply verify_grows|]. intros woke s4.
    apply bind_grows; [destruct woke; [apply grows_refl|apply emit_grows]|].
    intros [] s5.
    apply bind_grows; [|intros [] s6; apply grows_refl].
    destruct (woke && keep); [|apply grows_refl].
    apply bind_grows; [|intros p s6; apply KeepAgentAwake_grows].
    destruct period; [apply grows_refl|apply default_wake_period_grows].
  - apply bind_grows; [apply emit_grows|]. intros [] s3. apply grows_refl.
Qed.

(** *** Order of the two phases *)

Lemma broadcast_extends fuel :
  forall finish_time code s,
    extends (fun a => is_poll a = false) s
      (snd (broadcast w fuel finish_time code s)).
Proof.
  induction fuel as [|fuel IH]; intros finish_time code s; simpl;
    [apply extends_refl|].
  apply bind_extends; [exists []; simpl; by rewrite app_nil_r|]. intros t s1.
  destruct (t <? finish_time); [|apply extends_refl].
  apply bind_extends; [by eexists; split; [done|repeat constructor]|].
  intros c s2. destruct (c =? 200); [apply extends_refl|apply IH].
Qed.

Lemma broadcast_acknowledged fuel :
  forall finish_time code s c s',
    broadcast w fuel finish_time code s = (Done (true, c), s') ->
    exists before after,
      Agents.trace s' = Agents.trace s ++ before ++ Post 200 :: after /\
      Forall (fun a => is_poll a = false) before.
Proof.
  induction fuel as [|fuel IH]; intros finish_time code s c s' Hrun; [done|].
  simpl in Hrun. apply bind_Done in Hrun as (t & s1 & Hnow & Hrun).
  injection Hnow as <- <-.
  destruct (_ <? finish_time); [|done].
  apply bind_Done in Hrun as (c1 & s2 & Hwake & Hrun).
  injection Hwake as <- <-.
  destruct (Z.eqb_spec (wake_status w (posts s)) 200) as [Heq|Hne].
  - injection Hrun as <- <-. simpl. rewrite Heq.
    exists [], [Log (DebugWakeAgent 200)]. by split.
  - apply IH in Hrun as (before & after & Htr & Hbefore). simpl in Htr.
    eexists (_ :: _ :: before), after. rewrite Htr, <- app_assoc.
    split; [done|]. by repeat constructor.
Qed.

(** Whatever the call does, a call of the heartbeat monitor comes only
    after a wake request that was answered with 200. *)
Lemma monitor_only_after_acknowledgement fuel i timeout keep period s :
  exists added,
    Agents.trace (snd (WakeSpecificAgent v w fuel i timeout keep period s))
      = Agents.trace s ++ added /\
    ((exists j r, Poll j r ∈ added) ->
     exists before after,
       added = before ++ Post 200 :: after /\
       Forall (fun a => is_poll a = false) before).
Proof.
  destruct (WakeSpecificAgent_grows fuel i timeout keep period s)
    as [added Hadded].
  exists added. split; [done|]. intros (j & r & Hpoll).
  revert Hadded. unfold WakeSpecificAgent, mbind at 1, M_bind at 1. simpl.
  unfold mbind at 1, M_bind at 1.
  match goal with
  | |- context [broadcast w fuel ?f ?c ?s1] =>
      pose proof (broadcast_extends fuel f c s1) as (quiet & Hq & Hquiet);
      pose proof (broadcast_acknowledged fuel f c s1) as Hack;
      destruct (broadcast w fuel f c s1) as [[[[] code]| | |] s2]
  end; simpl in Hq.
  - destruct (Hack code s2 eq_refl) as (before & after & Htr & Hbefore).
    simpl in Htr. intros Hadded.
    match type of Hadded with
    | Agents.trace (snd ?r) = _ =>
        assert (Hg : grows s2 (snd r))
    end.
    { apply bind_grows; [apply now_grows|]. intros t' s3.
      apply bind_grows; [apply verify_grows|]. intros woke s4.
      apply bind_grows; [destruct woke; [apply grows_refl|apply emit_grows]|].
      intros [] s5.
      apply bind_grows; [|intros [] s6; apply grows_refl].
      destruct (woke && keep); [|apply grows_refl].
      apply bind_grows; [|intros p s6; apply KeepAgentAwake_grows].
      destruct period; [apply grows_refl|apply default_wake_period_grows]. }
    destruct Hg as [rest Hrest]. rewrite Hrest, Htr in Hadded.
    rewrite <- !app_assoc in Hadded. apply app_inv_head in Hadded.
    exists before, (after ++ rest). by rewrite <- Hadded.
  - unfold mbind, M_bind, log, emit. simpl. rewrite Hq, <- app_assoc.
    intros <-%app_inv_head. exfalso.
    apply elem_of_app in Hpoll as [Hpoll|Hpoll].
    + rewrite Forall_forall in Hquiet. by specialize (Hquiet _ Hpoll).
    + apply list_elem_of_singleton in Hpoll. done.
  - simpl. rewrite Hq. intros <-%app_inv_head. exfalso.
    rewrite Forall_forall in Hquiet. by specialize (Hquiet _ Hpoll).
  - simpl. rewrite Hq. intros <-%app_inv_head. exfalso.
    rewrite Forall_forall in Hquiet. by specialize (Hquiet _ Hpoll).
  - simpl. rewrite Hq. intros <-%app_inv_head. exfalso.
    rewrite Forall_forall in Hquiet. by specialize (Hquiet _ Hpoll).
Qed.

(** What one look at the notifier does. *)
Lemma check_notifier_cases notifier s :
  (__check_notifier w notifier s =
     (Done true,
      State (reads s) (posts s) (polls s) (S (checks s)) (events_made s)
        (if signalled w (checks s) then events_set s ∪ {[notifier]}
         else events_set s)
        (threads s) (wake_agent_threads s) (Agents.trace s)) /\
   notifier ∉ events_set (snd (__check_notifier w notifier s))) \/
  (__check_notifier w notifier s =
     (Done false,
      State (reads s) (posts s) (polls s) (S (checks s)) (events_made s)
        ((if signalled w (checks s) then events_set s ∪ {[notifier]}
          else events_set s) ∖ {[notifier]})
        (threads s) (wake_agent_threads s)
        (Agents.trace s ++ [EventClear notifier; Log DebugDetectedTermination])) /\
   notifier ∈ (if signalled w (checks s) then events_set s ∪ {[notifier]}
               else events_set s)).
Proof.
  unfold __check_notifier, mbind, M_bind, get_flag; simpl.
  case_bool_decide as Hin.
  - right. unfold event_clear, put_flag, log, emit, mbind, M_bind; simpl.
    by rewrite <- app_assoc.
  - left. done.
Qed.

Lemma not_in_cleared (X : gset nat) (n : nat) : n ∉ X ∖ {[n]}.
Proof. intros [_ H]%elem_of_difference. apply H. by apply elem_of_singleton. Qed.

Lemma check_notifier_grows notifier s :
  grows s (snd (__check_notifier w notifier s)).
Proof.
  destruct (check_notifier_cases notifier s) as [[-> _]|[-> _]]; simpl.
  - exists []. simpl. by rewrite app_nil_r.
  - by eexists.
Qed.



(** A task whose notifier has been set by its next look at it ends there. *)
Lemma keep_awake_stops_when_signalled fuel notifier agent period s :
  signalled w (checks s) = true ->
  exists s',
    _keep_agent_wake_thread_fn v w (S fuel) notifier agent period s
      = (Done tt, s').
Proof.
  intros Hsig. unfold _keep_agent_wake_thread_fn. simpl.
  unfold mbind at 1 2, M_bind at 1 2.
  destruct (check_notifier_cases notifier s) as [[Heq Hout]|[-> _]].
  - exfalso. rewrite Heq in Hout. simpl in Hout. rewrite Hsig in Hout.
    apply Hout, elem_of_union. right. by apply elem_of_singleton.
  - by eexists.
Qed.


End AgentsFacts.

Section AgentsWitnesses.
Import Py Agents.

Lemma wake_unacknowledged_skips_monitor_witness :
  exists s',
    WakeSpecificAgent Py2 Scenario.unanswered 10 (IdInt 42) 5000 true None init
      = (Done false, s') /\
    polls s' = polls init /\
    wake_agent_threads s' = wake_agent_threads init /\
    exists added,
      Agents.trace s' = Agents.trace init ++ added /\
      Forall (fun a => is_poll a = false) added.
Proof.
  apply (wake_unacknowledged_skips_monitor Py2 Scenario.unanswered 10
           (IdInt 42) 5000 true None init 5).
  - lia.
  - by vm_compute.
  - intros k _. by vm_compute.
Defined.


Lemma stop_unregistered_noop_witness :
  let s := snd (KeepAgentAwake (IdInt 1) 70 init) in
  StopKeepAgentWake (IdInt 2) s = (Done tt, s) /\
  StopKeepAgentWake (IdInt 2) (snd (StopKeepAgentWake (IdInt 2) s)) = (Done tt, s).
Proof.
  intros s. apply (stop_unregistered_noop (IdInt 2) s).
  repeat constructor. by vm_compute.
Defined.

(** C8, as the specification words it, fails: the stop of an id without a
    task writes no log message. *)
Lemma stop_unregistered_logged_counterexample :
  ~ (forall i s,
       Forall (fun a => id a <> i) (wake_agent_threads s) ->
       exists m,
         Log m ∈ drop (length (Agents.trace s))
                   (Agents.trace (snd (StopKeepAgentWake i s)))).
Proof.
  intros H. destruct (H (IdInt 7) init) as [m Hm]; [constructor|].
  vm_compute in Hm. by apply elem_of_nil in Hm.
Qed.


Lemma teardown_signals_then_joins_witness :
  let o := Surroundings.two_tasks in
  exists o' told joined,
    AgentsObject.__del__ Scenario.obliging 5 o = (Done tt, o') /\
    Agents.trace (AgentsObject.tasks o') =
      Agents.trace (AgentsObject.tasks o) ++ told ++ joined /\
    Forall (fun x => is_join_action x = false) told /\
    Forall (fun x => is_set_action x = false) joined /\
    (forall a, a ∈ wake_agent_threads (AgentsObject.tasks o) ->
       exists e t th,
         terminator a = Some e /\ thread_of a = Some t /\
         EventSet e ∈ told /\ ThreadJoin t ∈ joined /\
         threads (AgentsObject.tasks o') !! t = Some th /\ alive th = false).
Proof.
  intros o.
  apply (teardown_signals_then_joins Scenario.obliging 5 o).
  - apply (reachable_registry_ok Py2 Scenario.awake).
    apply (reachable_call Py2 Scenario.awake
             (snd (KeepAgentAwake (IdInt 1) 70 init))
             (CallKeepAgentAwake (IdInt 2) 70)).
    + apply (reachable_call Py2 Scenario.awake init
               (CallKeepAgentAwake (IdInt 1) 70)).
      * apply reachable_init.
      * by vm_compute.
    + by vm_compute.
  - intros _. by vm_compute.
Defined.

(** C7, as the specification words it, fails: after a second start for the
    same agent has raised (C3), the registry holds an entry without a
    notifier; the teardown raises [KeyError] at it in its first loop, joins
    nothing, and the running task is neither told to stop nor waited for. *)
Lemma teardown_after_failed_start_counterexample :
  ~ (forall lw fuel o,
       exists o',
         AgentsObject.__del__ lw fuel o = (Done tt, o') /\
         forall a, a ∈ wake_agent_threads (AgentsObject.tasks o) ->
           exists t th,
             thread_of a = Some t /\
             threads (AgentsObject.tasks o') !! t = Some th /\
             alive th = false).
Proof.
  intros H.
  destruct (H Scenario.obliging 5%nat Surroundings.after_failed_start)
    as (o' & Hrun & _).
  vm_compute in Hrun. discriminate Hrun.
Qed.

(** The same teardown in full: it raises, its trace has no join, and the
    thread of the task is still alive with its notifier not set. *)
Example teardown_after_failed_start :
  let r := AgentsObject.__del__ Scenario.obliging 5
             Surroundings.after_failed_start in
  fst r = Raised KeyError /\
  Forall (fun x => is_join_action x = false)
    (Agents.trace (AgentsObject.tasks (snd r))) /\
  threads (AgentsObject.tasks (snd r)) = [Thread 0 (IdInt 1) 70 true] /\
  (0%nat ∉ events_set (AgentsObject.tasks (snd r))).
Proof.
  vm_compute. split; [done|]. split; [repeat constructor|].
  split; [done|]. by vm_compute.
Qed.


End AgentsWitnesses.

(** ** Saved log levels *)

Section LogLevelFacts.
Import Py AgentLogLevel.
Context (w : AgentLogLevel.world).

Lemma SetLogLevel_stacks i level s :
  loglevel (snd (SetLogLevel w i level s)) = loglevel s.
Proof.
  unfold SetLogLevel. destruct (valid_level level); simpl; [|done].
  by destruct (put_status w (puts s) =? 204).
Qed.

Lemma succeeded_or_not (r : result bool) : r = Ok true \/ r <> Ok true.
Proof. destruct r as [[]|]; auto. Qed.

Lemma PopLogLevel_top i stack level s :
  loglevel s !! i = Some (stack ++ [level]) ->
  PopLogLevel w i s =
  match SetLogLevel w i (PStr level) s with
  | (Raise e, s1) => (Raise e, s1)
  | (Ok true, s1) =>
      (Ok tt,
       AgentLogLevel.log (InfoRestored i level)
         (AgentLogLevel.State (<[i := stack]> (loglevel s1))
            (gets s1) (puts s1) (AgentLogLevel.trace s1)))
  | (Ok false, s1) => (Ok tt, AgentLogLevel.log (ErrorResetting i level) s1)
  end.
Proof.
  intros Hstack. unfold PopLogLevel. rewrite Hstack.
  rewrite length_app. simpl.
  replace (length stack + 1 =? 0)%nat with false
    by (symmetry; apply Nat.eqb_neq; lia).
  simpl. replace (length stack + 1 - 1)%nat with (length stack) by lia.
  rewrite list_lookup_middle by done.
  rewrite delete_middle, app_nil_r. done.
Qed.

(** C10: [PopLogLevel] removes the top of the stack of an agent exactly when
    [SetLogLevel] for that level returns success; when it does not (it
    returns false or raises), every stack is as before, so the level is still
    there for another try; no call touches the stack of another agent; and
    with an empty or absent stack nothing is sent and nothing changes. *)
Theorem pop_log_level_atomic i s :
  (forall j, j <> i ->
     loglevel (snd (PopLogLevel w i s)) !! j = loglevel s !! j) /\
  (forall stack level,
     loglevel s !! i = Some (stack ++ [level]) ->
     (fst (SetLogLevel w i (PStr level) s) = Ok true ->
      fst (PopLogLevel w i s) = Ok tt /\
      loglevel (snd (PopLogLevel w i s)) = <[i := stack]> (loglevel s)) /\
     (fst (SetLogLevel w i (PStr level) s) <> Ok true ->
      loglevel (snd (PopLogLevel w i s)) = loglevel s) /\
     (loglevel (snd (PopLogLevel w i s)) !! i = Some stack <->
      fst (SetLogLevel w i (PStr level) s) = Ok true)) /\
  (loglevel s !! i = None \/ loglevel s !! i = Some [] ->
   fst (PopLogLevel w i s) = Ok tt /\
   loglevel (snd (PopLogLevel w i s)) = loglevel s /\
   gets (snd (PopLogLevel w i s)) = gets s /\
   puts (snd (PopLogLevel w i s)) = puts s).
Proof.
  assert (Htop : forall stack level,
     loglevel s !! i = Some (stack ++ [level]) ->
     (fst (SetLogLevel w i (PStr level) s) = Ok true ->
      fst (PopLogLevel w i s) = Ok tt /\
      loglevel (snd (PopLogLevel w i s)) = <[i := stack]> (loglevel s)) /\
     (fst (SetLogLevel w i (PStr level) s) <> Ok true ->
      loglevel (snd (PopLogLevel w i s)) = loglevel s)).
  { intros stack level Hstack.
    rewrite (PopLogLevel_top i stack level s Hstack).
    pose proof (SetLogLevel_stacks i (PStr level) s) as Hframe.
    destruct (SetLogLevel w i (PStr level) s) as [[[]|e] s1];
      simpl in *; rewrite ?Hframe; split; done. }
  split; [|split].
  - intros j Hj.
    destruct (loglevel s !! i) as [stack|] eqn:Hstack.
    + destruct (decide (stack = [])) as [->|Hne].
      * unfold PopLogLevel. by rewrite Hstack.
      * destruct (exists_last Hne) as (stack' & level & ->).
        destruct (Htop stack' level eq_refl) as [Hok Hfail].
        destruct (succeeded_or_not (fst (SetLogLevel w i (PStr level) s)))
          as [Hset|Hset].
        -- destruct (Hok Hset) as [_ ->]. by rewrite lookup_insert_ne.
        -- by rewrite (Hfail Hset).
    + unfold PopLogLevel. by rewrite Hstack.
  - intros stack level Hstack.
    destruct (Htop stack level Hstack) as [Hok Hfail].
    split; [done|]. split; [done|]. split.
    + intros Hpop.
      destruct (succeeded_or_not (fst (SetLogLevel w i (PStr level) s)))
        as [Hset|Hset]; [done|].
      rewrite (Hfail Hset), Hstack in Hpop. injection Hpop as Hpop.
      exfalso. apply (f_equal length) in Hpop.
      rewrite length_app in Hpop. simpl in Hpop. lia.
    + intros Hset. destruct (Hok Hset) as [_ ->]. by rewrite lookup_insert_eq.
  - intros [Hnone|Hempty]; unfold PopLogLevel.
    + by rewrite Hnone.
    + by rewrite Hempty.
Qed.

End LogLevelFacts.

Lemma pop_log_level_atomic_witness :
  let s := AgentLogLevel.State {[Py.IdInt 1 := ["Warn"; "Info"]]} 0 0 [] in
  let r := AgentLogLevel.PopLogLevel Scenario.obliging (Py.IdInt 1) s in
  fst r = Py.Ok tt /\
  AgentLogLevel.loglevel (snd r)
    = <[Py.IdInt 1 := ["Warn"]]> (AgentLogLevel.loglevel s).
Proof.
  intros s r.
  destruct (pop_log_level_atomic Scenario.obliging (Py.IdInt 1) s)
    as (_ & Htop & _).
  destruct (Htop ["Warn"] "Info") as (Hok & _).
  - by vm_compute.
  - apply Hok. by vm_compute.
Defined.

(** ** Runs on small inputs *)

Section Runs.
Import Py.

Example heartbeat_of_age_26_is_stale :
  Rse.MonitorForHeartBeat Py2 (IdInt 42)
    (Rse.envelope [Rse.heartbeat_event "Heartbeat" (PInt 42) (PInt 26)])
  = (Ok false, [Rse.DebugQueryCode 200]).
Proof. reflexivity. Qed.

Example bare_list_without_match_is_logged :
  Rse.MonitorForHeartBeat Py2 (IdInt 42)
    (Rse.bare [Rse.heartbeat_event "Heartbeat" (PInt 7) (PInt 3)])
  = (Ok false, [Rse.DebugQueryCode 200; Rse.ErrorInvalidMessage]).
Proof. reflexivity. Qed.

Example failed_query_is_empty :
  Rse.MonitorForHeartBeat Py2 (IdInt 42) (Rse.Response 503 None)
  = (Ok false, [Rse.DebugQueryCode 503; Rse.ErrorInvalidMessage]).
Proof. reflexivity. Qed.

(** Three empty polls, then a heartbeat of agent 42: the second loop of
    [WakeSpecificAgent] returns true after the fourth poll. *)
Example heartbeat_on_fourth_poll :
  let w := Agents.World Scenario.ticking (fun _ => 200)
             (fun k => if (k <? 3)%nat then Rse.envelope []
                       else Scenario.heartbeat_of_42)
             (fun _ => Scenario.config 75000) (fun _ => false) in
  let r := Agents.verify Py2 w 40 (IdInt 42) 30000 Agents.init in
  fst r = Agents.Done true /\ Agents.polls (snd r) = 4%nat.
Proof. by vm_compute. Qed.

(** A configured timeout of 6500 ms: 6 s under floor division, 6.5 s under
    true division. *)
Example seconds_of_6500 :
  Agents.divide_by_1000 Py2 (PInt 6500) = Ok (inject_Z 6) /\
  Agents.divide_by_1000 Py3 (PInt 6500) = Ok (inject_Z 6500 / 1000)%Q.
Proof. by vm_compute. Qed.

End Runs.

(** * Further properties of the modelled code *)

(** ** The event channel *)

Section RseMore.
Import Py Rse.

Lemma examine_true v i e :
  examine v i e = Ok true ->
  event_type e = Some (PStr "Heartbeat") /\
  (exists mid, event_agent e = Some mid /\ equals_id mid i) /\
  ((exists q, event_age e = Some q /\ (q < 26)%Q) \/
   (v = Py2 /\ subscript e "age" = Ok PNone)).
Proof.
  unfold examine, event_type, event_agent, event_age.
  destruct (subscript e "data") as [data|]; [|done]. simpl.
  destruct (subscript data "Event") as [ty|]; [|done]. simpl.
  destruct (eq_str ty "Heartbeat") eqn:Ety; [|done].
  apply eq_str_true in Ety as ->.
  destruct (subscript data "MachineAgentId") as [mid|]; [|done]. simpl.
  destruct (eq_id mid i) eqn:Eid; [|done]. apply eq_id_true in Eid.
  destruct (subscript e "age") as [age|]; [|done]. simpl.
  unfold lt_int. intros Hlt. split; [done|]. split; [eauto|].
  destruct (num_value age) as [q|] eqn:Hq.
  - left. exists q. split; [done|]. apply Qltb_lt. by injection Hlt.
  - right. destruct v; [|done]. by destruct age.
Qed.

Lemma scan_true v i events :
  scan v i events = Ok true ->
  exists e, e ∈ events /\ examine v i e = Ok true.
Proof.
  induction events as [|e events IH]; simpl; [done|].
  destruct (examine v i e) as [[]|] eqn:He; simpl; [|intros H|done].
  - intros _. exists e. split; [apply list_elem_of_here|done].
  - destruct (IH H) as (e' & Hin & He'). exists e'.
    split; [by apply list_elem_of_further|done].
Qed.

(** Whatever the reply is, [MonitorForHeartBeat] answers true only when the
    status is 200 and some entry it iterates over is a heartbeat of the
    agent looked for, with an age below 26 (or, under Python 2, an age that
    is [None]). *)
Theorem monitor_true_is_heartbeat v i res :
  fst (MonitorForHeartBeat v i res) = Ok true ->
  status_code res = 200 /\
  exists body enveloped events e,
    json_body res = Some body /\
    polled_events body = Ok (enveloped, events) /\ e ∈ events /\
    event_type e = Some (PStr "Heartbeat") /\
    (exists mid, event_agent e = Some mid /\ equals_id mid i) /\
    ((exists q, event_age e = Some q /\ (q < 26)%Q) \/
     (v = Py2 /\ subscript e "age" = Ok PNone)).
Proof.
  unfold MonitorForHeartBeat, Query.
  destruct (Z.eqb_spec (status_code res) 200) as [Hst|Hst].
  2:{ by vm_compute. }
  destruct (json_body res) as [body|]; [|by vm_compute].
  cbn [mbind result_bind].
  destruct (polled_events body) as [[enveloped events]|err] eqn:Hp.
  2:{ simpl. by destruct (is_LookupError err). }
  cbn [mbind result_bind].
  destruct (scan v i events) as [[]|err] eqn:Hscan.
  - intros _. split; [done|].
    destruct (scan_true v i events Hscan) as (e & Hin & He).
    destruct (examine_true v i e He) as (Hty & Hid & Hage).
    by exists body, enveloped, events, e.
  - by destruct enveloped.
  - simpl. by destruct (is_LookupError err).
Qed.

Lemma monitor_true_is_heartbeat_witness :
  status_code (envelope [heartbeat_event "Heartbeat" (PInt 42) PNone]) = 200 /\
  exists body enveloped events e,
    json_body (envelope [heartbeat_event "Heartbeat" (PInt 42) PNone])
      = Some body /\
    polled_events body = Ok (enveloped, events) /\ e ∈ events /\
    event_type e = Some (PStr "Heartbeat") /\
    (exists mid, event_agent e = Some mid /\ equals_id mid (IdInt 42)) /\
    ((exists q, event_age e = Some q /\ (q < 26)%Q) \/
     (Py2 = Py2 /\ subscript e "age" = Ok PNone)).
Proof.
  apply (monitor_true_is_heartbeat Py2 (IdInt 42)
           (envelope [heartbeat_event "Heartbeat" (PInt 42) PNone])).
  reflexivity.
Defined.



(** A reply with another status than 200 counts as a reply without events:
    the body is not read, the result is false and the message about an
    invalid reply is logged. *)
Theorem monitor_failed_query v i res :
  status_code res <> 200 ->
  MonitorForHeartBeat v i res
    = (Ok false, [DebugQueryCode (status_code res); ErrorInvalidMessage]).
Proof.
  intros Hst. unfold MonitorForHeartBeat, Query.
  by destruct (Z.eqb_spec (status_code res) 200).
Qed.

Lemma monitor_failed_query_witness :
  MonitorForHeartBeat Py2 (IdInt 42)
    (Response 404 (Some (PList [heartbeat_event "Heartbeat" (PInt 42) (PInt 1)])))
    = (Ok false, [DebugQueryCode 404; ErrorInvalidMessage]).
Proof.
  apply (monitor_failed_query Py2 (IdInt 42)
    (Response 404 (Some (PList [heartbeat_event "Heartbeat" (PInt 42)
                                  (PInt 1)])))).
  by vm_compute.
Defined.

(** A 200 reply whose body is an object without the key "events" and with
    some other key is iterated key by key; subscripting a key, which is a
    string, raises [TypeError], and that error is not caught. *)
Theorem monitor_foreign_object_raises v i k x items :
  assoc "events" ((k, x) :: items) = None ->
  fst (MonitorForHeartBeat v i (Response 200 (Some (PDict ((k, x) :: items)))))
    = Raise TypeError.
Proof.
  intros Hno. unfold MonitorForHeartBeat, Query. simpl status_code.
  cbn [Z.eqb Pos.eqb json_body]. cbn [mbind result_bind].
  unfold polled_events, contains. rewrite Hno.
  rewrite bool_decide_eq_false_2 by (by intros [? [=]]).
  reflexivity.
Qed.

Lemma monitor_foreign_object_raises_witness :
  fst (MonitorForHeartBeat Py2 (IdInt 42)
         (Response 200 (Some (PDict [("error", PStr "busy")]))))
    = Raise TypeError.
Proof.
  apply (monitor_foreign_object_raises Py2 (IdInt 42) "error" (PStr "busy") []).
  reflexivity.
Defined.

End RseMore.

(** ** The task registry *)

Section RegistryMore.
Import Py Agents AgentsNotions.
Context (v : python) (w : Agents.world).

Lemma list_find_remove_first i (reg : list entry) :
  forall k a,
    list_find (has_id i) reg = Some (k, a) ->
    remove_first a reg = Some (delete k reg).
Proof.
  induction reg as [|y reg IH]; intros k a Hfind; [done|].
  apply list_find_Some in Hfind as (Hk & Ha & Hfirst).
  destruct k as [|k]; simpl in *.
  - injection Hk as ->. by rewrite decide_True.
  - rewrite decide_False.
    2:{ intros ->. apply (Hfirst 0%nat a); [done|lia|done]. }
    rewrite (IH k a); [done|]. apply list_find_Some.
    split; [done|]. split; [done|].
    intros j z Hj Hlt. apply (Hfirst (S j) z); [done|lia].
Qed.

(** What a stop does when the first entry with the id holds a notifier and a
    thread that watches it and has not ended. *)
Lemma StopKeepAgentWake_alive i s k a e t th :
  list_find (has_id i) (wake_agent_threads s) = Some (k, a) ->
  terminator a = Some e -> thread_of a = Some t ->
  threads s !! t = Some th -> alive th = true -> my_notifier th = e ->
  StopKeepAgentWake i s =
  (Done tt,
   State (reads s) (posts s) (polls s) (checks s) (events_made s)
     ((events_set s ∪ {[e]}) ∖ {[e]})
     (alter (fun th => Thread (my_notifier th) (agent_id th) (rse_period th)
                         false) t (threads s))
     (delete k (wake_agent_threads s))
     (Agents.trace s ++
        [Log (DebugTellingOnStop (id a)); EventSet e;
         Log (DebugWaiting (id a)); ThreadJoin t; EventClear e])).
Proof.
  intros Hfind He Ht Hth Halive Hnot.
  unfold StopKeepAgentWake, mbind at 1, M_bind at 1, get_registry.
  rewrite Hfind, He, Ht.
  unfold mbind, M_bind, log, emit, event_set, put_flag; simpl.
  unfold mbind, M_bind, emit; simpl.
  match goal with
  | |- context [join t ?s0] =>
      rewrite (join_alive t th s0 Hth Halive)
        by (simpl; rewrite Hnot; apply elem_of_union; right;
            by apply elem_of_singleton)
  end.
  simpl. rewrite (list_find_remove_first i _ k a Hfind). simpl.
  rewrite Hnot. by rewrite <- !app_assoc.
Qed.

(** A call of [WakeSpecificAgent] that returns has either left the tasks
    alone, or, when it answers true and was asked to keep the agent awake,
    ended with a start that returned. *)
Lemma WakeSpecificAgent_Done fuel i timeout keep period b s s' :
  WakeSpecificAgent v w fuel i timeout keep period s = (Done b, s') ->
  if b && keep
  then exists s0 p, same_tasks s s0 /\ KeepAgentAwake i p s0 = (Done tt, s')
  else same_tasks s s'.
Proof.
  intros Hrun. unfold WakeSpecificAgent in Hrun.
  apply bind_Done in Hrun as (start_time & s1 & Hnow & Hrun).
  apply bind_Done in Hrun as ([wokeall code] & s2 & Hb & Hrun).
  pose proof (now_same_tasks w s) as H1. rewrite Hnow in H1.
  pose proof (broadcast_same_tasks w fuel (start_time + timeout) 0 s1) as H2.
  rewrite Hb in H2. simpl in H1, H2.
  pose proof (same_tasks_trans _ _ _ H1 H2) as H12.
  destruct wokeall.
  2:{ apply bind_Done in Hrun as ([] & s3 & Hlog & Hrun).
      injection Hlog as <-. injection Hrun as <- <-. simpl.
      eapply same_tasks_trans; [exact H12|done]. }
  apply bind_Done in Hrun as (start_time' & s3 & Hnow' & Hrun).
  apply bind_Done in Hrun as (woke_agent & s4 & Hv & Hrun).
  apply bind_Done in Hrun as ([] & s5 & Hlog & Hrun).
  apply bind_Done in Hrun as ([] & s6 & Hkeep & Hrun).
  injection Hrun as <- <-.
  pose proof (now_same_tasks w s2) as H3. rewrite Hnow' in H3.
  pose proof (verify_same_tasks v w fuel i (start_time' + timeout) s3) as H4.
  rewrite Hv in H4. simpl in H3, H4.
  assert (H5 : same_tasks s s5).
  { eapply same_tasks_trans; [exact H12|].
    eapply same_tasks_trans; [exact H3|].
    eapply same_tasks_trans; [exact H4|].
    by destruct woke_agent; injection Hlog as <-. }
  destruct (woke_agent && keep).
  2:{ by injection Hkeep as <-. }
  apply bind_Done in Hkeep as (p & s7 & Hperiod & Hkeep).
  exists s7, p. split; [|done].
  eapply same_tasks_trans; [exact H5|].
  destruct period as [p'|].
  - by injection Hperiod as _ <-.
  - pose proof (default_wake_period_same_tasks v w i s5) as H6.
    by rewrite Hperiod in H6.
Qed.

(** A task is started exactly by a call that answers true and was asked to
    keep the agent awake; the call then adds one thread and one registry
    entry for the agent, and in every other case leaves threads, registry
    and events as they were. *)
Theorem wake_starts_task_iff fuel i timeout keep period b s s' :
  WakeSpecificAgent v w fuel i timeout keep period s = (Done b, s') ->
  if b && keep
  then exists p,
         threads s' = threads s ++ [Thread (events_made s) i p true] /\
         wake_agent_threads s' =
           wake_agent_threads s ++
             [Entry i (Some (events_made s)) (Some (length (threads s)))]
  else same_tasks s s'.
Proof.
  intros Hrun. apply WakeSpecificAgent_Done in Hrun.
  destruct (b && keep); [|done].
  destruct Hrun as (s0 & p & (Hthr & Hreg & Hmade & _) & Hkeep).
  pose proof (KeepAgentAwake_Done _ _ _ _ Hkeep) as [Hfind _].
  rewrite (KeepAgentAwake_fresh i p s0 Hfind) in Hkeep.
  injection Hkeep as <-. simpl. exists p. by rewrite Hthr, Hreg, Hmade.
Qed.

Lemma StopKeepAgentWake_absent i s :
  list_find (has_id i) (wake_agent_threads s) = None ->
  StopKeepAgentWake i s = (Done tt, s).
Proof.
  intros Hfind. unfold StopKeepAgentWake, mbind, M_bind, get_registry.
  by rewrite Hfind.
Qed.

(** What a stop does when the thread of the first entry with the id has
    ended already: the notifier it sets stays set. *)
Lemma StopKeepAgentWake_dead i s k a e t th :
  list_find (has_id i) (wake_agent_threads s) = Some (k, a) ->
  terminator a = Some e -> thread_of a = Some t ->
  threads s !! t = Some th -> alive th = false ->
  StopKeepAgentWake i s =
  (Done tt,
   State (reads s) (posts s) (polls s) (checks s) (events_made s)
     (events_set s ∪ {[e]}) (threads s)
     (delete k (wake_agent_threads s))
     (Agents.trace s ++
        [Log (DebugTellingOnStop (id a)); EventSet e;
         Log (DebugWaiting (id a)); ThreadJoin t])).
Proof.
  intros Hfind He Ht Hth Hdead.
  unfold StopKeepAgentWake, mbind at 1, M_bind at 1, get_registry.
  rewrite Hfind, He, Ht.
  unfold mbind, M_bind, log, emit, event_set, put_flag; simpl.
  unfold mbind, M_bind, emit; simpl.
  match goal with
  | |- context [join t ?s0] => rewrite (join_dead t th s0 Hth Hdead)
  end.
  simpl. rewrite (list_find_remove_first i _ k a Hfind). simpl.
  by rewrite <- !app_assoc.
Qed.

(** Start, then stop, the task ending by an exception ([died]) or by
    noticing the signal: both calls return, the registry is as before the
    start and the thread that was started has ended.  Its notifier is clear
    again when the task noticed the signal, and stays set when the task
    died by an exception. *)
Theorem start_then_stop_restores i period s (died : bool) :
  Forall (fun a => id a <> i) (wake_agent_threads s) ->
  exists s1 s2,
    KeepAgentAwake i period s = (Done tt, s1) /\
    StopKeepAgentWake i
      (if died then task_raises (length (threads s)) s1 else s1)
      = (Done tt, s2) /\
    wake_agent_threads s2 = wake_agent_threads s /\
    threads s2 = threads s ++ [Thread (events_made s) i period false] /\
    (events_made s ∈ events_set s2 <-> died = true).
Proof.
  intros Hnone. apply list_find_unregistered in Hnone.
  rewrite (KeepAgentAwake_fresh i period s Hnone).
  set (a := Entry i (Some (events_made s)) (Some (length (threads s)))).
  set (th := Thread (events_made s) i period true).
  assert (Hfind : list_find (has_id i) (wake_agent_threads s ++ [a])
                  = Some (length (wake_agent_threads s), a)).
  { apply list_find_app_Some. right. split; [lia|]. split; [done|].
    rewrite Nat.sub_diag. simpl. by rewrite decide_True. }
  destruct died.
  - eexists _, _. split; [done|].
    erewrite (StopKeepAgentWake_dead i _ _ a (events_made s)
                (length (threads s))
                (Thread (events_made s) i period false));
      [|exact Hfind|done|done| |done].
    2:{ simpl. rewrite alter_app_r_alt, Nat.sub_diag by lia. simpl.
        by apply list_lookup_middle. }
    split; [done|]. simpl. split; [|split].
    + by rewrite delete_middle, app_nil_r.
    + by rewrite alter_app_r_alt, Nat.sub_diag by lia.
    + split; [done|]. intros _. apply elem_of_union. right.
      by apply elem_of_singleton.
  - eexists _, _. split; [done|].
    erewrite (StopKeepAgentWake_alive i _ _ a (events_made s)
                (length (threads s)) th); [|exact Hfind|done..| |done|done].
    2:{ simpl. by apply list_lookup_middle. }
    split; [done|]. simpl. split; [|split].
    + by rewrite delete_middle, app_nil_r.
    + by rewrite alter_app_r_alt, Nat.sub_diag by lia.
    + split; [|done]. intros Hin. by apply not_in_cleared in Hin.
Qed.

Lemma NoDup_fmap_delete {A B} (f : A -> B) (l : list A) :
  forall k a a',
    NoDup (f <$> l) -> l !! k = Some a -> a' ∈ delete k l -> f a' <> f a.
Proof.
  induction l as [|y l IH]; intros k a a' Hnd Hk Hin; [done|].
  rewrite fmap_cons in Hnd. apply NoDup_cons in Hnd as [Hy Hnd].
  destruct k as [|k]; simpl in *.
  - injection Hk as ->. intros Heq. apply Hy. rewrite <- Heq.
    by apply list_elem_of_fmap_2.
  - apply elem_of_cons in Hin as [->|Hin].
    + intros Heq. apply Hy. rewrite Heq. apply list_elem_of_fmap_2.
      by apply list_elem_of_lookup_2 in Hk.
    + by apply (IH k).
Qed.

Lemma filter_all (P : entry -> Prop) `{!forall x, Decision (P x)} l :
  Forall P l -> filter P l = l.
Proof.
  induction 1 as [|x l Hx _ IH]; [done|].
  by rewrite filter_cons_True, IH.
Qed.

Lemma delete_as_filter (l : list entry) :
  forall k a,
    NoDup (id <$> l) -> l !! k = Some a ->
    delete k l = filter (fun x => id x <> id a) l.
Proof.
  induction l as [|y l IH]; intros k a Hnd Hk; [done|].
  rewrite fmap_cons in Hnd. apply NoDup_cons in Hnd as [Hy Hnd].
  destruct k as [|k]; simpl in *.
  - injection Hk as ->. rewrite filter_cons_False by (by intros H; apply H).
    symmetry. apply filter_all, Forall_forall. intros x Hx Heq.
    apply Hy. rewrite <- Heq. by apply list_elem_of_fmap_2.
  - rewrite filter_cons_True.
    + by rewrite <- (IH k a).
    + intros Heq. apply Hy. rewrite Heq. apply list_elem_of_fmap_2.
      by apply list_elem_of_lookup_2 in Hk.
Qed.

Lemma healthy_same_tasks s s' : same_tasks s s' -> healthy s -> healthy s'.
Proof.
  intros Hsame (Hok & Hids). pose proof Hsame as (_ & Hreg & _).
  split; [by apply (registry_ok_same_tasks s)|]. by rewrite Hreg.
Qed.

Lemma healthy_KeepAgentAwake i period s s' :
  KeepAgentAwake i period s = (Done tt, s') -> healthy s -> healthy s'.
Proof.
  intros Hrun (Hok & Hids).
  split; [by apply (registry_ok_KeepAgentAwake i period s)|].
  pose proof (KeepAgentAwake_Done _ _ _ _ Hrun) as [Hfind _].
  rewrite (KeepAgentAwake_fresh i period s Hfind) in Hrun.
  injection Hrun as <-. simpl.
  rewrite fmap_app. apply NoDup_app. split; [done|]. split.
  - intros x Hx [->|Hin]%elem_of_cons; [|by apply elem_of_nil in Hin].
    apply list_elem_of_fmap in Hx as (a & Ha & Hin).
    apply list_find_None in Hfind. rewrite Forall_forall in Hfind.
    by apply (Hfind a Hin).
  - apply NoDup_singleton.
Qed.

(** What a stop does on a healthy registry, whether the task it stops still
    runs or has died. *)
Lemma StopKeepAgentWake_healthy i s :
  healthy s ->
  exists s',
    StopKeepAgentWake i s = (Done tt, s') /\ healthy s' /\
    wake_agent_threads s' =
      filter (fun a => id a <> i) (wake_agent_threads s) /\
    forall a, a ∈ wake_agent_threads s -> id a = i ->
      exists e t th th',
        terminator a = Some e /\ thread_of a = Some t /\
        threads s !! t = Some th /\
        threads s' !! t = Some th' /\ alive th' = false /\
        (e ∈ events_set s' <-> alive th = false).
Proof.
  intros Hhealthy. pose proof Hhealthy as (Hok & Hids).
  destruct (list_find (has_id i) (wake_agent_threads s)) as [[k a]|] eqn:Hfind.
  2:{ exists s. rewrite (StopKeepAgentWake_absent i s Hfind).
      apply list_find_None in Hfind.
      split; [done|]. split; [done|]. split.
      - symmetry. by apply filter_all.
      - intros a Ha Hid. rewrite Forall_forall in Hfind.
        by destruct (Hfind a Ha). }
  pose proof Hfind as (Hk & Hid & _)%list_find_Some.
  pose proof (list_elem_of_lookup_2 _ _ _ Hk) as Hin.
  pose proof Hok as [Htasks _]. rewrite Forall_forall in Htasks.
  destruct (Htasks a Hin) as (e & t & th & He & Ht & Hth & Hnot & Hlt).
  assert (Hreg : delete k (wake_agent_threads s)
                 = filter (fun a => id a <> i) (wake_agent_threads s)).
  { rewrite (delete_as_filter _ k a Hids Hk). by rewrite Hid. }
  assert (Hthis : forall a', a' ∈ wake_agent_threads s -> id a' = i -> a' = a).
  { intros a' Ha' Hid'.
    apply list_elem_of_lookup in Ha' as [k' Hk'].
    assert (k' = k) as ->; [|congruence].
    apply (NoDup_lookup _ _ _ (id a) Hids).
    - rewrite list_lookup_fmap, Hk'. simpl. by rewrite Hid', Hid.
    - by rewrite list_lookup_fmap, Hk. }
  destruct (alive th) eqn:Hal.
  - pose proof (StopKeepAgentWake_alive i s k a e t th Hfind He Ht Hth Hal Hnot)
      as Hstop.
    eexists. split; [exact Hstop|].
    split; [split|split].
    + by apply (registry_ok_StopKeepAgentWake i s _ Hstop).
    + simpl. eapply sublist_NoDup; [exact Hids|].
      apply fmap_sublist, sublist_delete.
    + done.
    + intros a' Ha' Hid'. simpl. rewrite (Hthis a' Ha' Hid').
      exists e, t, th,
        {| my_notifier := my_notifier th; agent_id := agent_id th;
           rse_period := rse_period th; alive := false |}.
      split; [done|]. split; [done|]. split; [done|]. split.
      { by rewrite list_lookup_alter_eq, Hth. }
      split; [done|]. rewrite Hal.
      split; [|done]. intros Hset. by apply not_in_cleared in Hset.
  - pose proof (StopKeepAgentWake_dead i s k a e t th Hfind He Ht Hth Hal)
      as Hstop.
    eexists. split; [exact Hstop|].
    split; [split|split].
    + by apply (registry_ok_StopKeepAgentWake i s _ Hstop).
    + simpl. eapply sublist_NoDup; [exact Hids|].
      apply fmap_sublist, sublist_delete.
    + done.
    + intros a' Ha' Hid'. simpl. rewrite (Hthis a' Ha' Hid').
      exists e, t, th, th.
      split; [done|]. split; [done|]. split; [done|]. split; [done|].
      split; [done|]. split; [done|]. intros _.
      apply elem_of_union. right. by apply elem_of_singleton.
Qed.

Lemma reachable_healthy s : reachable v w s -> healthy s.
Proof.
  induction 1 as [|s c s' _ IH Hret|s t th _ IH _ _].
  - split; [split; constructor|]. constructor.
  - destruct c as [fuel i timeout keep period|i period|i]; simpl in Hret.
    + destruct Hret as [b Hret]. apply WakeSpecificAgent_Done in Hret.
      destruct (b && keep).
      * destruct Hret as (s0 & p & Hsame & Hkeep).
        apply (healthy_KeepAgentAwake _ _ _ _ Hkeep).
        by apply (healthy_same_tasks s).
      * by apply (healthy_same_tasks s).
    + by apply (healthy_KeepAgentAwake _ _ _ _ Hret).
    + destruct (StopKeepAgentWake_healthy i s IH) as (s'' & Hstop & Hh & _).
      rewrite Hret in Hstop. by injection Hstop as ->.
  - destruct IH as [Hok Hids]. split; [|done].
    by apply registry_ok_task_raises.
Qed.

(** Whatever calls have returned and whichever tasks have died by an
    exception since, the registry has at most one entry for an id, every
    entry holds a notifier and a thread, that thread is the one watching
    that notifier, and no two entries hold the same notifier. *)
Theorem reachable_one_task_per_id s :
  reachable v w s ->
  NoDup (id <$> wake_agent_threads s) /\
  NoDup (terminator <$> wake_agent_threads s) /\
  Forall (task_of s) (wake_agent_threads s).
Proof.
  intros Hreach.
  by destruct (reachable_healthy s Hreach) as ([? ?] & ?).
Qed.

(** Whatever calls have returned and whichever tasks have died since, a
    stop returns: it removes the entry of the id and no other, and the
    thread of that entry has ended.  The notifier of the entry is clear
    again when the task ended by noticing the signal, and stays set when
    the task ended by an exception. *)
Theorem stop_removes_the_task s i :
  reachable v w s ->
  exists s',
    StopKeepAgentWake i s = (Done tt, s') /\
    wake_agent_threads s' =
      filter (fun a => id a <> i) (wake_agent_threads s) /\
    forall a, a ∈ wake_agent_threads s -> id a = i ->
      exists e t th th',
        terminator a = Some e /\ thread_of a = Some t /\
        threads s !! t = Some th /\
        threads s' !! t = Some th' /\ alive th' = false /\
        (e ∈ events_set s' <-> alive th = false).
Proof.
  intros Hreach.
  destruct (StopKeepAgentWake_healthy i s (reachable_healthy s Hreach))
    as (s' & Hstop & _ & Hreg & Hend).
  by exists s'.
Qed.

End RegistryMore.

(** ** Deadlines *)

Section DeadlinesMore.
Import Py Agents AgentsNotions.
Context (v : python) (w : Agents.world).

Lemma broadcast_bounded fuel :
  forall finish_time code s,
    advancing w -> (0 < fuel)%nat ->
    finish_time - clock w (reads s) < Z.of_nat fuel ->
    (exists b c, fst (broadcast w fuel finish_time code s) = Done (b, c)) /\
    Z.of_nat (posts (snd (broadcast w fuel finish_time code s)))
      <= Z.of_nat (posts s) + Z.max 0 (finish_time - clock w (reads s)) /\
    polls (snd (broadcast w fuel finish_time code s)) = polls s.
Proof.
  induction fuel as [|fuel IH]; intros finish_time code s Hadv Hpos Hfuel;
    [lia|].
  simpl. unfold mbind, M_bind. simpl.
  destruct (Z.ltb_spec (clock w (reads s)) finish_time) as [Hlt|Hge]; simpl.
  2:{ split; [eauto|]. split; [lia|done]. }
  destruct (wake_status w (posts s) =? 200); simpl.
  { split; [eauto|]. split; [lia|done]. }
  match goal with
  | |- context [broadcast w fuel finish_time ?c ?s1] =>
      destruct (IH finish_time c s1 Hadv) as (Hdone & Hposts & Hpolls)
  end.
  - lia.
  - simpl. pose proof (Hadv (reads s)). lia.
  - split; [done|]. simpl in *. pose proof (Hadv (reads s)).
    split; [lia|done].
Qed.

Lemma verify_bounded fuel :
  forall i finish_time s,
    advancing w -> (0 < fuel)%nat ->
    finish_time - clock w (reads s) < Z.of_nat fuel ->
    ended (fst (verify v w fuel i finish_time s)) /\
    Z.of_nat (polls (snd (verify v w fuel i finish_time s)))
      <= Z.of_nat (polls s) + Z.max 0 (finish_time - clock w (reads s)) /\
    posts (snd (verify v w fuel i finish_time s)) = posts s.
Proof.
  induction fuel as [|fuel IH]; intros i finish_time s Hadv Hpos Hfuel; [lia|].
  simpl. unfold mbind, M_bind. simpl.
  destruct (Z.ltb_spec (clock w (reads s)) finish_time) as [Hlt|Hge]; simpl.
  2:{ split; [done|]. split; [lia|done]. }
  unfold Agents.MonitorForHeartBeat. simpl.
  destruct (Rse.MonitorForHeartBeat v i (rse_reply w (polls s)))
    as [[[]|e] logged]; simpl.
  - split; [done|]. split; [lia|done].
  - match goal with
    | |- context [verify v w fuel i finish_time ?s1] =>
        destruct (IH i finish_time s1 Hadv) as (Hdone & Hpolls & Hposts)
    end.
    + lia.
    + simpl. pose proof (Hadv (reads s)). lia.
    + split; [done|]. simpl in *. pose proof (Hadv (reads s)).
      split; [lia|done].
  - split; [done|]. split; [lia|done].
Qed.

Lemma KeepAgentAwake_ended i period s :
  ended (fst (KeepAgentAwake i period s)) /\
  posts (snd (KeepAgentAwake i period s)) = posts s /\
  polls (snd (KeepAgentAwake i period s)) = polls s.
Proof.
  destruct (list_find (has_id i) (wake_agent_threads s)) as [[k a]|] eqn:Hfind.
  - by rewrite (KeepAgentAwake_duplicate i period s k a Hfind).
  - by rewrite (KeepAgentAwake_fresh i period s Hfind).
Qed.

Lemma default_wake_period_ended i s :
  ended (fst (default_wake_period v w i s)) /\
  posts (snd (default_wake_period v w i s)) = posts s /\
  polls (snd (default_wake_period v w i s)) = polls s.
Proof.
  unfold default_wake_period, mbind at 1, M_bind. simpl.
  destruct (_ ≫= _) as [p|e]; [|done].
  by destruct (Qltb 6 p), (Qltb 2 p).
Qed.

(** When every reading of the clock is later than the one before, a call of
    [WakeSpecificAgent] comes to an end, after at most [timeoutMilliseconds]
    wake requests and at most [timeoutMilliseconds] polls of the channel. *)
Theorem wake_ends_in_time fuel i timeout keep period s :
  advancing w -> (0 < fuel)%nat -> timeout <= Z.of_nat fuel ->
  ended (fst (WakeSpecificAgent v w fuel i timeout keep period s)) /\
  Z.of_nat (posts (snd (WakeSpecificAgent v w fuel i timeout keep period s)))
    <= Z.of_nat (posts s) + Z.max 0 timeout /\
  Z.of_nat (polls (snd (WakeSpecificAgent v w fuel i timeout keep period s)))
    <= Z.of_nat (polls s) + Z.max 0 timeout.
Proof.
  intros Hadv Hpos Hfuel.
  enough (exists o s',
            WakeSpecificAgent v w fuel i timeout keep period s = (o, s') /\
            ended o /\
            Z.of_nat (posts s') <= Z.of_nat (posts s) + Z.max 0 timeout /\
            Z.of_nat (polls s') <= Z.of_nat (polls s) + Z.max 0 timeout)
    as (o & s' & -> & H); [done|].
  unfold WakeSpecificAgent.
  unfold mbind at 1, M_bind at 1. simpl.
  unfold mbind at 1, M_bind at 1.
  match goal with
  | |- context [broadcast w fuel ?f ?c ?s1] =>
      destruct (broadcast_bounded fuel f c s1 Hadv Hpos)
        as ((b & c' & Hb) & Hposts & Hpolls);
      [simpl; pose proof (Hadv (reads s)); lia|];
      destruct (broadcast w fuel f c s1) as [o s2]
  end.
  simpl in Hb, Hposts, Hpolls. subst o.
  pose proof (Hadv (reads s)) as Hstep.
  destruct b.
  2:{ eexists _, _. split; [reflexivity|]. simpl. split; [done|]. lia. }
  unfold mbind at 1, M_bind at 1. simpl.
  unfold mbind at 1, M_bind at 1.
  match goal with
  | |- context [verify v w fuel i ?f ?s3] =>
      destruct (verify_bounded fuel i f s3 Hadv Hpos)
        as (Hend & Hpolls' & Hposts');
      [simpl; pose proof (Hadv (reads s2)); lia|];
      destruct (verify v w fuel i f s3) as [o s4]
  end.
  simpl in Hend, Hpolls', Hposts'. pose proof (Hadv (reads s2)) as Hstep'.
  assert (Hbound : Z.of_nat (posts s4) <= Z.of_nat (posts s) + Z.max 0 timeout /\
                   Z.of_nat (polls s4) <= Z.of_nat (polls s) + Z.max 0 timeout)
    by lia.
  clear Hposts Hpolls Hpolls' Hposts' Hstep Hstep'.
  destruct o as [woke|e| |]; try done.
  2:{ eexists _, _. split; [reflexivity|]. by split. }
  assert (Hkeep : forall s5 p,
            posts s5 = posts s4 -> polls s5 = polls s4 ->
            exists o s',
              (KeepAgentAwake i p ≫= fun _ => mret true) s5 = (o, s') /\
              ended o /\
              Z.of_nat (posts s') <= Z.of_nat (posts s) + Z.max 0 timeout /\
              Z.of_nat (polls s') <= Z.of_nat (polls s) + Z.max 0 timeout).
  { intros s5 p H1 H2. unfold mbind, M_bind.
    destruct (KeepAgentAwake_ended i p s5) as (He & Hp1 & Hp2).
    destruct (KeepAgentAwake i p s5) as [[[]|e| |] s6]; simpl in *;
      try done; eexists _, _; (split; [reflexivity|]); (split; [done|]); lia. }
  destruct woke; unfold mbind at 1, M_bind at 1, log, emit; simpl.
  2:{ eexists _, _. split; [reflexivity|]. by split. }
  destruct keep; simpl.
  2:{ eexists _, _. split; [reflexivity|]. by split. }
  unfold mbind at 1, M_bind at 1.
  destruct period as [p|].
  - unfold mbind at 1, M_bind at 1. simpl. by apply Hkeep.
  - unfold mbind at 1, M_bind at 1.
    destruct (default_wake_period_ended i s4) as (He & Hp1 & Hp2).
    destruct (default_wake_period v w i s4) as [[p|e| |] s5]; simpl in *;
      try done.
    + by apply Hkeep.
    + eexists _, _. split; [reflexivity|]. split; [done|]. lia.
Qed.

Lemma broadcast_found k :
  forall fuel finish_time code s,
    (k < fuel)%nat ->
    (forall m, (m <= k)%nat -> clock w (reads s + m) < finish_time) ->
    (forall m, (m < k)%nat -> wake_status w (posts s + m) <> 200) ->
    wake_status w (posts s + k) = 200 ->
    exists s',
      broadcast w fuel finish_time code s = (Done (true, 200), s') /\
      posts s' = (posts s + k + 1)%nat /\ reads s' = (reads s + k + 1)%nat /\
      polls s' = polls s.
Proof.
  induction k as [|k IH]; intros fuel finish_time code s Hfuel Hclock Hnot Hack;
    (destruct fuel as [|fuel]; [lia|]); simpl;
    unfold mbind, M_bind; simpl;
    pose proof (Hclock 0%nat ltac:(lia)) as H0;
    rewrite Nat.add_0_r in H0;
    (destruct (Z.ltb_spec (clock w (reads s)) finish_time); [|lia]); simpl.
  - rewrite Nat.add_0_r in Hack. rewrite Hack. simpl.
    eexists. split; [done|]. simpl. repeat split; lia.
  - pose proof (Hnot 0%nat ltac:(lia)) as Hne. rewrite Nat.add_0_r in Hne.
    destruct (Z.eqb_spec (wake_status w (posts s)) 200) as [|_]; [done|].
    match goal with
    | |- context [broadcast w fuel finish_time ?c ?s1] =>
        destruct (IH fuel finish_time c s1) as (s' & -> & Hp & Hr & Hq)
    end.
    + lia.
    + intros m Hm. simpl. rewrite <- Nat.add_succ_r. apply Hclock. lia.
    + intros m Hm. simpl. rewrite <- Nat.add_succ_r. apply Hnot. lia.
    + simpl. by rewrite <- Nat.add_succ_r.
    + exists s'. split; [done|]. simpl in *. repeat split; lia.
Qed.

Lemma verify_found j :
  forall fuel i finish_time s,
    (j < fuel)%nat ->
    (forall m, (m <= j)%nat -> clock w (reads s + m) < finish_time) ->
    (forall m, (m < j)%nat ->
       fst (Rse.MonitorForHeartBeat v i (rse_reply w (polls s + m))) = Ok false) ->
    fst (Rse.MonitorForHeartBeat v i (rse_reply w (polls s + j))) = Ok true ->
    exists s',
      verify v w fuel i finish_time s = (Done true, s') /\
      polls s' = (polls s + j + 1)%nat /\ posts s' = posts s.
Proof.
  induction j as [|j IH]; intros fuel i finish_time s Hfuel Hclock Hnot Hhit;
    (destruct fuel as [|fuel]; [lia|]); simpl;
    unfold mbind, M_bind; simpl;
    pose proof (Hclock 0%nat ltac:(lia)) as H0;
    rewrite Nat.add_0_r in H0;
    (destruct (Z.ltb_spec (clock w (reads s)) finish_time); [|lia]); simpl;
    unfold Agents.MonitorForHeartBeat; simpl.
  - rewrite Nat.add_0_r in Hhit.
    destruct (Rse.MonitorForHeartBeat v i (rse_reply w (polls s)))
      as [r logged]. simpl in Hhit. subst r. simpl.
    eexists. split; [done|]. simpl. split; lia.
  - pose proof (Hnot 0%nat ltac:(lia)) as Hmiss. rewrite Nat.add_0_r in Hmiss.
    destruct (Rse.MonitorForHeartBeat v i (rse_reply w (polls s)))
      as [r logged]. simpl in Hmiss. subst r. simpl.
    match goal with
    | |- context [verify v w fuel i finish_time ?s1] =>
        destruct (IH fuel i finish_time s1) as (s' & -> & Hq & Hp)
    end.
    + lia.
    + intros m Hm. simpl. rewrite <- Nat.add_succ_r. apply Hclock. lia.
    + intros m Hm. simpl. rewrite <- Nat.add_succ_r. apply Hnot. lia.
    + simpl. by rewrite <- Nat.add_succ_r.
    + exists s'. split; [done|]. simpl in *. split; lia.
Qed.

(** If the wake request number [k] is the first that is answered with 200,
    the poll number [j] is the first that shows a heartbeat of the agent, and
    the clock stays below the deadline of each phase until then, the call
    answers true after [k + 1] wake requests and [j + 1] polls. *)
Theorem wake_finds_agent fuel i timeout s k j :
  (k < fuel)%nat -> (j < fuel)%nat ->
  (forall m, (m <= k)%nat ->
     clock w (reads s + 1 + m) < clock w (reads s) + timeout) ->
  (forall m, (m < k)%nat -> wake_status w (posts s + m) <> 200) ->
  wake_status w (posts s + k) = 200 ->
  (forall m, (m <= j)%nat ->
     clock w (reads s + k + 3 + m) < clock w (reads s + k + 2) + timeout) ->
  (forall m, (m < j)%nat ->
     fst (Rse.MonitorForHeartBeat v i (rse_reply w (polls s + m))) = Ok false) ->
  fst (Rse.MonitorForHeartBeat v i (rse_reply w (polls s + j))) = Ok true ->
  exists s',
    WakeSpecificAgent v w fuel i timeout false None s = (Done true, s') /\
    posts s' = (posts s + k + 1)%nat /\ polls s' = (polls s + j + 1)%nat.
Proof.
  intros Hk Hj Hclock1 Hnot Hack Hclock2 Hmiss Hhit.
  unfold WakeSpecificAgent.
  unfold mbind at 1, M_bind at 1. simpl.
  unfold mbind at 1, M_bind at 1.
  match goal with
  | |- context [broadcast w fuel ?f ?c ?s1] =>
      destruct (broadcast_found k fuel f c s1) as (s2 & -> & Hp2 & Hr2 & Hq2)
  end; simpl; try done.
  { intros m Hm.
    replace (S (reads s + m))%nat with (reads s + 1 + m)%nat by lia.
    by apply Hclock1. }
  simpl in Hp2, Hr2, Hq2.
  unfold mbind at 1, M_bind at 1. simpl.
  unfold mbind at 1, M_bind at 1.
  assert (Hr : reads s2 = (reads s + k + 2)%nat) by lia.
  match goal with
  | |- context [verify v w fuel i ?f ?s3] =>
      destruct (verify_found j fuel i f s3) as (s4 & -> & Hq4 & Hp4)
  end; simpl; try done.
  { intros m Hm. rewrite Hr.
    replace (S (reads s + k + 2 + m))%nat with (reads s + k + 3 + m)%nat by lia.
    by apply Hclock2. }
  { intros m Hm. rewrite Hq2. by apply Hmiss. }
  { by rewrite Hq2. }
  simpl in Hq4, Hp4.
  eexists. split; [reflexivity|]. simpl. split; lia.
Qed.

End DeadlinesMore.

(** ** The keep-awake task and the registry *)

Section TaskMore.
Import Py Agents AgentsNotions.
Context (v : python) (w : Agents.world).

Lemma same_registry_refl s : same_registry s s.
Proof. done. Qed.

Lemma same_registry_trans s1 s2 s3 :
  same_registry s1 s2 -> same_registry s2 s3 -> same_registry s1 s3.
Proof. unfold same_registry. intuition congruence. Qed.

Lemma bind_same_registry {A B} (m : M A) (k : A -> M B) s :
  same_registry s (snd (m s)) ->
  (forall a s1, same_registry s1 (snd (k a s1))) ->
  same_registry s (snd ((m ≫= k) s)).
Proof.
  intros Hm Hk. unfold mbind, M_bind.
  destruct (m s) as [[a| | |] s1] eqn:E; simpl in *; try done.
  eapply same_registry_trans; [exact Hm|apply Hk].
Qed.

Lemma same_tasks_same_registry s s' : same_tasks s s' -> same_registry s s'.
Proof. by intros (? & ? & ? & _). Qed.

Lemma WakeSpecificAgent_same_registry fuel i timeout s :
  same_registry s (snd (WakeSpecificAgent v w fuel i timeout false None s)).
Proof.
  unfold WakeSpecificAgent.
  apply bind_same_registry; [done|]. intros t s1.
  apply bind_same_registry.
  { apply same_tasks_same_registry, broadcast_same_tasks. }
  intros [[] code] s2.
  - apply bind_same_registry; [done|]. intros t' s3.
    apply bind_same_registry.
    { apply same_tasks_same_registry, verify_same_tasks. }
    intros woke s4.
    apply bind_same_registry; [by destruct woke|]. intros [] s5.
    rewrite andb_false_r. apply bind_same_registry; [done|]. by intros [] s6.
  - apply bind_same_registry; [done|]. by intros [] s3.
Qed.

Lemma check_notifier_same_registry notifier s :
  same_registry s (snd (__check_notifier w notifier s)).
Proof.
  by destruct (check_notifier_cases w notifier s) as [[-> _]|[-> _]].
Qed.

Lemma wait_period_same_registry fuel :
  forall notifier finish_time c s,
    same_registry s (snd (wait_period w fuel notifier finish_time c s)).
Proof.
  induction fuel as [|fuel IH]; intros notifier finish_time c s; simpl; [done|].
  apply bind_same_registry; [done|]. intros t s1.
  destruct (_ && c); [|done].
  apply bind_same_registry; [apply check_notifier_same_registry|].
  intros c1 s2. apply bind_same_registry; [done|]. intros [] s3. apply IH.
Qed.

Lemma keep_awake_loop_same_registry fuel :
  forall notifier agent period s,
    same_registry s (snd (keep_awake_loop v w fuel notifier agent period s)).
Proof.
  induction fuel as [|fuel IH]; intros notifier agent period s; simpl; [done|].
  apply bind_same_registry; [apply check_notifier_same_registry|].
  intros [] s1; [|done].
  apply bind_same_registry; [apply WakeSpecificAgent_same_registry|].
  intros woke s2. apply bind_same_registry.
  - destruct woke.
    + apply bind_same_registry; [done|]. intros t s3.
      apply wait_period_same_registry.
    + apply bind_same_registry; [done|]. by intros [] s3.
  - intros [] s3; [apply IH|done].
Qed.

(** However long it runs and however it ends, the keep-awake task starts no
    task of its own: it creates no thread, no event and no registry entry. *)
Theorem task_starts_no_task fuel notifier agent period s :
  same_registry s
    (snd (_keep_agent_wake_thread_fn v w fuel notifier agent period s)).
Proof.
  unfold _keep_agent_wake_thread_fn.
  apply bind_same_registry; [apply keep_awake_loop_same_registry|].
  by intros [] s1.
Qed.

End TaskMore.

(** ** Saved log levels, continued *)

Section LogLevelMore.
Import Py AgentLogLevel AgentLogLevelMore.
Context (w : AgentLogLevel.world).

Lemma lookup_push_stack i (stacks : gmap AgentId (list string)) current :
  alter (fun stack => app stack [current]) i
    (match stacks !! i with
     | None => <[i := []]> stacks
     | Some _ => stacks
     end)
  = <[i := default [] (stacks !! i) ++ [current]]> stacks.
Proof.
  apply map_eq. intros j. destruct (decide (j = i)) as [->|Hne].
  - rewrite lookup_alter_eq, lookup_insert_eq.
    destruct (stacks !! i) eqn:E; simpl.
    + by rewrite E.
    + by rewrite lookup_insert_eq.
  - rewrite lookup_alter_ne, lookup_insert_ne by done.
    destruct (stacks !! i); [done|]. by rewrite lookup_insert_ne.
Qed.

(** What [PushLogLevel] leaves behind when the GET is answered with [code]
    and [text]: the level it read (the empty string when the GET failed) is
    on the stack before the new level is even checked. *)
Lemma PushLogLevel_saves i level s code text :
  get_reply w (gets s) = (code, text) ->
  exists o current extra,
    current = (if code =? 200 then remove_quotes text else EmptyString) /\
    PushLogLevel w i level s =
      (o, AgentLogLevel.State
            (<[i := saved i s ++ [current]]> (loglevel s))
            (S (gets s))
            (if valid_level level then S (puts s) else puts s)
            (AgentLogLevel.trace s ++ extra)) /\
    o = (if valid_level level then Ok tt else Raise ValueError).
Proof.
  intros Hget. unfold PushLogLevel, GetLogLevel, SetLogLevel. simpl.
  rewrite Hget.
  destruct (code =? 200); simpl; rewrite lookup_push_stack;
    destruct (valid_level level); simpl;
    try destruct (put_status w (puts s) =? 204); simpl;
    eexists _, _, _; (split; [reflexivity|]); split;
    try reflexivity; f_equal; try (rewrite <- app_assoc; reflexivity);
    try (f_equal; symmetry; apply app_nil_r).
Qed.

(** A push and then a pop, both accepted by the service: the stacks are as
    before the push (an agent without a stack now has an empty one), and the
    pop has logged that it restored the level the push had read. *)
Theorem push_then_pop_restores i level s text :
  get_reply w (gets s) = (200, text) ->
  valid_level (PStr (remove_quotes text)) = true ->
  valid_level level = true ->
  put_status w (puts s) = 204 -> put_status w (S (puts s)) = 204 ->
  exists s1 s2,
    PushLogLevel w i level s = (Ok tt, s1) /\
    PopLogLevel w i s1 = (Ok tt, s2) /\
    loglevel s2 = <[i := saved i s]> (loglevel s) /\
    AgentLogLevel.trace s2
      = AgentLogLevel.trace s ++ [InfoRestored i (remove_quotes text)].
Proof.
  intros Hget Hcur Hlevel Hput1 Hput2.
  destruct (PushLogLevel_saves i level s 200 text Hget)
    as (o & current & extra & -> & Hpush & ->).
  assert (extra = []) as ->.
  { revert Hpush. unfold PushLogLevel, GetLogLevel, SetLogLevel. simpl.
    rewrite Hget. simpl. rewrite Hlevel. simpl. rewrite Hput1. simpl.
    intros [= _ H]. rewrite <- (app_nil_r (AgentLogLevel.trace s)) in H at 1.
    by apply app_inv_head in H. }
  rewrite Hpush, Hlevel. simpl. rewrite app_nil_r.
  eexists _, _. split; [reflexivity|].
  erewrite PopLogLevel_top by (simpl; apply lookup_insert_eq).
  unfold SetLogLevel. simpl. rewrite Hcur. simpl. rewrite Hput2. simpl.
  split; [reflexivity|]. by rewrite insert_insert_eq.
Qed.

(** When the GET of a push fails, the empty string is saved as the level to
    go back to; no pop can ever take it off, since [SetLogLevel] rejects it:
    each pop raises [ValueError] and changes nothing. *)
Theorem failed_get_poisons_stack i level s code text :
  get_reply w (gets s) = (code, text) -> code <> 200 ->
  valid_level level = true ->
  fst (PushLogLevel w i level s) = Ok tt /\
  HasLogLevels i (snd (PushLogLevel w i level s)) = true /\
  forall w',
    PopLogLevel w' i (snd (PushLogLevel w i level s))
      = (Raise ValueError, snd (PushLogLevel w i level s)).
Proof.
  intros Hget Hcode Hlevel.
  destruct (PushLogLevel_saves i level s code text Hget)
    as (o & current & extra & -> & -> & ->).
  rewrite Hlevel. simpl.
  destruct (Z.eqb_spec code 200) as [|_]; [done|].
  split; [done|]. split.
  - unfold HasLogLevels. simpl. rewrite lookup_insert_eq, length_app. simpl.
    apply negb_true_iff, Nat.eqb_neq. lia.
  - intros w'. by erewrite PopLogLevel_top by (simpl; apply lookup_insert_eq).
Qed.

(** A push with a level that is not accepted raises [ValueError], but only
    after the GET was sent and the level it returned was saved: the stack has
    grown although no level was set. *)
Theorem push_invalid_level_saves_anyway i level s code text :
  get_reply w (gets s) = (code, text) ->
  valid_level level = false ->
  fst (PushLogLevel w i level s) = Raise ValueError /\
  loglevel (snd (PushLogLevel w i level s)) !! i
    = Some (saved i s ++
              [if code =? 200 then remove_quotes text else EmptyString]) /\
  gets (snd (PushLogLevel w i level s)) = S (gets s) /\
  puts (snd (PushLogLevel w i level s)) = puts s.
Proof.
  intros Hget Hlevel.
  destruct (PushLogLevel_saves i level s code text Hget)
    as (o & current & extra & -> & -> & ->).
  rewrite Hlevel. simpl. by rewrite lookup_insert_eq.
Qed.

Lemma level_in_range (q : Q) :
  existsb (fun n => Qeq_bool q (inject_Z n)) [1; 2; 3; 4; 5; 6; 7] = true ->
  exists n, (q == inject_Z n)%Q /\ 1 <= n <= 7.
Proof.
  intros H. apply existsb_exists in H as (n & Hin & Hq).
  exists n. split; [by apply Qeq_bool_iff|].
  simpl in Hin. intuition lia.
Qed.

(** Every level that passes the check of [SetLogLevel] is sent as a number
    between 1 and 7: a name as the number the table gives it, a number as
    itself. *)
Theorem accepted_level_is_sent_as_1_to_7 level :
  valid_level level = true ->
  exists x q n,
    LoggingLevelid level = Ok x /\ num_value x = Some q /\
    (q == inject_Z n)%Q /\ 1 <= n <= 7.
Proof.
  unfold valid_level. intros Hvalid.
  apply orb_true_iff in Hvalid as [Hname|Hnum].
  - apply existsb_exists in Hname as (name & Hin & Heq).
    apply eq_str_true in Heq as ->.
    simpl in Hin.
    destruct Hin as [<-|[<-|[<-|[<-|[<-|[<-|[<-|[]]]]]]]];
      eexists _, _, _; (split; [reflexivity|]); (split; [reflexivity|]);
      (split; [reflexivity|lia]).
  - destruct (num_value level) as [q|] eqn:Hq; [|done].
    destruct (level_in_range q Hnum) as (n & Hqn & Hn).
    exists level, q, n. split; [|done]. by destruct level.
Qed.

Lemma accepted_level_is_sent_as_1_to_7_witness :
  exists x q n,
    LoggingLevelid (PStr "Warn") = Ok x /\ num_value x = Some q /\
    (q == inject_Z n)%Q /\ 1 <= n <= 7.
Proof.
  apply (accepted_level_is_sent_as_1_to_7 (PStr "Warn")). reflexivity.
Defined.

(** *** Teardown of the saved levels *)

Lemma pop_while_refused i :
  forall fuel s stack level,
    (forall k, put_status w k <> 204) ->
    loglevel s !! i = Some (stack ++ [level]) ->
    valid_level (PStr level) = true ->
    pop_while w fuel i s = Unfinished.
Proof.
  induction fuel as [|fuel IH]; intros s stack level Hput Hstack Hvalid; [done|].
  simpl. unfold HasLogLevels. rewrite Hstack, length_app. simpl.
  replace (length stack + 1 =? 0)%nat with false
    by (symmetry; apply Nat.eqb_neq; lia).
  simpl. rewrite (PopLogLevel_top w i stack level s Hstack).
  unfold SetLogLevel. rewrite Hvalid. simpl.
  destruct (Z.eqb_spec (put_status w (puts s)) 204) as [Heq|_].
  { by destruct (Hput (puts s)). }
  by apply (IH _ stack level).
Qed.

Lemma pop_while_empty fuel i s :
  HasLogLevels i s = false ->
  pop_while w fuel i s = Unfinished \/ pop_while w fuel i s = Restored s.
Proof. destruct fuel; simpl; [by left|]. intros ->. by right. Qed.

Lemma pop_each_refused fuel (agents : list AgentId) :
  forall s i stack,
    (forall k, put_status w k <> 204) ->
    all_levels_valid s ->
    i ∈ agents -> loglevel s !! i = Some stack -> stack <> [] ->
    pop_each w fuel agents s = Unfinished.
Proof.
  induction agents as [|j agents IH]; intros s i stack Hput Hvalid Hin Hi Hne.
  { by apply elem_of_nil in Hin. }
  simpl.
  destruct (loglevel s !! j) as [stack'|] eqn:Hj.
  - destruct (decide (stack' = [])) as [->|Hne'].
    + destruct (pop_while_empty fuel j s) as [->| ->]; [|done|].
      { unfold HasLogLevels. by rewrite Hj. }
      apply elem_of_cons in Hin as [->|Hin]; [congruence|].
      by apply (IH s i stack).
    + destruct (exists_last Hne') as (rest & level & ->).
      rewrite (pop_while_refused j fuel s rest level Hput Hj); [done|].
      apply (Hvalid j _ level Hj). apply elem_of_app. right.
      by apply list_elem_of_singleton.
  - destruct (pop_while_empty fuel j s) as [->| ->]; [|done|].
    { unfold HasLogLevels. by rewrite Hj. }
    apply elem_of_cons in Hin as [->|Hin]; [congruence|].
    by apply (IH s i stack).
Qed.


Lemma pop_while_accepted i :
  forall n stack fuel s,
    length stack = n ->
    loglevel s !! i = Some stack ->
    Forall (fun level => valid_level (PStr level) = true) stack ->
    (n < fuel)%nat ->
    (forall k, put_status w k = 204) ->
    exists s',
      pop_while w fuel i s = Restored s' /\
      loglevel s' = <[i := []]> (loglevel s) /\
      puts s' = (puts s + n)%nat.
Proof.
  induction n as [|n IH]; intros stack fuel s Hlen Hstack Hvalid Hfuel Hput;
    (destruct fuel as [|fuel]; [lia|]); simpl.
  - apply nil_length_inv in Hlen as ->.
    unfold HasLogLevels. rewrite Hstack. simpl.
    exists s. split; [done|]. split; [|lia]. symmetry. by apply insert_id.
  - destruct (decide (stack = [])) as [->|Hne]; [done|].
    destruct (exists_last Hne) as (rest & level & ->).
    rewrite length_app in Hlen. simpl in Hlen.
    apply Forall_app in Hvalid as [Hrest Hlevel].
    apply Forall_inv in Hlevel.
    unfold HasLogLevels. rewrite Hstack, length_app. simpl.
    replace (length rest + 1 =? 0)%nat with false
      by (symmetry; apply Nat.eqb_neq; lia).
    simpl. rewrite (PopLogLevel_top w i rest level s Hstack).
    unfold SetLogLevel. rewrite Hlevel. simpl. rewrite Hput. simpl.
    match goal with
    | |- context [pop_while w fuel i ?s1] =>
        destruct (IH rest fuel s1) as (s' & -> & Hstacks & Hputs)
    end; try done; try lia.
    { simpl. apply lookup_insert_eq. }
    exists s'. split; [done|]. simpl in *. split; [|lia].
    by rewrite Hstacks, insert_insert_eq.
Qed.

Lemma pop_each_accepted fuel (agents : list AgentId) :
  forall s,
    (forall j, j ∈ agents -> is_Some (loglevel s !! j)) ->
    all_levels_valid s ->
    (forall j stack, loglevel s !! j = Some stack -> (length stack < fuel)%nat) ->
    (forall k, put_status w k = 204) ->
    exists s',
      pop_each w fuel agents s = Restored s' /\
      forall x, loglevel s' !! x =
                if decide (x ∈ agents) then Some [] else loglevel s !! x.
Proof.
  induction agents as [|j agents IH]; intros s Hkeys Hvalid Hbound Hput.
  { exists s. split; [done|]. intros x. rewrite decide_False; [done|].
    apply not_elem_of_nil. }
  destruct (Hkeys j) as [stack Hj]; [apply list_elem_of_here|].
  simpl.
  destruct (pop_while_accepted j (length stack) stack fuel s)
    as (s1 & -> & Hstacks & _); try done.
  { apply Forall_forall. intros level Hin. by apply (Hvalid j stack). }
  { by apply (Hbound j). }
  assert (Hlook : forall x stack', loglevel s1 !! x = Some stack' ->
                    stack' = [] \/ loglevel s !! x = Some stack').
  { intros x stack'. rewrite Hstacks.
    destruct (decide (x = j)) as [->|Hne].
    - rewrite lookup_insert_eq. intros [= <-]. by left.
    - rewrite lookup_insert_ne by done. by right. }
  destruct (IH s1) as (s' & -> & Hs'); try done.
  - intros x Hx. rewrite Hstacks.
    destruct (decide (x = j)) as [->|Hne].
    + by rewrite lookup_insert_eq.
    + rewrite lookup_insert_ne by done. apply Hkeys. by apply list_elem_of_further.
  - intros x stack' level Hx Hin.
    destruct (Hlook x stack' Hx) as [->|Hx'].
    + by apply elem_of_nil in Hin.
    + by apply (Hvalid x stack').
  - intros x stack' Hx.
    destruct (Hlook x stack' Hx) as [->|Hx'].
    + simpl. destruct (Hkeys j) as [st Hst]; [apply list_elem_of_here|].
      specialize (Hbound j st Hst). lia.
    + by apply (Hbound x).
  - exists s'. split; [done|]. intros x. rewrite Hs', Hstacks.
    destruct (decide (x = j)) as [->|Hne].
    + rewrite lookup_insert_eq.
      rewrite (decide_True (P := j ∈ j :: agents)) by apply list_elem_of_here.
      by destruct (decide (j ∈ agents)).
    + rewrite lookup_insert_ne by done.
      destruct (decide (x ∈ agents)) as [Hin|Hnin].
      * by rewrite decide_True by by apply list_elem_of_further.
      * rewrite decide_False; [done|].
        intros [?|?]%elem_of_cons; done.
Qed.

(** When the service accepts every change of level and every saved level is
    one it can be asked for, the teardown walks through all agents and
    leaves every stack empty. *)
Theorem teardown_of_levels_empties s fuel :
  (forall k, put_status w k = 204) ->
  all_levels_valid s ->
  (forall j stack, loglevel s !! j = Some stack -> (length stack < fuel)%nat) ->
  exists s',
    AgentLogLevelMore.__del__ w fuel s = Restored s' /\
    loglevel s' = (fun _ => []) <$> loglevel s.
Proof.
  intros Hput Hvalid Hbound. unfold AgentLogLevelMore.__del__.
  destruct (size (loglevel s) =? 0)%nat eqn:Hsize; simpl.
  - apply Nat.eqb_eq, map_size_empty_iff in Hsize.
    exists s. split; [done|]. by rewrite Hsize, fmap_empty.
  - destruct (pop_each_accepted fuel (fst <$> map_to_list (loglevel s)) s)
      as (s' & -> & Hs'); try done.
    { intros j Hj. apply list_elem_of_fmap in Hj as ([j' stack] & -> & Hin).
      apply elem_of_map_to_list in Hin. simpl. by rewrite Hin. }
    exists s'. split; [done|]. apply map_eq. intros x.
    rewrite Hs', lookup_fmap.
    destruct (loglevel s !! x) as [stack|] eqn:Hx; simpl.
    + rewrite decide_True; [done|].
      apply list_elem_of_fmap. exists (x, stack). split; [done|].
      by apply elem_of_map_to_list.
    + rewrite decide_False; [done|].
      intros Hj. apply list_elem_of_fmap in Hj as ([j' stack] & -> & Hin).
      apply elem_of_map_to_list in Hin. simpl in Hx. congruence.
Qed.

End LogLevelMore.

(** ** Backups *)

Section BackupMore.
Import Py Backup.
Context (w : Backup.world).

(** No state is both a running state and the state of a finished report. *)
Lemma running_not_final (x : value) : running x && is_final x = false.
Proof.
  destruct x as [| | | |t| |]; try reflexivity.
  unfold running, is_final. simpl.
  repeat match goal with
  | |- context [String.eqb t ?c] =>
      let E := fresh in
      destruct (String.eqb t c) eqn:E;
      [apply String.eqb_eq in E; subst t; reflexivity|]
  end.
  reflexivity.
Qed.

(** [from_dict] never builds a backup: whatever the body, it raises; and
    when the body has every key that is read, the exception is the
    [AttributeError] of [config.id] on the decoded [BackupId]. *)
Theorem from_dict_always_raises (body : value) :
  (exists e, from_dict body = Raise e) /\
  (forall i args, subscript body "BackupId" = Ok i ->
     _args_from_dict body = Ok args -> from_dict body = Raise AttributeError).
Proof.
  unfold from_dict. split.
  - destruct (subscript body "BackupId") as [i|e]; simpl; [|by eexists].
    destruct (_args_from_dict body) as [args|e]; simpl; by eexists.
  - intros i args -> ->. reflexivity.
Qed.

(** [wait_for_completion] returns at the first report whose state is final:
    when the first [n] reports are delivered and not final and the next one
    is final, it returns after [n + 1] report requests and [n] sleeps of the
    poll interval. *)
Theorem wait_returns_at_first_final (fuel n : nat) (interval : Z)
    (s : state) (code : Z) (report_state : value) :
  reports_pending w s n ->
  report_reply w (reports s + n) = (code, Ok report_state) ->
  is_error_status code = false ->
  is_final report_state = true ->
  (n < fuel)%nat ->
  wait_for_completion w fuel interval s =
    (Returns tt,
     State (this s) (posts s) (reports s + S n)
           (slept s + Z.of_nat n * interval)).
Proof.
  revert fuel s.
  induction n as [|n IH]; intros fuel s Hpend Hreply Hok Hfin Hfuel.
  - destruct fuel as [|fuel]; [lia|]. simpl. unfold _is_done.
    rewrite Nat.add_0_r in Hreply. rewrite Hreply, Hok, Hfin. f_equal.
    destruct s; simpl; f_equal; lia.
  - destruct fuel as [|fuel]; [lia|]. simpl. unfold _is_done.
    destruct (Hpend 0%nat ltac:(lia)) as (c0 & st0 & H0 & Hc0 & Hst0).
    rewrite Nat.add_0_r in H0. rewrite H0, Hc0, Hst0. simpl.
    rewrite (IH fuel _); simpl.
    + f_equal. f_equal; rewrite ?Nat2Z.inj_succ; lia.
    + intros k Hk. simpl. rewrite <- Nat.add_succ_r. apply Hpend. lia.
    + by rewrite <- Nat.add_succ_r.
    + done.
    + done.
    + lia.
Qed.

(** A report request that is answered with an error status ends the wait
    with the [HTTPError], after as many sleeps as reports were not final. *)
Theorem wait_raises_at_first_error (fuel n : nat) (interval : Z)
    (s : state) :
  reports_pending w s n ->
  is_error_status (fst (report_reply w (reports s + n))) = true ->
  (n < fuel)%nat ->
  wait_for_completion w fuel interval s =
    (Raises (HTTPError (fst (report_reply w (reports s + n)))),
     State (this s) (posts s) (reports s + S n)
           (slept s + Z.of_nat n * interval)).
Proof.
  revert fuel s. induction n as [|n IH]; intros fuel s Hpend Herr Hfuel.
  - destruct fuel as [|fuel]; [lia|]. simpl. unfold _is_done.
    rewrite Nat.add_0_r in *.
    destruct (report_reply w (reports s)) as [code st]; simpl in *.
    rewrite Herr. f_equal.
    destruct s; simpl; f_equal; lia.
  - destruct fuel as [|fuel]; [lia|]. simpl. unfold _is_done.
    destruct (Hpend 0%nat ltac:(lia)) as (c0 & st0 & H0 & Hc0 & Hst0).
    rewrite Nat.add_0_r in H0. rewrite H0, Hc0, Hst0. simpl.
    rewrite IH; simpl.
    + rewrite <- Nat.add_succ_r.
      f_equal. f_equal; rewrite ?Nat2Z.inj_succ; lia.
    + intros k Hk. simpl. rewrite <- Nat.add_succ_r. apply Hpend. lia.
    + by rewrite <- Nat.add_succ_r.
    + lia.
Qed.

(** [wait_for_completion] has no deadline of its own: while every report
    is delivered and none is final, no number of rounds brings it to an
    end, and each round sleeps once. *)
Theorem wait_has_no_deadline (interval : Z) (s : state) :
  (forall n, reports_pending w s n) ->
  forall fuel,
    wait_for_completion w fuel interval s =
      (OutOfFuel,
       State (this s) (posts s) (reports s + fuel)
             (slept s + Z.of_nat fuel * interval)).
Proof.
  intros Hpend fuel. revert s Hpend.
  induction fuel as [|fuel IH]; intros s Hpend.
  - simpl. f_equal. destruct s; simpl; f_equal; lia.
  - simpl. unfold _is_done.
    destruct (Hpend 1%nat 0%nat ltac:(lia)) as (c0 & st0 & H0 & Hc0 & Hst0).
    rewrite Nat.add_0_r in H0. rewrite H0, Hc0, Hst0. simpl.
    rewrite IH; simpl.
    + f_equal. f_equal; rewrite ?Nat2Z.inj_succ; lia.
    + intros n k Hk. simpl. rewrite <- Nat.add_succ_r.
      apply (Hpend (S n)). lia.
Qed.

(** [start] marks the backup as preparing before it reads the id out of
    the reply: when the request is accepted but the body is not an
    integer, [start] raises the exception of [int], yet the backup is left
    in a running state, with the id it had and without the pause. *)
Theorem start_marks_preparing_before_reading_id (s : state) (code : Z)
    (e : exn) :
  post_reply w (posts s) = (code, Raise e) ->
  is_error_status code = false ->
  exists s',
    start w s = (Raises (Error e), s') /\
    _state (this s') = Some (PStr "Preparing") /\
    running (PStr "Preparing") = true /\
    id (this s') = id (this s) /\
    slept s' = slept s /\ posts s' = S (posts s).
Proof.
  intros Hreply Hok. unfold start, start_action. rewrite Hreply, Hok.
  eexists. split; [reflexivity|]. simpl. done.
Qed.

(** A start request answered with an error status changes nothing in the
    backup: [start] raises the [HTTPError], the state and the id are the
    ones before the call, and there is no pause. *)
Theorem refused_start_changes_nothing (s : state) :
  is_error_status (fst (post_reply w (posts s))) = true ->
  start w s =
    (Raises (HTTPError (fst (post_reply w (posts s)))),
     State (this s) (S (posts s)) (reports s) (slept s)).
Proof.
  intros Herr. unfold start, start_action.
  destruct (post_reply w (posts s)) as [code content]; simpl in *.
  by rewrite Herr.
Qed.

End BackupMore.

(** ** Details and configurations of agents *)

Section DetailsMore.
Import Py AgentsApi.
Context (w : AgentsApi.world).

Lemma check_complete (details : value) (props : list string) :
  AgentDetails.check details props = Ok tt ->
  forall key, key ∈ props -> exists x, subscript details key = Ok x.
Proof.
  induction props as [|p rest IH]; simpl; intros Hc key Hin.
  - by apply elem_of_nil in Hin.
  - destruct (subscript details p) as [x|e] eqn:E; simpl in Hc; [|done].
    apply elem_of_cons in Hin as [->|Hin]; [by exists x|by apply IH].
Qed.

(** The details cache holds one agent at most: after [GetAgentDetails] for
    one agent, however it ended, the details of every other agent are
    gone, also those retrieved before. *)
Theorem details_of_other_agents_are_dropped (i j : AgentId)
    (s s' : state) (o : outcome bool) :
  GetAgentDetails w i s = (o, s') ->
  j <> i ->
  AgentDetails j s' = (Raises AgentDetailsNotAvailable, s').
Proof.
  unfold GetAgentDetails, AgentDetails. intros H Hne.
  assert (agents s' !! j = None) as ->; [|done].
  destruct (Rse.status_code _ =? 200)%Z.
  - destruct (Rse.json_body _) as [body|].
    + destruct (AgentDetails.__init__ body) as [d|e];
        inversion H; subst; simpl.
      * by rewrite lookup_insert_ne.
      * done.
    + inversion H; subst; done.
  - inversion H; subst; done.
Qed.

(** A request for details that does not return [True] leaves no details
    at all, not even those the same agent had before the call. *)
Theorem failed_details_request_empties_cache (i j : AgentId)
    (s s' : state) (o : outcome bool) :
  GetAgentDetails w i s = (o, s') ->
  o <> Returns true ->
  AgentDetails j s' = (Raises AgentDetailsNotAvailable, s').
Proof.
  unfold GetAgentDetails, AgentDetails. intros H Hne.
  assert (agents s' !! j = None) as ->; [|done].
  destruct (Rse.status_code _ =? 200)%Z.
  - destruct (Rse.json_body _) as [body|].
    + destruct (AgentDetails.__init__ body) as [d|e];
        inversion H; subst; simpl; done.
    + inversion H; subst; done.
  - inversion H; subst; done.
Qed.

(** Details that [GetAgentDetails] stored are the body of the reply and
    have each of the eighteen properties: no accessor of the object handed
    out by [AgentDetails] raises. *)
Theorem stored_details_are_complete (i : AgentId) (s s' : state) :
  GetAgentDetails w i s = (Returns true, s') ->
  exists details,
    Rse.json_body (reply w (length (sent s))) = Some details /\
    AgentDetails i s' = (Returns details, s') /\
    forall key, key ∈ AgentDetails.required ->
      exists x, AgentDetails.accessor key details = Ok x.
Proof.
  unfold GetAgentDetails, AgentDetails. intros H.
  destruct (Rse.status_code _ =? 200)%Z; [|done].
  destruct (Rse.json_body _) as [body|]; [|done].
  unfold AgentDetails.__init__ in H.
  destruct (AgentDetails.check body AgentDetails.required) as [[]|e] eqn:E;
    simpl in H; [|done].
  inversion H; subst; simpl. exists body. split; [done|].
  rewrite lookup_insert_eq. split; [done|].
  intros key Hin. unfold AgentDetails.accessor.
  by apply (check_complete _ _ E).
Qed.

(** Configurations accumulate: [GetAgentConfiguration] for one agent
    leaves the configurations of the others and all details as they were,
    and when it does not return [True] it changes no configuration. *)
Theorem configurations_accumulate (i : AgentId) (s s' : state)
    (o : outcome bool) :
  GetAgentConfiguration w i s = (o, s') ->
  agents s' = agents s /\
  (forall j, j <> i -> AgentConfiguration j s' =
     (fst (AgentConfiguration j s), s')) /\
  (o <> Returns true -> configurations s' = configurations s).
Proof.
  unfold GetAgentConfiguration, AgentConfiguration. intros H.
  destruct (Rse.status_code _ =? 200)%Z.
  - destruct (Rse.json_body _) as [body|]; inversion H; subst; simpl.
    + split; [done|]. split; [|done].
      intros j Hj. rewrite lookup_insert_ne by done.
      by destruct (configurations s !! j).
    + split; [done|]. split; [|done].
      intros j Hj. by destruct (configurations s !! j).
  - inversion H; subst; simpl.
    split; [done|]. split; [|done].
    intros j Hj. by destruct (configurations s !! j).
Qed.

Lemma remove_each_all (l ids acc : list value) (s : state) :
  Forall2 (fun a id => subscript a "MachineAgentId" = Ok id) l ids ->
  exists r s',
    remove_each w l acc s = (Returns (acc ++ r), s') /\
    sent s' = sent s ++ (PostDelete <$> ids) /\
    agents s' = agents s /\ configurations s' = configurations s /\
    sublist r ids /\
    (forall k id, ids !! k = Some id ->
       Rse.status_code (reply w (length (sent s) + k)) = 204 -> id ∈ r) /\
    (forall id, id ∈ r ->
       exists k, ids !! k = Some id /\
         Rse.status_code (reply w (length (sent s) + k)) = 204).
Proof.
  intros H. revert acc s.
  induction H as [|a id l ids Ha Hl IH]; intros acc s.
  - exists [], s. simpl. rewrite !app_nil_r.
    repeat split; try done.
    + intros id Hin. by apply elem_of_nil in Hin.
  - simpl. rewrite Ha. unfold RemoveAgent.
    destruct (Rse.status_code (reply w (length (sent s))) =? 204)%Z eqn:E.
    + destruct (IH (acc ++ [id])
                  (State (agents s) (configurations s)
                     (sent s ++ [PostDelete id])))
        as (r & s' & Hrun & Hsent & Hag & Hcf & Hsub & Hin & Hout).
      simpl in *. exists (id :: r), s'.
      rewrite Hrun, <- app_assoc. simpl.
      split; [done|]. split; [by rewrite Hsent, <- app_assoc|].
      split; [done|]. split; [done|].
      split; [by apply sublist_skip|].
      split.
      * intros [|k] id' Hk Hst; simpl in Hk.
        -- inversion Hk; subst. apply list_elem_of_here.
        -- apply list_elem_of_further. apply (Hin k); [done|].
           rewrite length_app. simpl.
           by replace (length (sent s) + 1 + k)%nat
             with (length (sent s) + S k)%nat by lia.
      * intros id' Hid. apply elem_of_cons in Hid as [->|Hid].
        -- exists 0%nat. split; [done|].
           rewrite Nat.add_0_r. by apply Z.eqb_eq.
        -- destruct (Hout id' Hid) as (k & Hk & Hst).
           exists (S k). split; [done|].
           rewrite length_app in Hst. simpl in Hst.
           by replace (length (sent s) + S k)%nat
             with (length (sent s) + 1 + k)%nat by lia.
    + destruct (IH acc
                  (State (agents s) (configurations s)
                     (sent s ++ [PostDelete id])))
        as (r & s' & Hrun & Hsent & Hag & Hcf & Hsub & Hin & Hout).
      simpl in *. exists r, s'.
      rewrite Hrun.
      split; [done|]. split; [by rewrite Hsent, <- app_assoc|].
      split; [done|]. split; [done|].
      split; [by apply sublist_cons|].
      split.
      * intros [|k] id' Hk Hst; simpl in Hk.
        -- rewrite Nat.add_0_r in Hst. apply Z.eqb_neq in E. done.
        -- apply (Hin k); [done|].
           rewrite length_app. simpl.
           by replace (length (sent s) + 1 + k)%nat
             with (length (sent s) + S k)%nat by lia.
      * intros id' Hid.
        destruct (Hout id' Hid) as (k & Hk & Hst).
        exists (S k). split; [done|].
        rewrite length_app in Hst. simpl in Hst.
        by replace (length (sent s) + S k)%nat
          with (length (sent s) + 1 + k)%nat by lia.
Qed.

(** [RemoveAllAgentsForHost] on a list whose entries all have a
    [MachineAgentId] returns; it sends one removal per entry, in the order
    of the list, whatever the replies, and the ids it returns are, in that
    order, exactly those whose removal was answered with 204. *)
Theorem remove_all_reports_the_204s (l ids : list value) (s : state) :
  Forall2 (fun a id => subscript a "MachineAgentId" = Ok id) l ids ->
  exists r s',
    RemoveAllAgentsForHost w l s = (Returns r, s') /\
    sent s' = sent s ++ (PostDelete <$> ids) /\
    sublist r ids /\
    (forall k id, ids !! k = Some id ->
       Rse.status_code (reply w (length (sent s) + k)) = 204 -> id ∈ r) /\
    (forall id, id ∈ r ->
       exists k, ids !! k = Some id /\
         Rse.status_code (reply w (length (sent s) + k)) = 204).
Proof.
  intros H. unfold RemoveAllAgentsForHost.
  destruct (remove_each_all l ids [] s H)
    as (r & s' & Hrun & Hsent & _ & _ & Hsub & Hin & Hout).
  exists r, s'. simpl in Hrun. done.
Qed.

Lemma remove_each_broken (before after ids acc : list value) (bad : value)
    (e : exn) (s : state) :
  Forall2 (fun a id => subscript a "MachineAgentId" = Ok id) before ids ->
  subscript bad "MachineAgentId" = Raise e ->
  exists s',
    remove_each w (before ++ bad :: after) acc s = (Raises (Error e), s') /\
    sent s' = sent s ++ (PostDelete <$> ids).
Proof.
  intros H Hbad. revert acc s.
  induction H as [|a id l ids' Ha Hl IH]; intros acc s.
  - simpl. rewrite Hbad. exists s. by rewrite app_nil_r.
  - simpl. rewrite Ha. unfold RemoveAgent.
    destruct (Rse.status_code (reply w (length (sent s))) =? 204)%Z.
    + destruct (IH (acc ++ [id])
                  (State (agents s) (configurations s)
                     (sent s ++ [PostDelete id]))) as (s' & Hrun & Hsent).
      exists s'. split; [done|]. simpl in Hsent.
      by rewrite Hsent, <- app_assoc.
    + destruct (IH acc
                  (State (agents s) (configurations s)
                     (sent s ++ [PostDelete id]))) as (s' & Hrun & Hsent).
      exists s'. split; [done|]. simpl in Hsent.
      by rewrite Hsent, <- app_assoc.
Qed.

(** An entry without [MachineAgentId] aborts [RemoveAllAgentsForHost] with
    the exception of the lookup, after the removal of every entry before it
    has been sent: the list of the agents removed so far is lost, and no
    entry after it is tried. *)
Theorem remove_all_aborts_midway (before after ids : list value)
    (bad : value) (e : exn) (s : state) :
  Forall2 (fun a id => subscript a "MachineAgentId" = Ok id) before ids ->
  subscript bad "MachineAgentId" = Raise e ->
  exists s',
    RemoveAllAgentsForHost w (before ++ bad :: after) s =
      (Raises (Error e), s') /\
    sent s' = sent s ++ (PostDelete <$> ids).
Proof.
  intros H Hbad. unfold RemoveAllAgentsForHost.
  by apply remove_each_broken.
Qed.

End DetailsMore.

(** ** Agent configurations *)

Section ConfigurationMore.
Import Py PyMore AgentConfiguration.

Lemma first_match_none (key : string) (wanted : value) (l : list value) :
  Forall (fun c => exists x, subscript c key = Ok x /\
                             py_eq x wanted = false) l ->
  first_match key wanted l = Ok (PDict []).
Proof.
  induction 1 as [|c l (x & Hx & Hne) _ IH]; simpl; [done|].
  rewrite Hx. simpl. by rewrite Hne.
Qed.

Lemma first_match_found (key : string) (wanted c x : value)
    (before after : list value) :
  Forall (fun c' => exists x', subscript c' key = Ok x' /\
                               py_eq x' wanted = false) before ->
  subscript c key = Ok x ->
  py_eq x wanted = true ->
  first_match key wanted (before ++ c :: after) = Ok c.
Proof.
  intros Hb Hx Heq.
  induction Hb as [|c' l (x' & Hx' & Hne) _ IH]; simpl.
  - rewrite Hx. simpl. by rewrite Heq.
  - rewrite Hx'. simpl. by rewrite Hne.
Qed.

(** [GetBackupConfigurationByName] returns the first configuration of the
    list whose [Name] equals the name asked for, whatever comes after it:
    later configurations are not looked at, so neither a second one of that
    name nor a malformed one matters. *)
Theorem configuration_by_name_is_first_match (cfg name c x : value)
    (before after : list value) :
  BackupConfigurations cfg = Ok (PList (before ++ c :: after)) ->
  Forall (fun c' => exists x', subscript c' "Name" = Ok x' /\
                               py_eq x' name = false) before ->
  subscript c "Name" = Ok x ->
  py_eq x name = true ->
  GetBackupConfigurationByName cfg name = Ok c.
Proof.
  intros Hc Hb Hx Heq. unfold GetBackupConfigurationByName.
  rewrite Hc. simpl. by apply (first_match_found _ _ _ x).
Qed.

(** For a backup name that no configuration has,
    [GetBackupConfigurationByName] returns the empty dict,
    [GetVaultDbPath] logs an error and returns the empty string, and
    [GetVaultDbContainer], which has no handler, raises [KeyError]. *)
Theorem unknown_backup_name (cfg name : value) (confs : list value) :
  BackupConfigurations cfg = Ok (PList confs) ->
  Forall (fun c => exists x, subscript c "Name" = Ok x /\
                             py_eq x name = false) confs ->
  name <> PNone ->
  GetBackupConfigurationByName cfg name = Ok (PDict []) /\
  GetVaultDbPath cfg name = (Ok EmptyString, [ErrorVolumeUri]) /\
  GetVaultDbContainer cfg name = (Raise KeyError, []).
Proof.
  intros Hc Hno Hname.
  assert (Hby : GetBackupConfigurationByName cfg name = Ok (PDict [])).
  { unfold GetBackupConfigurationByName. rewrite Hc. simpl.
    by apply first_match_none. }
  split; [done|].
  unfold GetVaultDbPath, vault_db_path, GetVaultDbContainer.
  destruct name; try done; rewrite Hby; done.
Qed.

Lemma last_match_none (uri acc : value) (l : list value) :
  Forall (fun v' => exists x', subscript v' "Uri" = Ok x' /\
                               py_eq x' uri = false) l ->
  last_match uri l acc = Ok acc.
Proof.
  induction 1 as [|v' l (x' & Hx' & Hne) _ IH]; simpl; [done|].
  rewrite Hx'. simpl. by rewrite Hne.
Qed.

Lemma last_match_last (uri v x acc : value) (before after : list value) :
  Forall (fun v' => exists x', subscript v' "Uri" = Ok x') before ->
  subscript v "Uri" = Ok x ->
  py_eq x uri = true ->
  Forall (fun v' => exists x', subscript v' "Uri" = Ok x' /\
                               py_eq x' uri = false) after ->
  last_match uri (before ++ v :: after) acc = Ok v.
Proof.
  intros Hb Hx Heq Ha. revert acc.
  induction Hb as [|v' l (x' & Hx') _ IH]; intros acc; simpl.
  - rewrite Hx. simpl. rewrite Heq. by apply last_match_none.
  - rewrite Hx'. simpl. apply IH.
Qed.

(** When several volumes carry the URI of the named backup configuration,
    [GetVaultDbPath] builds the path from the last of them in the list. *)
Theorem vault_path_uses_last_matching_volume (cfg name backupconfig uri v x
    : value) (vault_id : string) (before after : list value) :
  name <> PNone ->
  GetBackupConfigurationByName cfg name = Ok backupconfig ->
  subscript backupconfig "VolumeUri" = Ok uri ->
  Volumes cfg = Ok (PList (before ++ v :: after)) ->
  Forall (fun v' => exists x', subscript v' "Uri" = Ok x') before ->
  subscript v "Uri" = Ok x ->
  py_eq x uri = true ->
  Forall (fun v' => exists x', subscript v' "Uri" = Ok x' /\
                               py_eq x' uri = false) after ->
  subscript v "BackupVaultId" = Ok (PStr vault_id) ->
  GetVaultDbPath cfg name =
    (Ok (String.append "BACKUPS/v2.0/" vault_id),
     [DebugVaultDbPath (String.append "BACKUPS/v2.0/" vault_id)]).
Proof.
  intros Hname Hby Huri Hvols Hb Hx Heq Ha Hid.
  unfold GetVaultDbPath, vault_db_path.
  assert (Hlast := last_match_last uri v x (PDict []) before after
                     Hb Hx Heq Ha).
  destruct name; try done;
    rewrite Hby; simpl; rewrite Huri; simpl; rewrite Hvols; simpl;
    rewrite Hlast; simpl; rewrite Hid; done.
Qed.

Lemma prefix_append (a b : string) :
  String.prefix a (String.append a b) = true.
Proof.
  induction a as [|c a IH]; simpl; [by destruct b|].
  by destruct (Ascii.ascii_dec c c).
Qed.

(** [GetVaultDbPath] never lets a [KeyError] or an [IndexError] out, and
    it returns the empty string exactly when it caught one: every other
    result starts with [BACKUPS/v2.0/]. *)
Theorem vault_path_empty_iff_lookup_failed (cfg name : value) :
  (forall e, fst (GetVaultDbPath cfg name) = Raise e ->
     is_LookupError e = false) /\
  (fst (GetVaultDbPath cfg name) = Ok EmptyString <->
     snd (GetVaultDbPath cfg name) = [ErrorVolumeUri]) /\
  (forall path, fst (GetVaultDbPath cfg name) = Ok path ->
     path = EmptyString \/ String.prefix "BACKUPS/v2.0/" path = true).
Proof.
  unfold GetVaultDbPath.
  destruct (vault_db_path cfg name) as [path|e] eqn:E.
  - assert (Hp : String.prefix "BACKUPS/v2.0/" path = true).
    { unfold vault_db_path in E.
      destruct (match name with PNone => _ | _ => _ end) as [vol|e];
        simpl in E; [|done].
      destruct (subscript vol "BackupVaultId") as [x|e]; simpl in E; [|done].
      destruct x; simpl in E; try done.
      inversion E; subst. apply prefix_append. }
    simpl. split; [done|]. split.
    + split; [|done]. intros H. inversion H; subst. done.
    + intros p H. inversion H; subst. by right.
  - destruct (is_LookupError e) eqn:L; simpl.
    + split; [done|]. split; [done|].
      intros p H. inversion H. by left.
    + split; [intros e' H; by inversion H; subst|].
      split; [split; done|done].
Qed.

End ConfigurationMore.

(** ** The further properties on small inputs *)

Section MoreWitnesses.
Import Py.

Lemma wake_starts_task_iff_witness :
  let s' := snd (Agents.WakeSpecificAgent Py2 Scenario.awake 5 (IdInt 42) 5000
                   true None Agents.init) in
  exists p,
    Agents.threads s' =
      Agents.threads Agents.init ++
        [Agents.Thread (Agents.events_made Agents.init) (IdInt 42) p true] /\
    Agents.wake_agent_threads s' =
      Agents.wake_agent_threads Agents.init ++
        [Agents.Entry (IdInt 42) (Some (Agents.events_made Agents.init))
           (Some (length (Agents.threads Agents.init)))].
Proof.
  intros s'.
  apply (wake_starts_task_iff Py2 Scenario.awake 5 (IdInt 42) 5000 true None
           true Agents.init s').
  by vm_compute.
Defined.

Lemma start_then_stop_restores_witness :
  let s := snd (Agents.KeepAgentAwake (IdInt 2) 70 Agents.init) in
  exists s1 s2,
    Agents.KeepAgentAwake (IdInt 1) 70 s = (Agents.Done tt, s1) /\
    Agents.StopKeepAgentWake (IdInt 1)
      (if true then Agents.task_raises (length (Agents.threads s)) s1 else s1)
      = (Agents.Done tt, s2) /\
    Agents.wake_agent_threads s2 = Agents.wake_agent_threads s /\
    Agents.threads s2 =
      Agents.threads s ++
        [Agents.Thread (Agents.events_made s) (IdInt 1) 70 false] /\
    (Agents.events_made s ∈ Agents.events_set s2 <-> true = true).
Proof.
  intros s.
  apply (start_then_stop_restores (IdInt 1) 70 s true).
  repeat constructor. by vm_compute.
Defined.

Lemma reachable_one_task_per_id_witness :
  let s := Agents.task_raises 0
             (snd (Agents.KeepAgentAwake (IdInt 2) 70
                     (snd (Agents.KeepAgentAwake (IdInt 1) 70 Agents.init)))) in
  NoDup (Agents.id <$> Agents.wake_agent_threads s) /\
  NoDup (Agents.terminator <$> Agents.wake_agent_threads s) /\
  Forall (Agents.task_of s) (Agents.wake_agent_threads s).
Proof.
  intros s.
  apply (reachable_one_task_per_id Py2 Scenario.awake s).
  apply (Agents.reachable_task_raises Py2 Scenario.awake _ 0%nat
           (Agents.Thread 0 (IdInt 1) 70 true)).
  - apply (Agents.reachable_call Py2 Scenario.awake
             (snd (Agents.KeepAgentAwake (IdInt 1) 70 Agents.init))
             (Agents.CallKeepAgentAwake (IdInt 2) 70)).
    + apply (Agents.reachable_call Py2 Scenario.awake Agents.init
               (Agents.CallKeepAgentAwake (IdInt 1) 70)).
      * apply Agents.reachable_init.
      * by vm_compute.
    + by vm_compute.
  - reflexivity.
  - reflexivity.
Defined.

Lemma stop_removes_the_task_witness :
  let s := Agents.task_raises 0
             (snd (Agents.KeepAgentAwake (IdInt 2) 70
                     (snd (Agents.KeepAgentAwake (IdInt 1) 70 Agents.init)))) in
  exists s',
    Agents.StopKeepAgentWake (IdInt 1) s = (Agents.Done tt, s') /\
    Agents.wake_agent_threads s' =
      filter (fun a => Agents.id a <> IdInt 1) (Agents.wake_agent_threads s) /\
    forall a, a ∈ Agents.wake_agent_threads s -> Agents.id a = IdInt 1 ->
      exists e t th th',
        Agents.terminator a = Some e /\ Agents.thread_of a = Some t /\
        Agents.threads s !! t = Some th /\
        Agents.threads s' !! t = Some th' /\ Agents.alive th' = false /\
        (e ∈ Agents.events_set s' <-> Agents.alive th = false).
Proof.
  intros s.
  apply (stop_removes_the_task Py2 Scenario.awake s (IdInt 1)).
  apply (Agents.reachable_task_raises Py2 Scenario.awake _ 0%nat
           (Agents.Thread 0 (IdInt 1) 70 true)).
  - apply (Agents.reachable_call Py2 Scenario.awake
             (snd (Agents.KeepAgentAwake (IdInt 1) 70 Agents.init))
             (Agents.CallKeepAgentAwake (IdInt 2) 70)).
    + apply (Agents.reachable_call Py2 Scenario.awake Agents.init
               (Agents.CallKeepAgentAwake (IdInt 1) 70)).
      * apply Agents.reachable_init.
      * by vm_compute.
    + by vm_compute.
  - reflexivity.
  - reflexivity.
Defined.

Lemma wake_ends_in_time_witness :
  let r := Agents.WakeSpecificAgent Py2 Scenario.unanswered 10 (IdInt 42) 5
             true None Agents.init in
  AgentsNotions.ended (fst r) /\
  Z.of_nat (Agents.posts (snd r))
    <= Z.of_nat (Agents.posts Agents.init) + Z.max 0 5 /\
  Z.of_nat (Agents.polls (snd r))
    <= Z.of_nat (Agents.polls Agents.init) + Z.max 0 5.
Proof.
  apply (wake_ends_in_time Py2 Scenario.unanswered 10 (IdInt 42) 5 true None
           Agents.init).
  - intros k. simpl. unfold Scenario.ticking. lia.
  - lia.
  - lia.
Defined.

Lemma wake_finds_agent_witness :
  exists s',
    Agents.WakeSpecificAgent Py2 Surroundings.late 10 (IdInt 42) 9000 false
      None Agents.init = (Agents.Done true, s') /\
    Agents.posts s' = (Agents.posts Agents.init + 1 + 1)%nat /\
    Agents.polls s' = (Agents.polls Agents.init + 2 + 1)%nat.
Proof.
  apply (wake_finds_agent Py2 Surroundings.late 10 (IdInt 42) 9000
           Agents.init 1 2).
  - lia.
  - lia.
  - intros m Hm. simpl. unfold Scenario.ticking. lia.
  - intros m Hm. assert (m = 0%nat) as -> by lia. by vm_compute.
  - by vm_compute.
  - intros m Hm. simpl. unfold Scenario.ticking. lia.
  - intros m Hm.
    assert (m = 0%nat \/ m = 1%nat) as [-> | ->] by lia; by vm_compute.
  - by vm_compute.
Defined.

Lemma push_then_pop_restores_witness :
  let s := AgentLogLevel.State {[IdInt 1 := ["Info"]]} 0 0 [] in
  exists s1 s2,
    AgentLogLevel.PushLogLevel Scenario.obliging (IdInt 1) (PStr "Debug") s
      = (Ok tt, s1) /\
    AgentLogLevel.PopLogLevel Scenario.obliging (IdInt 1) s1 = (Ok tt, s2) /\
    AgentLogLevel.loglevel s2
      = <[IdInt 1 := AgentLogLevelMore.saved (IdInt 1) s]>
          (AgentLogLevel.loglevel s) /\
    AgentLogLevel.trace s2
      = AgentLogLevel.trace s ++
          [AgentLogLevel.InfoRestored (IdInt 1)
             (AgentLogLevel.remove_quotes "Warn")].
Proof.
  intros s.
  apply (push_then_pop_restores Scenario.obliging (IdInt 1) (PStr "Debug") s
           "Warn"); by vm_compute.
Defined.

Lemma failed_get_poisons_stack_witness :
  let s := AgentLogLevel.State ∅ 0 0 [] in
  let r := AgentLogLevel.PushLogLevel Surroundings.silent (IdInt 1)
             (PStr "Debug") s in
  fst r = Ok tt /\
  AgentLogLevel.HasLogLevels (IdInt 1) (snd r) = true /\
  forall w', AgentLogLevel.PopLogLevel w' (IdInt 1) (snd r)
             = (Raise ValueError, snd r).
Proof.
  intros s.
  apply (failed_get_poisons_stack Surroundings.silent (IdInt 1) (PStr "Debug")
           s 404 "Not Found"); by vm_compute.
Defined.

Lemma push_invalid_level_saves_anyway_witness :
  let s := AgentLogLevel.State ∅ 0 0 [] in
  let r := AgentLogLevel.PushLogLevel Scenario.obliging (IdInt 1)
             (PStr "Loud") s in
  fst r = Raise ValueError /\
  AgentLogLevel.loglevel (snd r) !! IdInt 1
    = Some (AgentLogLevelMore.saved (IdInt 1) s ++
              [if 200 =? 200 then AgentLogLevel.remove_quotes "Warn"
               else EmptyString]) /\
  AgentLogLevel.gets (snd r) = S (AgentLogLevel.gets s) /\
  AgentLogLevel.puts (snd r) = AgentLogLevel.puts s.
Proof.
  intros s.
  apply (push_invalid_level_saves_anyway Scenario.obliging (IdInt 1)
           (PStr "Loud") s 200 "Warn"); by vm_compute.
Defined.


Lemma teardown_of_levels_empties_witness :
  let s := AgentLogLevel.State {[IdInt 1 := ["Info"; "Debug"]]} 0 0 [] in
  exists s',
    AgentLogLevelMore.__del__ Scenario.obliging 5 s
    = AgentLogLevelMore.Restored s' /\
    AgentLogLevel.loglevel s' = (fun _ => []) <$> AgentLogLevel.loglevel s.
Proof.
  intros s.
  apply (teardown_of_levels_empties Scenario.obliging
           (AgentLogLevel.State {[IdInt 1 := ["Info"; "Debug"]]} 0 0 []) 5).
  - intros k. by vm_compute.
  - intros i stack level Hi Hin. simpl in Hi.
    apply lookup_singleton_Some in Hi as [_ <-].
    apply elem_of_cons in Hin as [->|Hin]; [by vm_compute|].
    apply list_elem_of_singleton in Hin as ->. by vm_compute.
  - intros j stack Hj. simpl in Hj.
    apply lookup_singleton_Some in Hj as [_ <-]. simpl. lia.
Defined.

Lemma from_dict_always_raises_witness :
  let body :=
    PDict [("BackupId", PInt 7); ("BackupConfigurationId", PInt 12);
           ("CurrentState", PStr "Queued"); ("MachineAgentId", PInt 42);
           ("MachineName", PStr "web1");
           ("EncryptionKey",
            PDict [("ModulusHex", PStr "c0ffee");
                   ("ExponentHex", PStr "10001")])] in
  Backup.from_dict body = Raise AttributeError.
Proof.
  intros body.
  refine (proj2 (from_dict_always_raises body) (PInt 7) _ _ _).
  - reflexivity.
  - reflexivity.
Defined.

Lemma wait_returns_at_first_final_witness :
  Backup.wait_for_completion Surroundings.finishing 5 60
    Surroundings.fresh_backup =
  (Backup.Returns tt,
   Backup.State (Backup.this Surroundings.fresh_backup)
     (Backup.posts Surroundings.fresh_backup)
     (Backup.reports Surroundings.fresh_backup + 3)
     (Backup.slept Surroundings.fresh_backup + Z.of_nat 2 * 60)).
Proof.
  apply (wait_returns_at_first_final Surroundings.finishing 5 2 60
           Surroundings.fresh_backup 200 (PStr "Completed")).
  - intros k Hk. exists 200, (PStr "InProgress").
    assert (k = 0%nat \/ k = 1%nat) as [-> | ->] by lia; by vm_compute.
  - reflexivity.
  - reflexivity.
  - reflexivity.
  - lia.
Defined.

Lemma wait_raises_at_first_error_witness :
  Backup.wait_for_completion Surroundings.failing 5 60
    Surroundings.fresh_backup =
  (Backup.Raises
     (Backup.HTTPError
        (fst (Backup.report_reply Surroundings.failing
                (Backup.reports Surroundings.fresh_backup + 1)))),
   Backup.State (Backup.this Surroundings.fresh_backup)
     (Backup.posts Surroundings.fresh_backup)
     (Backup.reports Surroundings.fresh_backup + 2)
     (Backup.slept Surroundings.fresh_backup + Z.of_nat 1 * 60)).
Proof.
  apply (wait_raises_at_first_error Surroundings.failing 5 1 60
           Surroundings.fresh_backup).
  - intros k Hk. exists 200, (PStr "InProgress").
    assert (k = 0%nat) as -> by lia. by vm_compute.
  - by vm_compute.
  - lia.
Defined.

Lemma wait_has_no_deadline_witness :
  Backup.wait_for_completion Surroundings.stuck 1000 60
    Surroundings.fresh_backup =
  (Backup.OutOfFuel,
   Backup.State (Backup.this Surroundings.fresh_backup)
     (Backup.posts Surroundings.fresh_backup)
     (Backup.reports Surroundings.fresh_backup + 1000)
     (Backup.slept Surroundings.fresh_backup + Z.of_nat 1000 * 60)).
Proof.
  refine (wait_has_no_deadline Surroundings.stuck 60
            Surroundings.fresh_backup _ 1000%nat).
  intros n k Hk. exists 200, (PStr "InProgress"). by vm_compute.
Defined.

Lemma start_marks_preparing_before_reading_id_witness :
  exists s',
    Backup.start Surroundings.finishing Surroundings.fresh_backup
      = (Backup.Raises (Backup.Error ValueError), s') /\
    Backup._state (Backup.this s') = Some (PStr "Preparing") /\
    Backup.running (PStr "Preparing") = true /\
    Backup.id (Backup.this s')
      = Backup.id (Backup.this Surroundings.fresh_backup) /\
    Backup.slept s' = Backup.slept Surroundings.fresh_backup /\
    Backup.posts s' = S (Backup.posts Surroundings.fresh_backup).
Proof.
  apply (start_marks_preparing_before_reading_id Surroundings.finishing
           Surroundings.fresh_backup 200 ValueError).
  - reflexivity.
  - reflexivity.
Defined.

Lemma refused_start_changes_nothing_witness :
  Backup.start Surroundings.failing Surroundings.fresh_backup =
  (Backup.Raises
     (Backup.HTTPError
        (fst (Backup.post_reply Surroundings.failing
                (Backup.posts Surroundings.fresh_backup)))),
   Backup.State (Backup.this Surroundings.fresh_backup)
     (S (Backup.posts Surroundings.fresh_backup))
     (Backup.reports Surroundings.fresh_backup)
     (Backup.slept Surroundings.fresh_backup)).
Proof.
  apply (refused_start_changes_nothing Surroundings.failing
           Surroundings.fresh_backup).
  reflexivity.
Defined.

Lemma details_of_other_agents_are_dropped_witness :
  let s1 := snd (AgentsApi.GetAgentDetails Surroundings.service (IdInt 1)
                   AgentsApi.init) in
  let s2 := snd (AgentsApi.GetAgentDetails Surroundings.service (IdInt 2)
                   s1) in
  AgentsApi.AgentDetails (IdInt 1) s2
    = (AgentsApi.Raises AgentsApi.AgentDetailsNotAvailable, s2).
Proof.
  intros s1 s2.
  apply (details_of_other_agents_are_dropped Surroundings.service (IdInt 2)
           (IdInt 1) s1 s2 (AgentsApi.Returns false)).
  - by vm_compute.
  - discriminate.
Defined.

Lemma failed_details_request_empties_cache_witness :
  let s1 := snd (AgentsApi.GetAgentDetails Surroundings.service (IdInt 1)
                   AgentsApi.init) in
  let s2 := snd (AgentsApi.GetAgentDetails Surroundings.service (IdInt 1)
                   s1) in
  AgentsApi.AgentDetails (IdInt 1) s1
    = (AgentsApi.Returns (Surroundings.details_of 1), s1) /\
  AgentsApi.AgentDetails (IdInt 1) s2
    = (AgentsApi.Raises AgentsApi.AgentDetailsNotAvailable, s2).
Proof.
  intros s1 s2. split; [by vm_compute|].
  apply (failed_details_request_empties_cache Surroundings.service (IdInt 1)
           (IdInt 1) s1 s2 (AgentsApi.Returns false)).
  - by vm_compute.
  - discriminate.
Defined.

Lemma stored_details_are_complete_witness :
  let s' := snd (AgentsApi.GetAgentDetails Surroundings.service (IdInt 1)
                   AgentsApi.init) in
  exists details,
    Rse.json_body (AgentsApi.reply Surroundings.service
                     (length (AgentsApi.sent AgentsApi.init)))
      = Some details /\
    AgentsApi.AgentDetails (IdInt 1) s' = (AgentsApi.Returns details, s') /\
    forall key, key ∈ AgentDetails.required ->
      exists x, AgentDetails.accessor key details = Ok x.
Proof.
  intros s'.
  apply (stored_details_are_complete Surroundings.service (IdInt 1)
           AgentsApi.init s').
  by vm_compute.
Defined.

Lemma configurations_accumulate_witness :
  let s := AgentsApi.State ∅ {[IdInt 1 := PDict []]}
             [AgentsApi.GetConfiguration (IdInt 1)] in
  let s' := snd (AgentsApi.GetAgentConfiguration Surroundings.service
                   (IdInt 2) s) in
  AgentsApi.AgentConfiguration (IdInt 1) s'
    = (fst (AgentsApi.AgentConfiguration (IdInt 1) s), s') /\
  AgentsApi.configurations s' = AgentsApi.configurations s.
Proof.
  intros s s'.
  destruct (configurations_accumulate Surroundings.service (IdInt 2) s s'
              (AgentsApi.Returns false)) as (_ & Hothers & Hsame).
  - by vm_compute.
  - split.
    + apply Hothers. discriminate.
    + apply Hsame. discriminate.
Defined.

Lemma remove_all_reports_the_204s_witness :
  let l := [Surroundings.details_of 1; Surroundings.details_of 2;
            Surroundings.details_of 3] in
  let ids := [PInt 1; PInt 2; PInt 3] in
  exists r s',
    AgentsApi.RemoveAllAgentsForHost Surroundings.service l AgentsApi.init
      = (AgentsApi.Returns r, s') /\
    AgentsApi.sent s' =
      AgentsApi.sent AgentsApi.init ++ (AgentsApi.PostDelete <$> ids) /\
    sublist r ids /\
    (forall k id, ids !! k = Some id ->
       Rse.status_code
         (AgentsApi.reply Surroundings.service
            (length (AgentsApi.sent AgentsApi.init) + k)) = 204 -> id ∈ r) /\
    (forall id, id ∈ r ->
       exists k, ids !! k = Some id /\
         Rse.status_code
           (AgentsApi.reply Surroundings.service
              (length (AgentsApi.sent AgentsApi.init) + k)) = 204).
Proof.
  intros l ids.
  apply (remove_all_reports_the_204s Surroundings.service l ids
           AgentsApi.init).
  repeat constructor.
Defined.

Lemma remove_all_aborts_midway_witness :
  exists s',
    AgentsApi.RemoveAllAgentsForHost Surroundings.service
      ([Surroundings.details_of 1; Surroundings.details_of 2] ++
         PDict [("MachineName", PStr "web1")] :: [Surroundings.details_of 3])
      AgentsApi.init
      = (AgentsApi.Raises (AgentsApi.Error KeyError), s') /\
    AgentsApi.sent s' =
      AgentsApi.sent AgentsApi.init ++
        (AgentsApi.PostDelete <$> [PInt 1; PInt 2]).
Proof.
  apply (remove_all_aborts_midway Surroundings.service
           [Surroundings.details_of 1; Surroundings.details_of 2]
           [Surroundings.details_of 3] [PInt 1; PInt 2]
           (PDict [("MachineName", PStr "web1")]) KeyError AgentsApi.init).
  - repeat constructor.
  - reflexivity.
Defined.

Lemma configuration_by_name_is_first_match_witness :
  AgentConfiguration.GetBackupConfigurationByName Surroundings.configuration
    (PStr "mail")
  = Ok (Surroundings.backup_configuration "mail" "rax://b" 2).
Proof.
  apply (configuration_by_name_is_first_match Surroundings.configuration
           (PStr "mail") (Surroundings.backup_configuration "mail" "rax://b" 2)
           (PStr "mail")
           [Surroundings.backup_configuration "home" "rax://a" 1]
           [Surroundings.backup_configuration "mail" "rax://c" 3]).
  - reflexivity.
  - constructor; [|constructor]. exists (PStr "home"). by vm_compute.
  - reflexivity.
  - reflexivity.
Defined.

Lemma unknown_backup_name_witness :
  AgentConfiguration.GetBackupConfigurationByName Surroundings.configuration
    (PStr "logs") = Ok (PDict []) /\
  AgentConfiguration.GetVaultDbPath Surroundings.configuration (PStr "logs")
    = (Ok EmptyString, [AgentConfiguration.ErrorVolumeUri]) /\
  AgentConfiguration.GetVaultDbContainer Surroundings.configuration
    (PStr "logs") = (Raise KeyError, []).
Proof.
  apply (unknown_backup_name Surroundings.configuration (PStr "logs")
           [Surroundings.backup_configuration "home" "rax://a" 1;
            Surroundings.backup_configuration "mail" "rax://b" 2;
            Surroundings.backup_configuration "mail" "rax://c" 3]).
  - reflexivity.
  - repeat constructor.
    + exists (PStr "home"). by vm_compute.
    + exists (PStr "mail"). by vm_compute.
    + exists (PStr "mail"). by vm_compute.
  - discriminate.
Defined.

Lemma vault_path_uses_last_matching_volume_witness :
  AgentConfiguration.GetVaultDbPath Surroundings.configuration (PStr "mail")
  = (Ok (String.append "BACKUPS/v2.0/" "v3"),
     [AgentConfiguration.DebugVaultDbPath
        (String.append "BACKUPS/v2.0/" "v3")]).
Proof.
  apply (vault_path_uses_last_matching_volume Surroundings.configuration
           (PStr "mail") (Surroundings.backup_configuration "mail" "rax://b" 2)
           (PStr "rax://b") (Surroundings.volume "rax://b" "v3")
           (PStr "rax://b") "v3"
           [Surroundings.volume "rax://a" "v1";
            Surroundings.volume "rax://b" "v2"]
           [Surroundings.volume "rax://c" "v4"]).
  - discriminate.
  - reflexivity.
  - reflexivity.
  - reflexivity.
  - repeat constructor.
    + by exists (PStr "rax://a").
    + by exists (PStr "rax://b").
  - reflexivity.
  - reflexivity.
  - repeat constructor. exists (PStr "rax://c"). by vm_compute.
  - reflexivity.
Defined.

Lemma vault_path_empty_iff_lookup_failed_witness :
  fst (AgentConfiguration.GetVaultDbPath (PDict [("Volumes", PList [])])
         PNone) = Ok EmptyString.
Proof.
  apply (proj1 (proj2 (vault_path_empty_iff_lookup_failed
                         (PDict [("Volumes", PList [])]) PNone))).
  reflexivity.
Defined.

(** The task function does end by an exception: on a reply of the event
    channel that is no list of events its first check raises [TypeError],
    and no notifier has been touched. *)
Example task_ends_by_exception :
  let r := Agents._keep_agent_wake_thread_fn Py2 Surroundings.foreign 10 0
             (IdInt 42) 70
             (snd (Agents.KeepAgentAwake (IdInt 42) 70 Agents.init)) in
  fst r = Agents.Raised TypeError /\
  Agents.events_set (snd r) = ∅ /\
  Forall (fun x => Agents.is_set_action x = false)
    (drop 2 (Agents.trace (snd r))).
Proof.
  vm_compute. split; [done|]. split; [done|]. repeat constructor.
Qed.

(** A saved log level that the service refuses to restore keeps the
    teardown of the [Agents] object from reaching the tasks at all: for
    every number of steps, no notifier has been set. *)
Example teardown_stuck_on_log_levels (fuel : nat) :
  AgentsObject.__del__ Surroundings.refusing fuel Surroundings.two_tasks
  = (Agents.OutOfFuel, Surroundings.two_tasks).
Proof.
  unfold AgentsObject.__del__, Surroundings.two_tasks.
  cbn [AgentsObject.loglevel_shared AgentsObject.loglevel].
  unfold AgentLogLevelMore.__del__.
  rewrite (pop_each_refused Surroundings.refusing fuel _ _ (IdInt 1) ["Info"]);
    [done|by intros k; vm_compute| | |by vm_compute|done].
  - intros i stack level Hi Hin. simpl in Hi.
    apply lookup_singleton_Some in Hi as [_ <-].
    apply list_elem_of_singleton in Hin as ->. by vm_compute.
  - apply list_elem_of_fmap. exists (IdInt 1, ["Info"]). split; [done|].
    apply elem_of_map_to_list. by vm_compute.
Qed.

End MoreWitnesses.
